(** * django-bulk-lifecycle: the lifecycle manager

    A shallow embedding of [django_bulk_hooks/manager.py]
    ([BulkLifecycleManager]) and of [django_bulk_lifecycle/priority.py].

    The manager is effectful Python: it reads and mutates in-memory objects
    that it shares with the hooks, calls the hook engine and the ORM, and
    runs inside [transaction.atomic].  It is embedded in a small monad over
    an explicit memory, the Python heap and the persisted state.  A
    computation returns a value or raises an exception, and produces a log:
    the manager methods entered, the transactions begun, committed and
    rolled back, and every call made to a collaborator, with its arguments.
    The properties of the manager are stated on the outcome and on the log.

    The collaborators themselves (the hook engine, the rows that the query
    sets hold, the batch primitives of the base manager) are not part of
    [manager.py]; they are parameters of the development, arbitrary
    functions of the memory.  The [delete] of the query set of the manager,
    which [bulk_delete] calls, is in [queryset.py]: it is modelled from the
    specification, and comes back to the manager. *)

From Stdlib Require Import ZArith Lia.
From stdpp Require Import base numbers list strings gmap.

Set Default Proof Using "Type".
Open Scope string_scope.
Open Scope list_scope.

(** ** priority.py *)

Module Priority.

Inductive Priority := HIGHEST | HIGH | NORMAL | LOW | LOWEST.

(** The integer value of each member of the [IntEnum]. *)
Definition value (p : Priority) : Z :=
  match p with
  | HIGHEST => 0
  | HIGH => 25
  | NORMAL => 50
  | LOW => 75
  | LOWEST => 100
  end.

End Priority.

(** ** Python values and objects *)

(** The values an attribute of a model instance can hold, as far as the
    manager inspects them: it tests a primary key for truthiness ([save])
    and for identity with [None] ([bulk_delete]). *)
Inductive Value :=
| VNone
| VBool (b : bool)
| VInt (z : Z)
| VStr (s : string).

#[global] Instance Value_eq_dec : EqDecision Value.
Proof. solve_decision. Defined.

(** Python truthiness: [None], [False], [0] and the empty string are falsy. *)
Definition truthy (v : Value) : bool :=
  match v with
  | VNone => false
  | VBool b => b
  | VInt z => negb (z =? 0)%Z
  | VStr s => negb (String.eqb s "")
  end.

(** [v is not None] *)
Definition is_not_None (v : Value) : bool :=
  match v with
  | VNone => false
  | _ => true
  end.

(** A field of a model's [_meta.fields]. *)
Record Field := {
  name : string;
  attname : string;
  primary_key : bool
}.

(** A class object: its identity (Python's [id]: no two class objects have
    the same, whatever their names), its [__name__], the identities of the
    classes of its [__mro__] (itself included) and, for a model, its
    [_meta.fields]. *)
Record Class := {
  cls_id : nat;
  cls_name : string;
  cls_mro : list nat;
  cls_fields : list Field
}.

(** [issubclass(c, d)]: the class object [d] is one of those of the method
    resolution order of [c]. *)
Definition issubclass (c d : Class) : bool :=
  bool_decide (cls_id d ∈ cls_mro c).

(** [_meta.pk]: the field declared as primary key. *)
Definition meta_pk (c : Class) : option Field :=
  List.find primary_key (cls_fields c).

(** An object of the heap: its type and its attribute dictionary. *)
Record PyObj := {
  obj_type : Class;
  obj_attrs : gmap string Value
}.

(** [obj.pk]: Django's [pk] property reads the attribute of the primary-key
    field. *)
Definition pk (o : PyObj) : Value :=
  match meta_pk (obj_type o) with
  | Some f => default VNone (obj_attrs o !! attname f)
  | None => VNone
  end.

(** [pk] is a property of Django's models: an object has it when its class
    declares a primary key, as every model does. *)
Definition has_pk (o : PyObj) : bool :=
  match meta_pk (obj_type o) with
  | Some _ => true
  | None => false
  end.

(** [setattr(obj, key, value)]; [pk] is a property that writes the attribute
    of the primary-key field. *)
Definition setattr (o : PyObj) (key : string) (v : Value) : PyObj :=
  let target :=
    if String.eqb key "pk"
    then match meta_pk (obj_type o) with
         | Some f => attname f
         | None => key
         end
    else key in
  {| obj_type := obj_type o; obj_attrs := <[target := v]> (obj_attrs o) |}.

(** References: to a list object, to any other object, to a context. *)
Abbreviation lref := nat.
Abbreviation oref := nat.
Abbreviation cref := nat.

(** Modelled from the spec: [TriggerContext] ([django_bulk_hooks/context.py]
    is not among the sources).  A short-lived value object constructed with
    an entity type, carrying free-form auxiliary state. *)
Record TriggerContext := {
  entity_type : Class;
  aux : gmap string Value
}.

(** The six lifecycle events of [django_bulk_hooks.constants]. *)
Inductive LifecycleEvent :=
| BEFORE_CREATE | AFTER_CREATE
| BEFORE_UPDATE | AFTER_UPDATE
| BEFORE_DELETE | AFTER_DELETE.

(** Exceptions.  The manager itself raises only [TypeError]; its message
    names the method, the expected class and the set of type names found in
    the batch.  The interpreter raises [AttributeError] when an object has
    not the attribute that is read (['Note' object has no attribute 'pk']),
    and [RecursionError] when the calls are nested beyond what its stack
    allows.  [PyExc] stands for any other exception, as the collaborators
    raise them. *)
Inductive Exn :=
| TypeError (meth expected : string) (got : gset string)
| AttributeError (type_name attr : string)
| RecursionError
| PyExc (kind msg : string).

(** A call of a manager method, with the content of its batch on entry. *)
Inductive Call :=
| CBulkUpdate (objs : lref) (items : list oref) (fields : list string)
              (batch_size : option nat) (bypass_hooks : bool)
| CBulkCreate (objs : lref) (items : list oref) (batch_size : option nat)
              (ignore_conflicts bypass_hooks : bool)
| CBulkDelete (objs : lref) (items : list oref) (batch_size : option nat)
              (bypass_hooks : bool)
| CUpdate (kwargs : list (string * Value))
| CDelete
| CSave (obj : oref).

(** What the manager does that is visible from outside: entering one of its
    methods, entering and leaving [transaction.atomic], building a context,
    calling the engine, calling the ORM, and an exception being raised. *)
Inductive Event :=
| EEnter (c : Call)
| ETxBegin
| ETxCommit
| ETxRollback
| ERaise (e : Exn)
| ENewContext (cls : Class) (ctx : cref)
| EHook (cls : Class) (ev : LifecycleEvent) (objs : lref) (items : list oref)
        (originals : option lref) (ctx : cref)
| EFetchPks (cls : Class) (pks : list Value)
| EFetchAll (cls : Class)
| EInsert (cls : Class) (chunk : list oref) (batch_size : option nat)
          (ignore_conflicts : bool)
| EUpdate (cls : Class) (chunk : list oref) (fields : list string)
          (batch_size : option nat).

Definition is_hook (e : Event) : bool :=
  match e with EHook _ _ _ _ _ _ => true | _ => false end.

(** Calls that reach storage: the reads and the writes of the ORM. *)
Definition is_storage (e : Event) : bool :=
  match e with
  | EFetchPks _ _ | EFetchAll _ | EInsert _ _ _ _ | EUpdate _ _ _ _ => true
  | _ => false
  end.

Definition is_write (e : Event) : bool :=
  match e with
  | EInsert _ _ _ _ | EUpdate _ _ _ _ => true
  | _ => false
  end.

(** A hook invocation or a fetch from storage on behalf of the hooks. *)
Definition is_hook_work (e : Event) : bool :=
  match e with
  | EHook _ _ _ _ _ _ | EFetchPks _ _ => true
  | _ => false
  end.

#[global] Instance LifecycleEvent_eq_dec : EqDecision LifecycleEvent.
Proof. solve_decision. Defined.

(** An invocation of the hooks of the lifecycle event [ev]. *)
Definition is_hook_for (ev : LifecycleEvent) (e : Event) : bool :=
  match e with
  | EHook _ ev' _ _ _ _ => bool_decide (ev' = ev)
  | _ => false
  end.

(** A batch write of more than [n] elements. *)
Definition writes_more_than (n : nat) (e : Event) : bool :=
  match e with
  | EInsert _ chunk _ _ | EUpdate _ chunk _ _ => bool_decide (n < length chunk)
  | _ => false
  end.

(** An exception or a rollback. *)
Definition is_failure (e : Event) : bool :=
  match e with ERaise _ | ETxRollback => true | _ => false end.

(** A log in which exactly one exception was raised, [e], after which
    nothing happened but the enclosing transactions being rolled back. *)
Definition raised_once (e : Exn) (log : list Event) : Prop :=
  exists pre post : list Event,
    log = pre ++ ERaise e :: post /\
    Forall (fun ev => is_failure ev = false) pre /\
    Forall (fun ev => ev = ETxRollback) post.

Definition is_enter (e : Event) : bool :=
  match e with EEnter _ => true | _ => false end.

(** The manager calls recorded in a log, in order. *)
Fixpoint calls_of (log : list Event) : list Call :=
  match log with
  | [] => []
  | EEnter c :: log' => c :: calls_of log'
  | _ :: log' => calls_of log'
  end.

(** ** Sequences *)

(** [xs[i:j]] for [0 <= i <= j]. *)
Definition slice {A} (xs : list A) (i j : nat) : list A :=
  take (j - i) (drop i xs).

(** Number of steps of [range(0, stop, step)]. *)
Definition range_len (stop step : nat) : nat :=
  (stop + step - 1) / step.

(** [range(0, stop, step)] *)
Definition range0 (stop step : nat) : list nat :=
  (fun k => k * step) <$> seq 0 (range_len stop step).

Section Manager.

(** The persisted state is whatever the storage layer makes of it. *)
Context {DB : Type}.

(** ** Memory *)

(** The Python heap and the persisted state.  The heap holds the list
    objects (the batches), the objects they refer to, and the contexts.  The
    manager creates lists and contexts, so these are finite maps with
    allocation; it never creates the other objects, and every reference to
    one denotes an object. *)
Record Mem := {
  lists : gmap lref (list oref);
  objects : oref -> PyObj;
  contexts : gmap cref TriggerContext;
  db : DB
}.

(** The content of the list object [l].  The manager dereferences the batch
    it is given and the lists it has created; a reference to no list reads
    as the empty list. *)
Definition deref (m : Mem) (l : lref) : list oref := lists m !!! l.

Definition set_db (d : DB) (m : Mem) : Mem :=
  {| lists := lists m; objects := objects m; contexts := contexts m; db := d |}.

Definition set_list (l : lref) (xs : list oref) (m : Mem) : Mem :=
  {| lists := <[l := xs]> (lists m); objects := objects m;
     contexts := contexts m; db := db m |}.

Definition set_object (r : oref) (o : PyObj) (m : Mem) : Mem :=
  {| lists := lists m;
     objects := fun j => if Nat.eqb j r then o else objects m j;
     contexts := contexts m; db := db m |}.

(** A new list object holding [xs]. *)
Definition alloc_list (xs : list oref) (m : Mem) : lref * Mem :=
  let l := fresh (dom (lists m)) in (l, set_list l xs m).

(** A new context for [cls]. *)
Definition alloc_ctx (cls : Class) (m : Mem) : cref * Mem :=
  let c := fresh (dom (contexts m)) in
  (c, {| lists := lists m; objects := objects m;
         contexts := <[c := {| entity_type := cls; aux := ∅ |}]> (contexts m);
         db := db m |}).

(** The outcome of a computation: a value or an exception, and the memory
    it leaves. *)
Inductive Outcome (A : Type) :=
| Ok (a : A) (m : Mem)
| Raise (e : Exn) (m : Mem).
Arguments Ok {A} a m.
Arguments Raise {A} e m.

Definition mem_of {A} (r : Outcome A) : Mem :=
  match r with Ok _ m => m | Raise _ m => m end.

(** The value returned, if any, and the exception raised, if any. *)
Definition returned {A} (r : Outcome A) : option A :=
  match r with Ok a _ => Some a | Raise _ _ => None end.

Definition raised {A} (r : Outcome A) : option Exn :=
  match r with Ok _ _ => None | Raise e _ => Some e end.

(** ** The monad of the manager *)

(** A computation: from a memory, the log of what it did and its outcome. *)
Definition M (A : Type) : Type := Mem -> list Event * Outcome A.

Definition ret {A} (a : A) : M A := fun m => ([], Ok a m).

Definition bind {A B} (x : M A) (f : A -> M B) : M B := fun m =>
  match x m with
  | (l1, Ok a m1) => let '(l2, r) := f a m1 in (l1 ++ l2, r)
  | (l1, Raise e m1) => (l1, Raise e m1)
  end.

#[global] Instance M_ret : MRet M := @ret.
#[global] Instance M_bind : MBind M := fun A B f x => bind x f.

(** [raise e] *)
Definition raise {A} (e : Exn) : M A := fun m => ([ERaise e], Raise e m).

Definition gets {A} (f : Mem -> A) : M A := fun m => ([], Ok (f m) m).

Definition modify (f : Mem -> Mem) : M unit := fun m => ([], Ok tt (f m)).

(** Entering a manager method. *)
Definition enter (c : Mem -> Call) : M unit :=
  fun m => ([EEnter (c m)], Ok tt m).

(** Calling a collaborator: the call is logged, and so is the exception if
    it raises one. *)
Definition call {A} (ev : Event) (f : Mem -> Outcome A) : M A := fun m =>
  match f m with
  | Ok a m' => ([ev], Ok a m')
  | Raise e m' => ([ev; ERaise e], Raise e m')
  end.

(** [@transaction.atomic]: the body runs in a transaction (a savepoint when
    nested); when it raises, the persisted state is rolled back to what it
    was on entry and the exception goes on to the caller; the Python heap is
    not rolled back. *)
Definition atomic {A} (body : M A) : M A := fun m =>
  match body m with
  | (l, Ok a m') => (ETxBegin :: l ++ [ETxCommit], Ok a m')
  | (l, Raise e m') => (ETxBegin :: l ++ [ETxRollback], Raise e (set_db (db m) m'))
  end.

(** [for x in xs: body(x)] over a sequence that is fixed when the loop
    starts. *)
Fixpoint for_each {A} (xs : list A) (body : A -> M unit) : M unit :=
  match xs with
  | [] => ret tt
  | x :: xs' => body x ;; for_each xs' body
  end.

Definition new_list (xs : list oref) : M lref := fun m =>
  let '(l, m') := alloc_list xs m in ([], Ok l m').

Definition isinstance (m : Mem) (r : oref) (cls : Class) : bool :=
  issubclass (obj_type (objects m r)) cls.

(** [type(obj).__name__] *)
Definition type_name (m : Mem) (r : oref) : string :=
  cls_name (obj_type (objects m r)).

(** [obj.pk] for a reference to an instance of a model *)
Definition pk_of (m : Mem) (r : oref) : Value := pk (objects m r).

(** [obj.pk] for a reference to any object: the read raises
    [AttributeError] when the object has no [pk]. *)
Definition read_pk (obj : oref) : M Value :=
  o ← gets (fun m => objects m obj);
  if has_pk o then ret (pk o)
  else raise (AttributeError (cls_name (obj_type o)) "pk").

(** ** The collaborators *)

(** What [manager.py] calls and does not define: [engine.run], the rows
    that the query sets reached through [model_cls.objects] and [self.all()]
    hold, and the batch primitives of the base manager reached through
    [super(models.Manager, self)].  Each is a function of the memory that
    returns or raises.  With them comes the interpreter that runs the
    manager: Python nests calls up to a limit, beyond which it raises
    [RecursionError]. *)
Record Collaborators := {
  (** [engine.run(model_cls, event, objs, originals, ctx=ctx)] *)
  engine_run : Class -> LifecycleEvent -> lref -> option lref -> cref ->
               Mem -> Outcome unit;
  (** [list(model_cls.objects.filter(pk__in=pks))] *)
  filter_pk_in : Class -> list Value -> Mem -> Outcome (list oref);
  (** [list(self.all())] *)
  all : Class -> Mem -> Outcome (list oref);
  (** [super(models.Manager, self).bulk_create(chunk, batch_size=...,
      ignore_conflicts=...)] *)
  base_bulk_create : Class -> list oref -> option nat -> bool ->
                     Mem -> Outcome (list oref);
  (** [super(models.Manager, self).bulk_update(chunk, fields,
      batch_size=...)] *)
  base_bulk_update : Class -> list oref -> list string -> option nat ->
                     Mem -> Outcome unit;
  (** How many calls of [bulk_delete], one inside the other, the stack of
      the interpreter has room for. *)
  recursion_limit : nat
}.

(** A collaborator that returns, whatever the memory: it never raises. *)
Definition returns {A} (f : Mem -> Outcome A) : Prop :=
  forall m, exists a m', f m = Ok a m'.

(** A collaborator that leaves the list objects it finds as they are (it may
    create new ones, and mutate the objects the lists refer to). *)
Definition keeps_lists {A} (f : Mem -> Outcome A) : Prop :=
  forall m l xs, lists m !! l = Some xs -> lists (mem_of (f m)) !! l = Some xs.

(** The engine contract of the specification, extended to the ORM: no
    collaborator mutates a batch. *)
Record lists_stable (C : Collaborators) : Prop := {
  stable_engine_run : forall cls ev objs originals ctx,
    keeps_lists (engine_run C cls ev objs originals ctx);
  stable_filter_pk_in : forall cls pks, keeps_lists (filter_pk_in C cls pks);
  stable_all : forall cls, keeps_lists (all C cls);
  stable_base_bulk_create : forall cls chunk batch_size ignore_conflicts,
    keeps_lists (base_bulk_create C cls chunk batch_size ignore_conflicts);
  stable_base_bulk_update : forall cls chunk fields batch_size,
    keeps_lists (base_bulk_update C cls chunk fields batch_size)
}.

(** ** manager.py *)

(** The collaborators, and [self.model]. *)
Context (C : Collaborators) (model : Class).

Definition CHUNK_SIZE : nat := 200.

(** [TriggerContext(model_cls)] *)
Definition new_context (cls : Class) : M cref := fun m =>
  let '(c, m') := alloc_ctx cls m in ([ENewContext cls c], Ok c m').

(** [engine.run(model_cls, ev, objs, originals, ctx=ctx)] *)
Definition run (ev : LifecycleEvent) (objs : lref) (originals : option lref)
    (ctx : cref) : M unit :=
  items ← gets (fun m => deref m objs);
  call (EHook model ev objs items originals ctx)
       (engine_run C model ev objs originals ctx).

(** The type check common to the three bulk methods:
[[
    if any(not isinstance(obj, model_cls) for obj in objs):
        raise TypeError(f"... expected instances of {model_cls.__name__},
                          but got {set(type(obj).__name__ for obj in objs)}")
]] *)
Definition check_types (meth : string) (objs : lref) : M unit :=
  bad ← gets (fun m =>
            existsb (fun r => negb (isinstance m r model)) (deref m objs));
  if (bad : bool) then
    got ← gets (fun m => list_to_set (type_name m <$> deref m objs));
    raise (TypeError meth (cls_name model) got)
  else ret tt.

(** The write loop of [bulk_update]:
[[
    for i in range(0, len(objs), self.CHUNK_SIZE):
        chunk = objs[i : i + self.CHUNK_SIZE]
        super(models.Manager, self).bulk_update(chunk, fields, batch_size=batch_size)
]] *)
Definition update_chunks (objs : lref) (fields : list string)
    (batch_size : option nat) : M unit :=
  n ← gets (fun m => length (deref m objs));
  for_each (range0 n CHUNK_SIZE) (fun i =>
    chunk ← gets (fun m => slice (deref m objs) i (i + CHUNK_SIZE));
    call (EUpdate model chunk fields batch_size)
         (base_bulk_update C model chunk fields batch_size)).

Definition bulk_update (objs : lref) (fields : list string)
    (batch_size : option nat) (bypass_hooks : bool) : M lref :=
  enter (fun m => CBulkUpdate objs (deref m objs) fields batch_size bypass_hooks);;
  atomic (
    items ← gets (fun m => deref m objs);
    if bool_decide (items = []) then new_list []
    else
      check_types "bulk_update" objs;;
      hooked ← (if negb bypass_hooks then
                  pks ← gets (fun m => pk_of m <$> deref m objs);
                  found ← call (EFetchPks model pks) (filter_pk_in C model pks);
                  originals ← new_list found;
                  ctx ← new_context model;
                  run BEFORE_UPDATE objs (Some originals) ctx;;
                  ret (Some (originals, ctx))
                else ret None);
      update_chunks objs fields batch_size;;
      match hooked with
      | Some (originals, ctx) => run AFTER_UPDATE objs (Some originals) ctx
      | None => ret tt
      end;;
      ret objs).

(** The write loop of [bulk_create]:
[[
    for i in range(0, len(objs), self.CHUNK_SIZE):
        chunk = objs[i : i + self.CHUNK_SIZE]
        result.extend(super(models.Manager, self).bulk_create(
            chunk, batch_size=batch_size, ignore_conflicts=ignore_conflicts))
]] *)
Definition create_chunks (objs result : lref) (batch_size : option nat)
    (ignore_conflicts : bool) : M unit :=
  n ← gets (fun m => length (deref m objs));
  for_each (range0 n CHUNK_SIZE) (fun i =>
    chunk ← gets (fun m => slice (deref m objs) i (i + CHUNK_SIZE));
    created ← call (EInsert model chunk batch_size ignore_conflicts)
                   (base_bulk_create C model chunk batch_size ignore_conflicts);
    modify (fun m => set_list result (deref m result ++ created) m)).

Definition bulk_create (objs : lref) (batch_size : option nat)
    (ignore_conflicts bypass_hooks : bool) : M lref :=
  enter (fun m => CBulkCreate objs (deref m objs) batch_size ignore_conflicts
                              bypass_hooks);;
  atomic (
    check_types "bulk_create" objs;;
    result ← new_list [];
    hooked ← (if negb bypass_hooks then
                ctx ← new_context model;
                run BEFORE_CREATE objs None ctx;;
                ret (Some ctx)
              else ret None);
    create_chunks objs result batch_size ignore_conflicts;;
    match hooked with
    | Some ctx => run AFTER_CREATE result None ctx
    | None => ret tt
    end;;
    ret result).

(** [[obj.pk for obj in objs if obj.pk is not None]] *)
Definition non_null_pks (m : Mem) (objs : lref) : list Value :=
  List.filter is_not_None (pk_of m <$> deref m objs).

(** Modelled from the spec: [LifecycleQuerySet.delete]
    ([django_bulk_hooks/queryset.py] is not among the sources; the manager
    returns this query set from [get_queryset], so that
    [model_cls.objects.filter(...)] is one).  Section 4.5: the terminal
    operations [update] and [delete] of a query set of the manager "route
    through the Lifecycle Manager rather than a hook-bypassing default";
    section 4.4, for [delete]: "materializes all instances matched by the
    active query, empty set short-circuits to 0, else delegates to
    [bulk_delete]. Returns count."  The method of the manager that it
    delegates to is the argument [manager_bulk_delete]. *)
Definition queryset_delete
    (manager_bulk_delete : lref -> option nat -> bool -> M lref)
    (pks : list Value) : M nat :=
  found ← call (EFetchPks model pks) (filter_pk_in C model pks);
  rows ← new_list found;
  if bool_decide (found = []) then ret 0
  else
    manager_bulk_delete rows None false;;
    gets (fun m => length (deref m rows)).

(** [bulk_delete], with [depth] calls of it to go before the stack of the
    interpreter is full.  [model_cls.objects.filter(pk__in=pks).delete()] is
    the [delete] of the query set of this manager, which comes back to
    [bulk_delete]. *)
Fixpoint bulk_delete_at (depth : nat) (objs : lref) (batch_size : option nat)
    (bypass_hooks : bool) : M lref :=
  enter (fun m => CBulkDelete objs (deref m objs) batch_size bypass_hooks);;
  atomic (
    items ← gets (fun m => deref m objs);
    if bool_decide (items = []) then new_list []
    else
      check_types "bulk_delete" objs;;
      ctx ← new_context model;
      (if negb bypass_hooks then run BEFORE_DELETE objs None ctx else ret tt);;
      pks ← gets (fun m => non_null_pks m objs);
      match depth with
      | 0 => raise RecursionError
      | S depth' => queryset_delete (bulk_delete_at depth') pks;; ret tt
      end;;
      (if negb bypass_hooks then run AFTER_DELETE objs None ctx else ret tt);;
      ret objs).

Definition bulk_delete : lref -> option nat -> bool -> M lref :=
  bulk_delete_at (recursion_limit C).

(** [for obj in objs: setattr(obj, key, value)] *)
Definition setattr_all (objs : lref) (key : string) (value : Value) : M unit :=
  items ← gets (fun m => deref m objs);
  for_each items (fun r =>
    modify (fun m => set_object r (setattr (objects m r) key value) m)).

(** [update] takes keyword arguments: an ordered dictionary. *)
Definition update (kwargs : list (string * Value)) : M nat :=
  enter (fun _ => CUpdate kwargs);;
  atomic (
    found ← call (EFetchAll model) (all C model);
    objs ← new_list found;
    items ← gets (fun m => deref m objs);
    if bool_decide (items = []) then ret 0
    else
      for_each kwargs (fun kv => setattr_all objs kv.1 kv.2);;
      bulk_update objs (kwargs.*1) None false;;
      gets (fun m => length (deref m objs))).

(** [delete()]; [self.model.objects] is taken to be this manager. *)
Definition delete : M nat :=
  enter (fun _ => CDelete);;
  atomic (
    found ← call (EFetchAll model) (all C model);
    objs ← new_list found;
    items ← gets (fun m => deref m objs);
    if bool_decide (items = []) then ret 0
    else
      bulk_delete objs None false;;
      gets (fun m => length (deref m objs))).

(** [[field.name for field in obj._meta.fields if field.name != "id"]] *)
Definition fields_but_id (o : PyObj) : list string :=
  List.filter (fun n => negb (String.eqb n "id"))
              (name <$> cls_fields (obj_type o)).

Definition save (obj : oref) : M oref :=
  enter (fun _ => CSave obj);;
  atomic (
    p ← read_pk obj;
    (if truthy p then
       batch ← new_list [obj];
       fields ← gets (fun m => fields_but_id (objects m obj));
       bulk_update batch fields None false;;
       ret tt
     else
       batch ← new_list [obj];
       bulk_create batch None false false;;
       ret tt);;
    ret obj).

(** ** The contract, in the words of the specification *)

(** The raw write that [bypass_hooks=True] is specified to perform alone,
    for a batch cut into [chunks]: the underlying batch primitive [write] on
    each chunk in turn, each starting in the memory that the one before has
    left, where the caller has done no more than [keep] what was returned;
    the first that raises ends it. *)
Fixpoint raw_writes {A} (write : list oref -> Mem -> Outcome A)
    (keep : A -> Mem -> Mem) (chunks : list (list oref)) (m : Mem)
    : Outcome unit :=
  match chunks with
  | [] => Ok tt m
  | chunk :: rest =>
      match write chunk m with
      | Ok a m1 => raw_writes write keep rest (keep a m1)
      | Raise e m1 => Raise e m1
      end
  end.

(** What a transaction makes of an outcome: the value [v] when it returned,
    the persisted state of [m], where it started, when it raised. *)
Definition in_transaction {A B} (m : Mem) (v : B) (r : Outcome A) : Outcome B :=
  match r with
  | Ok _ m' => Ok v m'
  | Raise e m' => Raise e (set_db (db m) m')
  end.

(** [result.extend(created)] *)
Definition extend (result : lref) (created : list oref) (m : Mem) : Mem :=
  set_list result (deref m result ++ created) m.

(** An event of a transaction: its beginning, its commit, its rollback. *)
Definition is_transactional (e : Event) : bool :=
  match e with ETxBegin | ETxCommit | ETxRollback => true | _ => false end.

(** A batch rejected as the specification words it: a [TypeError] "raised
    before any transactional work begins", before any hook is invoked and
    storage called, and nothing written. *)
Definition rejected_as_specified {A} (x : M A) (m : Mem) : Prop :=
  (exists meth expected got,
     raised (x m).2 = Some (TypeError meth expected got)) /\
  Forall (fun e => is_transactional e = false /\
                   is_hook e = false /\ is_storage e = false) (x m).1 /\
  db (mem_of (x m).2) = db m.

(** "All fields except the primary key". *)
Definition non_pk_fields (o : PyObj) : list string :=
  name <$> List.filter (fun f => negb (primary_key f)) (cls_fields (obj_type o)).

(** [save] as the specification words it: [bulk_create] with the singleton
    batch when the primary key is [None], [bulk_update] with the singleton
    batch and all fields except the primary key when one is assigned, and
    [obj] returned. *)
Definition save_as_specified (obj : oref) (m : Mem) : Prop :=
  let calls := calls_of (save obj m).1 in
  (pk_of m obj = VNone ->
   exists batch, calls = [CSave obj; CBulkCreate batch [obj] None false false]) /\
  (pk_of m obj <> VNone ->
   exists batch,
     calls = [CSave obj;
              CBulkUpdate batch [obj] (non_pk_fields (objects m obj)) None false]) /\
  (forall v m', (save obj m).2 = Ok v m' -> v = obj).

(** All or nothing: a call that returns has raised nothing, rolled back
    nothing and committed; a call that raises leaves the persisted state as
    it found it, and the exception it raises is the one that was raised
    inside, once. *)
Definition all_or_nothing {A} (x : M A) : Prop :=
  forall m,
    match x m with
    | (log, Ok _ _) =>
        Forall (fun ev => is_failure ev = false) log /\
        last log = Some ETxCommit
    | (log, Raise e m') =>
        db m' = db m /\ raised_once e log /\ last log = Some ETxRollback
    end.

(** ** Properties of computations *)

(** [silent p x]: no event of the log of [x] satisfies [p], however [x]
    ends. *)
Definition silent {A} (p : Event -> bool) (x : M A) : Prop :=
  forall m, Forall (fun e => p e = false) (x m).1.

(** [at_most p n x]: at most [n] events of the log of [x] satisfy [p],
    however [x] ends. *)
Definition at_most {A} (p : Event -> bool) (n : nat) (x : M A) : Prop :=
  forall m, length (List.filter p (x m).1) <= n.

(** [disciplined x]: when [x] returns, nothing was raised and nothing rolled
    back; when it raises [e], then [e] was raised once, and only rollbacks
    follow. *)
Definition disciplined {A} (x : M A) : Prop :=
  forall m,
    match x m with
    | (log, Ok _ _) => Forall (fun ev => is_failure ev = false) log
    | (log, Raise e _) => raised_once e log
    end.

(** ** More properties of computations *)

(** The chunks a write loop cuts a batch into: [objs[i : i + CHUNK_SIZE]]
    for [i] in [range(0, len(objs), CHUNK_SIZE)]. *)
Definition chunks_of (items : list oref) : list (list oref) :=
  (fun i => slice items i (i + CHUNK_SIZE)) <$> range0 (length items) CHUNK_SIZE.

(** [keeps_in D x]: the list objects of [D] hold what they held when [x]
    ends, however it ends. *)
Definition keeps_in {A} (D : gset lref) (x : M A) : Prop :=
  forall m, D ⊆ dom (lists m) ->
    forall l, l ∈ D -> lists (mem_of (x m).2) !! l = lists m !! l.

(** The lifecycle events whose hooks a log shows invoked, in order. *)
Fixpoint hooks_of (log : list Event) : list LifecycleEvent :=
  match log with
  | [] => []
  | EHook _ ev _ _ _ _ :: log' => ev :: hooks_of log'
  | _ :: log' => hooks_of log'
  end.

(** What a log shows of the work of a call, in order: the hooks invoked and
    the calls to storage. *)
Inductive Step :=
| SHook (ev : LifecycleEvent)
| SFetchAll
| SFetchPks (pks : list Value)
| SInsert (chunk : list oref)
| SUpdate (chunk : list oref) (fields : list string).

Fixpoint steps_of (log : list Event) : list Step :=
  match log with
  | [] => []
  | EHook _ ev _ _ _ _ :: log' => SHook ev :: steps_of log'
  | EFetchAll _ :: log' => SFetchAll :: steps_of log'
  | EFetchPks _ pks :: log' => SFetchPks pks :: steps_of log'
  | EInsert _ chunk _ _ :: log' => SInsert chunk :: steps_of log'
  | EUpdate _ chunk fields _ :: log' => SUpdate chunk fields :: steps_of log'
  | _ :: log' => steps_of log'
  end.

(** An invocation of the hooks of a lifecycle event that is not among
    [evs]. *)
Definition is_hook_outside (evs : list LifecycleEvent) (e : Event) : bool :=
  match e with
  | EHook _ ev _ _ _ _ => negb (bool_decide (ev ∈ evs))
  | _ => false
  end.

End Manager.

Arguments Mem : clear implicits.
Arguments Outcome : clear implicits.
Arguments M : clear implicits.
Arguments Collaborators : clear implicits.
Arguments Ok {DB A} a m.
Arguments Raise {DB A} e m.

(** A model whose primary-key field, and no other, is called [id]. *)
Definition pk_named_id (c : Class) : Prop :=
  forall f, f ∈ cls_fields c -> (primary_key f = true <-> name f = "id").

(** ** A concrete instance

    Three models, hooks that mark the instances they see, and a storage
    that keeps the primary keys of one table. *)

Module Demo.

Definition field (n : string) (is_pk : bool) : Field :=
  {| name := n; attname := n; primary_key := is_pk |}.

(** The identities of [object] and of Django's [Model]. *)
Definition object_id : nat := 0.
Definition Model_id : nat := 1.

(** A model with the default [id] primary key. *)
Definition Account : Class :=
  {| cls_id := 2;
     cls_name := "Account";
     cls_mro := [2; Model_id; object_id];
     cls_fields := [field "id" true; field "owner" false; field "balance" false] |}.

(** A model unrelated to [Account]. *)
Definition Invoice : Class :=
  {| cls_id := 3;
     cls_name := "Invoice";
     cls_mro := [3; Model_id; object_id];
     cls_fields := [field "id" true; field "total" false] |}.

(** A model whose primary key is not called [id]. *)
Definition Coupon : Class :=
  {| cls_id := 4;
     cls_name := "Coupon";
     cls_mro := [4; Model_id; object_id];
     cls_fields := [field "code" true; field "discount" false] |}.

(** Another model that is called [Account], in another application: it is
    not the class [Account]. *)
Definition OtherAccount : Class :=
  {| cls_id := 5;
     cls_name := "Account";
     cls_mro := [5; Model_id; object_id];
     cls_fields := [field "id" true; field "owner" false; field "balance" false] |}.

(** A class that is no model: its instances have no [pk]. *)
Definition Note : Class :=
  {| cls_id := 6;
     cls_name := "Note";
     cls_mro := [6; object_id];
     cls_fields := [] |}.

Definition account (id : Value) : PyObj :=
  {| obj_type := Account;
     obj_attrs := {[ "id" := id; "owner" := VStr "ada"; "balance" := VInt 10 ]} |}.

Definition invoice (id : Value) : PyObj :=
  {| obj_type := Invoice; obj_attrs := {[ "id" := id; "total" := VInt 3 ]} |}.

Definition coupon (code : Value) : PyObj :=
  {| obj_type := Coupon; obj_attrs := {[ "code" := code; "discount" := VInt 5 ]} |}.

Definition other_account (id : Value) : PyObj :=
  {| obj_type := OtherAccount;
     obj_attrs := {[ "id" := id; "owner" := VStr "bob"; "balance" := VInt 0 ]} |}.

Definition note : PyObj :=
  {| obj_type := Note; obj_attrs := {[ "text" := VStr "memo" ]} |}.

(** The persisted state: the primary keys of the rows of the table. *)
Abbreviation Rows := (list Value).

(** Hooks that mark every instance of the batch before the write. *)
Definition mark_batch (objs : lref) (m : Mem Rows) : Mem Rows :=
  foldr (fun r m' => set_object r (setattr (objects m' r) "seen" (VBool true)) m')
        m (deref m objs).

Definition marking_engine (cls : Class) (ev : LifecycleEvent) (objs : lref)
    (originals : option lref) (ctx : cref) (m : Mem Rows) : Outcome Rows unit :=
  match ev with
  | BEFORE_CREATE | BEFORE_UPDATE | BEFORE_DELETE => Ok tt (mark_batch objs m)
  | _ => Ok tt m
  end.

(** Hooks of which the one for [BEFORE_CREATE] rejects the batch. *)
Definition rejecting_engine (cls : Class) (ev : LifecycleEvent) (objs : lref)
    (originals : option lref) (ctx : cref) (m : Mem Rows) : Outcome Rows unit :=
  match ev with
  | BEFORE_CREATE => Raise (PyExc "ValidationError" "rejected") m
  | _ => Ok tt m
  end.

(** Hooks that refuse every operation before it is made. *)
Definition vetoing_engine (cls : Class) (ev : LifecycleEvent) (objs : lref)
    (originals : option lref) (ctx : cref) (m : Mem Rows) : Outcome Rows unit :=
  match ev with
  | BEFORE_CREATE | BEFORE_UPDATE | BEFORE_DELETE =>
      Raise (PyExc "ValidationError" "refused") m
  | _ => Ok tt m
  end.

Definition is_pk_field (cls : Class) (n : string) : bool :=
  existsb (fun f => primary_key f && String.eqb (name f) n) (cls_fields cls).

(** The batch update of the base manager refuses an empty field list and
    primary-key fields, as Django's does; the table of primary keys is not
    affected by an update. *)
Definition table_bulk_update (cls : Class) (chunk : list oref)
    (fields : list string) (batch_size : option nat) (m : Mem Rows)
    : Outcome Rows unit :=
  if bool_decide (fields = []) then
    Raise (PyExc "ValueError" "Field names must be given to bulk_update().") m
  else if existsb (is_pk_field cls) fields then
    Raise (PyExc "ValueError" "bulk_update() cannot be used with primary key fields.") m
  else Ok tt m.

(** The storage keeps the primary keys of the rows of one table; the
    instances that a query returns are those, among the objects at the
    references 0 to 7, whose primary key is stored. *)
Definition table (engine : Class -> LifecycleEvent -> lref -> option lref -> cref ->
                           Mem Rows -> Outcome Rows unit) : Collaborators Rows :=
  {| engine_run := engine;
     filter_pk_in := fun cls pks m =>
       Ok (List.filter (fun r => bool_decide (pk_of m r ∈ pks) &&
                                 bool_decide (pk_of m r ∈ db m)) (seq 0 8)) m;
     all := fun cls m =>
       Ok (List.filter (fun r => bool_decide (pk_of m r ∈ db m)) (seq 0 8)) m;
     base_bulk_create := fun cls chunk batch_size ignore_conflicts m =>
       Ok chunk (set_db (db m ++ (pk_of m <$> chunk)) m);
     base_bulk_update := table_bulk_update;
     recursion_limit := 200 |}.

(** A heap with one list object, at reference 0. *)
Definition heap (objects : oref -> PyObj) (batch : list oref) (rows : Rows)
    : Mem Rows :=
  {| lists := {[ 0 := batch ]}; objects := objects; contexts := ∅; db := rows |}.

(** Accounts with primary keys 1, 2, 3, ... at references 0, 1, 2, ... *)
Definition saved_accounts (r : oref) : PyObj := account (VInt (Z.of_nat r + 1)).

(** Accounts that were never saved. *)
Definition new_accounts (r : oref) : PyObj := account VNone.

(** Accounts, except for an invoice at reference 2. *)
Definition mixed (r : oref) : PyObj :=
  if Nat.eqb r 2 then invoice (VInt 7) else saved_accounts r.

(** Accounts, except for an account of the other application at
    reference 2. *)
Definition namesakes (r : oref) : PyObj :=
  if Nat.eqb r 2 then other_account (VInt 7) else saved_accounts r.

(** Objects that are no instances of a model. *)
Definition notes (r : oref) : PyObj := note.

(** Accounts whose primary key is assigned and is 0. *)
Definition zero_accounts (r : oref) : PyObj := account (VInt 0).

(** Saved accounts, except for a new one at reference 1. *)
Definition partly_saved (r : oref) : PyObj :=
  if Nat.eqb r 1 then account VNone else saved_accounts r.

(** Coupons with the primary key ["SPRING"]. *)
Definition coupons (r : oref) : PyObj := coupon (VStr "SPRING").

(** A batch insert that fails once the table holds 200 rows. *)
Definition full_at_200 (cls : Class) (chunk : list oref)
    (batch_size : option nat) (ignore_conflicts : bool) (m : Mem Rows)
    : Outcome Rows (list oref) :=
  if bool_decide (200 <= length (db m)) then
    Raise (PyExc "IntegrityError" "table is full") m
  else Ok chunk (set_db (db m ++ (pk_of m <$> chunk)) m).

Definition small_table : Collaborators Rows :=
  {| engine_run := marking_engine;
     filter_pk_in := filter_pk_in (table marking_engine);
     all := all (table marking_engine);
     base_bulk_create := full_at_200;
     base_bulk_update := table_bulk_update;
     recursion_limit := 200 |}.

End Demo.

(** * Properties *)

(** ** Chunking *)

Section Chunking.

Context {A : Type}.
Implicit Types (xs : list A) (i j k n : nat).

Lemma slice_length_le xs i k : length (slice xs i (i + k)) <= k.
Proof. unfold slice. rewrite length_take. lia. Qed.

Lemma range0_length n k : length (range0 n k) = range_len n k.
Proof. unfold range0. by rewrite length_fmap, length_seq. Qed.

Lemma range_len_covers n k : 0 < k -> n <= range_len n k * k.
Proof.
  intros Hk. unfold range_len.
  pose proof (Nat.div_mod_eq (n + k - 1) k) as Hd.
  pose proof (Nat.mod_upper_bound (n + k - 1) k) as Hm. nia.
Qed.


Lemma chunks_from xs k j c :
  concat ((fun i => slice xs i (i + k)) <$> ((fun q => q * k) <$> seq j c))
  = take (c * k) (drop (j * k) xs).
Proof.
  revert j. induction c as [|c IH]; intros j; [done|].
  cbn [seq fmap list_fmap concat]. rewrite IH. unfold slice.
  replace (j * k + k - j * k) with k by lia.
  replace (S j * k) with (j * k + k) by lia.
  rewrite <- drop_drop, take_take_drop. f_equal.
Qed.

(** The chunks of the write loops are the batch, cut up in order. *)
Lemma chunks_concat xs k :
  0 < k ->
  concat ((fun i => slice xs i (i + k)) <$> range0 (length xs) k) = xs.
Proof.
  intros Hk. unfold range0. rewrite chunks_from. cbn. rewrite drop_0.
  apply take_ge, range_len_covers, Hk.
Qed.

End Chunking.

Section Properties.

Context {DB : Type} (C : Collaborators DB) (model : Class).

Implicit Types (m : Mem DB) (objs : lref) (items : list oref).
Implicit Types (log : list Event) (p : Event -> bool).

(** ** Running the monad *)

Lemma bind_run {A B} (x : M DB A) (f : A -> M DB B) m :
  (x ≫= f) m =
  match x m with
  | (l1, Ok a m1) => (l1 ++ (f a m1).1, (f a m1).2)
  | (l1, Raise e m1) => (l1, Raise e m1)
  end.
Proof.
  unfold mbind, M_bind, bind.
  destruct (x m) as [l1 [a m1|e m1]]; [destruct (f a m1)|]; reflexivity.
Qed.

Lemma enter_run {A} c (x : M DB A) m :
  (enter c;; x) m = (EEnter (c m) :: (x m).1, (x m).2).
Proof. rewrite bind_run. cbn. by destruct (x m). Qed.

Lemma bind_inv_ok {A B} (x : M DB A) (f : A -> M DB B) m log b m' :
  (x ≫= f) m = (log, Ok b m') ->
  exists l1 a m1 l2,
    x m = (l1, Ok a m1) /\ f a m1 = (l2, Ok b m') /\ log = l1 ++ l2.
Proof.
  rewrite bind_run. destruct (x m) as [l1 [a m1|e m1]]; [|discriminate].
  destruct (f a m1) as [l2 r] eqn:Hf. cbn. intros [= <- ->].
  exists l1, a, m1, l2. auto.
Qed.

Lemma atomic_inv_ok {A} (body : M DB A) m log a m' :
  atomic body m = (log, Ok a m') ->
  exists l, body m = (l, Ok a m') /\ log = ETxBegin :: l ++ [ETxCommit].
Proof.
  unfold atomic. destruct (body m) as [l [a1 m1|e m1]]; [|discriminate].
  intros [= <- <- <-]. eauto.
Qed.

Lemma call_inv_ok {A} ev (f : Mem DB -> Outcome DB A) m log a m' :
  call ev f m = (log, Ok a m') -> f m = Ok a m' /\ log = [ev].
Proof.
  unfold call. destruct (f m) as [a1 m1|e m1]; [|discriminate].
  intros [= <- <- <-]. auto.
Qed.

Lemma run_inv_ok ev objs originals ctx m log u m' :
  run C model ev objs originals ctx m = (log, Ok u m') ->
  engine_run C model ev objs originals ctx m = Ok u m' /\
  log = [EHook model ev objs (deref m objs) originals ctx].
Proof.
  unfold run. intros (l1 & a & m1 & l2 & Hg & Hc & ->)%bind_inv_ok.
  injection Hg as <- <- <-. apply call_inv_ok in Hc as [-> ->]. auto.
Qed.

Lemma check_types_pass meth objs m :
  existsb (fun r => negb (isinstance m r model)) (deref m objs) = false ->
  check_types model meth objs m = ([], Ok tt m).
Proof. intros H. unfold check_types. rewrite bind_run. cbn. rewrite H. reflexivity. Qed.

Lemma check_types_fail meth objs m :
  existsb (fun r => negb (isinstance m r model)) (deref m objs) = true ->
  check_types model meth objs m =
  ([ERaise (TypeError meth (cls_name model)
                      (list_to_set (type_name m <$> deref m objs)))],
   Raise (TypeError meth (cls_name model)
                    (list_to_set (type_name m <$> deref m objs))) m).
Proof. intros H. unfold check_types. rewrite bind_run. cbn. rewrite H. reflexivity. Qed.

Lemma check_types_inv_ok meth objs m log u m' :
  check_types model meth objs m = (log, Ok u m') ->
  existsb (fun r => negb (isinstance m r model)) (deref m objs) = false /\
  log = [] /\ m' = m.
Proof.
  destruct (existsb _ (deref m objs)) eqn:E.
  - rewrite check_types_fail by done. discriminate.
  - rewrite check_types_pass by done. intros [= <- <-]. auto.
Qed.

Lemma set_db_id m : set_db (db m) m = m.
Proof. destruct m; reflexivity. Qed.

(** ** Input that is rejected or empty *)

Lemma mismatch_existsb objs m r :
  r ∈ deref m objs -> isinstance m r model = false ->
  existsb (fun r => negb (isinstance m r model)) (deref m objs) = true.
Proof.
  intros Hin Hr. apply existsb_exists. exists r.
  rewrite Hr. split; [by apply list_elem_of_In | done].
Qed.

Lemma valid_existsb objs m :
  Forall (fun r => isinstance m r model = true) (deref m objs) ->
  existsb (fun r => negb (isinstance m r model)) (deref m objs) = false.
Proof.
  induction 1 as [|r rs Hr _ IH]; [done|]. cbn. by rewrite Hr, IH.
Qed.

Lemma mismatch_nonempty objs m r :
  r ∈ deref m objs -> bool_decide (deref m objs = []) = false.
Proof.
  intros Hin. apply bool_decide_eq_false. intros E. rewrite E in Hin.
  by apply not_elem_of_nil in Hin.
Qed.

Lemma bulk_create_mismatch objs bs ic bypass m r :
  r ∈ deref m objs -> isinstance m r model = false ->
  bulk_create C model objs bs ic bypass m =
  ([EEnter (CBulkCreate objs (deref m objs) bs ic bypass); ETxBegin;
    ERaise (TypeError "bulk_create" (cls_name model)
                      (list_to_set (type_name m <$> deref m objs)));
    ETxRollback],
   Raise (TypeError "bulk_create" (cls_name model)
                    (list_to_set (type_name m <$> deref m objs))) m).
Proof.
  intros Hin Hr. unfold bulk_create. rewrite bind_run. cbn.
  unfold atomic. rewrite bind_run.
  rewrite check_types_fail by eauto using mismatch_existsb.
  cbn. by rewrite set_db_id.
Qed.

Lemma bulk_update_mismatch objs fields bs bypass m r :
  r ∈ deref m objs -> isinstance m r model = false ->
  bulk_update C model objs fields bs bypass m =
  ([EEnter (CBulkUpdate objs (deref m objs) fields bs bypass); ETxBegin;
    ERaise (TypeError "bulk_update" (cls_name model)
                      (list_to_set (type_name m <$> deref m objs)));
    ETxRollback],
   Raise (TypeError "bulk_update" (cls_name model)
                    (list_to_set (type_name m <$> deref m objs))) m).
Proof.
  intros Hin Hr. unfold bulk_update. rewrite bind_run. cbn.
  unfold atomic. rewrite bind_run. cbn.
  rewrite (mismatch_nonempty _ _ _ Hin). rewrite bind_run.
  rewrite check_types_fail by eauto using mismatch_existsb.
  cbn. by rewrite set_db_id.
Qed.

Lemma bulk_delete_at_unfold depth objs bs bypass :
  bulk_delete_at C model depth objs bs bypass
  = (enter (fun m => CBulkDelete objs (deref m objs) bs bypass);;
     atomic (
       items ← gets (fun m => deref m objs);
       if bool_decide (items = []) then new_list []
       else
         check_types model "bulk_delete" objs;;
         ctx ← new_context model;
         (if negb bypass then run C model BEFORE_DELETE objs None ctx
          else ret tt);;
         pks ← gets (fun m => non_null_pks m objs);
         match depth with
         | 0 => raise RecursionError
         | S depth' =>
             queryset_delete C model (bulk_delete_at C model depth') pks;;
             ret tt
         end;;
         (if negb bypass then run C model AFTER_DELETE objs None ctx
          else ret tt);;
         ret objs)).
Proof. by destruct depth. Qed.

Lemma bulk_delete_at_mismatch depth objs bs bypass m r :
  r ∈ deref m objs -> isinstance m r model = false ->
  bulk_delete_at C model depth objs bs bypass m =
  ([EEnter (CBulkDelete objs (deref m objs) bs bypass); ETxBegin;
    ERaise (TypeError "bulk_delete" (cls_name model)
                      (list_to_set (type_name m <$> deref m objs)));
    ETxRollback],
   Raise (TypeError "bulk_delete" (cls_name model)
                    (list_to_set (type_name m <$> deref m objs))) m).
Proof.
  intros Hin Hr. rewrite bulk_delete_at_unfold. rewrite bind_run. cbn.
  unfold atomic. rewrite bind_run. cbn.
  rewrite (mismatch_nonempty _ _ _ Hin). rewrite bind_run.
  rewrite check_types_fail by eauto using mismatch_existsb.
  cbn. by rewrite set_db_id.
Qed.

Lemma bulk_delete_mismatch objs bs bypass m r :
  r ∈ deref m objs -> isinstance m r model = false ->
  bulk_delete C model objs bs bypass m =
  ([EEnter (CBulkDelete objs (deref m objs) bs bypass); ETxBegin;
    ERaise (TypeError "bulk_delete" (cls_name model)
                      (list_to_set (type_name m <$> deref m objs)));
    ETxRollback],
   Raise (TypeError "bulk_delete" (cls_name model)
                    (list_to_set (type_name m <$> deref m objs))) m).
Proof. apply bulk_delete_at_mismatch. Qed.

Lemma deref_set_list l xs m : deref (set_list l xs m) l = xs.
Proof. unfold deref, set_list. cbn. by rewrite lookup_total_insert_eq. Qed.

Lemma deref_alloc_list xs m :
  deref (alloc_list xs m).2 (alloc_list xs m).1 = xs.
Proof.
  unfold deref, alloc_list, set_list. cbn.
  by rewrite lookup_total_insert_eq.
Qed.

Lemma bulk_update_empty objs fields bs bypass m :
  deref m objs = [] ->
  bulk_update C model objs fields bs bypass m =
  ([EEnter (CBulkUpdate objs [] fields bs bypass); ETxBegin; ETxCommit],
   Ok (alloc_list [] m).1 (alloc_list [] m).2).
Proof.
  intros H. unfold bulk_update. rewrite bind_run. cbn.
  unfold atomic. rewrite bind_run. cbn. rewrite H. reflexivity.
Qed.

Lemma bulk_delete_empty objs bs bypass m :
  deref m objs = [] ->
  bulk_delete C model objs bs bypass m =
  ([EEnter (CBulkDelete objs [] bs bypass); ETxBegin; ETxCommit],
   Ok (alloc_list [] m).1 (alloc_list [] m).2).
Proof.
  intros H. unfold bulk_delete. rewrite bulk_delete_at_unfold.
  rewrite bind_run. cbn.
  unfold atomic. rewrite bind_run. cbn. rewrite H. reflexivity.
Qed.

(** C3, amended.  A batch that holds an object [r] that is not an instance of
    the model of the manager.  Each of the three bulk methods raises the
    [TypeError], within the transaction that its decorator has opened, and
    its log shows all that happened: the method was entered, the
    [transaction.atomic] of its decorator was entered, the exception was
    raised and the still empty transaction rolled back.  No hook was
    invoked and storage was not called; the memory, the persisted state
    included, is as it was. *)
Theorem type_mismatch_fails_before_any_work objs fields bs ic bypass m r :
  r ∈ deref m objs ->
  isinstance m r model = false ->
  let got := list_to_set (type_name m <$> deref m objs) in
  let rejected meth c :=
    ([EEnter c; ETxBegin; ERaise (TypeError meth (cls_name model) got);
      ETxRollback],
     Raise (TypeError meth (cls_name model) got) m) in
  bulk_create C model objs bs ic bypass m
  = rejected "bulk_create" (CBulkCreate objs (deref m objs) bs ic bypass) /\
  bulk_update C model objs fields bs bypass m
  = rejected "bulk_update" (CBulkUpdate objs (deref m objs) fields bs bypass) /\
  bulk_delete C model objs bs bypass m
  = rejected "bulk_delete" (CBulkDelete objs (deref m objs) bs bypass).
Proof.
  intros Hin Hr got rejected.
  split; [by eapply bulk_create_mismatch|].
  split; [by eapply bulk_update_mismatch | by eapply bulk_delete_mismatch].
Qed.

(** C9.  With [bypass_hooks=True] the type check is still made: on a batch
    that holds an object that is not an instance of the model, each of the
    three bulk methods raises the [TypeError], writes nothing to storage
    and leaves the persisted state as it was. *)
Theorem type_check_is_not_bypassed objs fields bs ic m r :
  r ∈ deref m objs ->
  isinstance m r model = false ->
  let got := list_to_set (type_name m <$> deref m objs) in
  let rejects meth (r : list Event * Outcome DB lref) :=
    r.2 = Raise (TypeError meth (cls_name model) got) m /\
    Forall (fun e => is_write e = false) r.1 /\
    db (mem_of r.2) = db m in
  rejects "bulk_create" (bulk_create C model objs bs ic true m) /\
  rejects "bulk_update" (bulk_update C model objs fields bs true m) /\
  rejects "bulk_delete" (bulk_delete C model objs bs true m).
Proof.
  intros Hin Hr got rejects. subst rejects. cbn beta.
  rewrite (bulk_create_mismatch _ _ _ _ _ _ Hin Hr),
    (bulk_update_mismatch _ _ _ _ _ _ Hin Hr),
    (bulk_delete_mismatch _ _ _ _ _ Hin Hr).
  cbn [fst snd mem_of]. repeat split; by repeat constructor.
Qed.

(** C5.  On the empty batch [bulk_update] and [bulk_delete] return a new,
    empty list.  Their log is the entry into the method and into its
    transaction, and the commit: no hook is invoked and storage is not
    called.  Nothing changes but the heap, which holds the new list. *)
Theorem empty_batch_short_circuits objs fields bs bypass m :
  deref m objs = [] ->
  let result := (alloc_list [] m).1 in
  let m' := (alloc_list [] m).2 in
  bulk_update C model objs fields bs bypass m
  = ([EEnter (CBulkUpdate objs [] fields bs bypass); ETxBegin; ETxCommit],
     Ok result m') /\
  bulk_delete C model objs bs bypass m
  = ([EEnter (CBulkDelete objs [] bs bypass); ETxBegin; ETxCommit],
     Ok result m') /\
  deref m' result = [] /\ db m' = db m /\ objects m' = objects m /\
  Forall (fun e => is_hook e = false /\ is_storage e = false)
         [EEnter (CBulkUpdate objs [] fields bs bypass); ETxBegin; ETxCommit].
Proof.
  intros Hnil result m'.
  split; [by apply bulk_update_empty|]. split; [by apply bulk_delete_empty|].
  split; [apply deref_alloc_list|]. by repeat constructor.
Qed.

(** ** Calls that return *)

Lemma gets_inv_ok {A} (g : Mem DB -> A) m log a m' :
  gets g m = (log, Ok a m') -> log = [] /\ a = g m /\ m' = m.
Proof. intros [= <- <- <-]. auto. Qed.

Lemma new_list_inv_ok xs m log l m' :
  new_list xs m = (log, Ok l m') ->
  log = [] /\ l = (alloc_list xs m).1 /\ m' = (alloc_list xs m).2.
Proof. intros [= <- <- <-]. auto. Qed.

Lemma new_context_inv_ok cls m log c m' :
  new_context cls m = (log, Ok c m') ->
  log = [ENewContext cls (alloc_ctx cls m).1] /\
  c = (alloc_ctx cls m).1 /\ m' = (alloc_ctx cls m).2.
Proof. intros [= <- <- <-]. auto. Qed.

Lemma ret_inv_ok {A} (a : A) m log b m' :
  ret a m = (log, Ok b m') -> log = [] /\ b = a /\ m' = m.
Proof. intros [= <- <- <-]. auto. Qed.

Lemma enter_inv_ok c m log u m' :
  enter c m = (log, Ok u m') -> log = [EEnter (c m)] /\ m' = m.
Proof. intros [= <- <-]. auto. Qed.

Lemma modify_inv_ok g m log u m' :
  modify g m = (log, Ok u m') -> log = [] /\ m' = g m.
Proof. intros [= <- <-]. auto. Qed.

Lemma bind_ok {A B} (x : M DB A) (f : A -> M DB B) m l1 a m1 l2 r :
  x m = (l1, Ok a m1) -> f a m1 = (l2, r) -> (x ≫= f) m = (l1 ++ l2, r).
Proof. intros Hx Hf. by rewrite bind_run, Hx, Hf. Qed.

Lemma atomic_ok {A} (body : M DB A) m l a m' :
  body m = (l, Ok a m') ->
  atomic body m = (ETxBegin :: l ++ [ETxCommit], Ok a m').
Proof. intros H. unfold atomic. by rewrite H. Qed.

Lemma call_ok {A} ev (f : Mem DB -> Outcome DB A) m a m' :
  f m = Ok a m' -> call ev f m = ([ev], Ok a m').
Proof. intros H. unfold call. by rewrite H. Qed.

Lemma run_ok ev objs originals ctx m u m' :
  engine_run C model ev objs originals ctx m = Ok u m' ->
  run C model ev objs originals ctx m
  = ([EHook model ev objs (deref m objs) originals ctx], Ok u m').
Proof.
  intros H. unfold run. rewrite bind_run. cbn. unfold call. by rewrite H.
Qed.

Lemma read_pk_ok obj m :
  has_pk (objects m obj) = true ->
  read_pk obj m = ([], Ok (pk_of m obj) m).
Proof. intros H. unfold read_pk. rewrite bind_run. cbn. by rewrite H. Qed.

Lemma read_pk_fail obj m :
  has_pk (objects m obj) = false ->
  read_pk obj m
  = ([ERaise (AttributeError (type_name m obj) "pk")],
     Raise (AttributeError (type_name m obj) "pk") m).
Proof. intros H. unfold read_pk. rewrite bind_run. cbn. by rewrite H. Qed.

Lemma read_pk_inv_ok obj m log v m' :
  read_pk obj m = (log, Ok v m') ->
  has_pk (objects m obj) = true /\ log = [] /\ v = pk_of m obj /\ m' = m.
Proof.
  destruct (has_pk (objects m obj)) eqn:E.
  - rewrite read_pk_ok by done. intros [= <- <- <-]. auto.
  - rewrite read_pk_fail by done. discriminate.
Qed.

(** Execution of a computation whose collaborators return, one step at a
    time; the log is collected in an existential variable. *)
Ltac fwd :=
  lazymatch goal with
  | |- (_ ≫= _) _ = _ => eapply bind_ok; [fwd | cbv beta; fwd]
  | |- atomic _ _ = _ => eapply atomic_ok; fwd
  | |- read_pk _ _ = _ => eapply read_pk_ok; eassumption
  | |- run _ _ _ _ _ _ _ = _ => eapply run_ok; eassumption
  | |- call _ _ _ = _ => eapply call_ok; eassumption
  | |- check_types _ _ _ _ = _ => eapply check_types_pass; eassumption
  | |- _ => first [eassumption | reflexivity | idtac]
  end.

Lemma bind_raise {A B} (x : M DB A) (f : A -> M DB B) m l e m1 :
  x m = (l, Raise e m1) -> (x ≫= f) m = (l, Raise e m1).
Proof. intros Hx. by rewrite bind_run, Hx. Qed.

Lemma atomic_raise {A} (body : M DB A) m l e m1 :
  body m = (l, Raise e m1) ->
  atomic body m = (ETxBegin :: l ++ [ETxRollback], Raise e (set_db (db m) m1)).
Proof. intros H. unfold atomic. by rewrite H. Qed.

Lemma call_raise {A} ev (f : Mem DB -> Outcome DB A) m e m1 :
  f m = Raise e m1 -> call ev f m = ([ev; ERaise e], Raise e m1).
Proof. intros H. unfold call. by rewrite H. Qed.

Lemma run_raise ev objs originals ctx m e m1 :
  engine_run C model ev objs originals ctx m = Raise e m1 ->
  run C model ev objs originals ctx m
  = ([EHook model ev objs (deref m objs) originals ctx; ERaise e],
     Raise e m1).
Proof.
  intros H. unfold run. rewrite bind_run. cbn. unfold call. by rewrite H.
Qed.

(** Execution of a computation up to the exception that ends it. *)
Ltac fwdx :=
  lazymatch goal with
  | |- (_ ≫= _) _ = _ =>
      first [ eapply bind_ok; [solve [fwd] | cbv beta; fwdx]
            | eapply bind_raise; fwdx ]
  | |- atomic _ _ = _ => eapply atomic_raise; fwdx
  | |- run _ _ _ _ _ _ _ = _ => eapply run_raise; eassumption
  | |- call _ _ _ = _ => eapply call_raise; eassumption
  | |- _ => first [eassumption | idtac]
  end.

(** Inversion of a computation that returned, one step at a time. *)
Ltac inv_ok :=
  repeat match goal with
  | H : (_ ≫= _) _ = (_, Ok _ _) |- _ =>
      apply bind_inv_ok in H as (? & ? & ? & ? & ? & H & ->); cbv beta in H
  | H : atomic _ _ = (_, Ok _ _) |- _ =>
      apply atomic_inv_ok in H as (? & H & ->)
  | H : call _ _ _ = (_, Ok _ _) |- _ =>
      apply call_inv_ok in H as [H ->]
  | H : run _ _ _ _ _ _ _ = (_, Ok _ _) |- _ =>
      apply run_inv_ok in H as [H ->]
  | H : check_types _ _ _ _ = (_, Ok _ _) |- _ =>
      apply check_types_inv_ok in H as (H & -> & ->)
  | H : read_pk _ _ = (_, Ok _ _) |- _ =>
      apply read_pk_inv_ok in H as (H & -> & -> & ->)
  | H : gets _ _ = (_, Ok _ _) |- _ =>
      apply gets_inv_ok in H as (-> & -> & ->)
  | H : new_list _ _ = (_, Ok _ _) |- _ =>
      apply new_list_inv_ok in H as (-> & -> & ->)
  | H : new_context _ _ = (_, Ok _ _) |- _ =>
      apply new_context_inv_ok in H as (-> & -> & ->)
  | H : ret _ _ = (_, Ok _ _) |- _ =>
      apply ret_inv_ok in H as (-> & ? & ->); simplify_eq
  | H : enter _ _ = (_, Ok _ _) |- _ =>
      apply enter_inv_ok in H as (-> & ->)
  | H : modify _ _ = (_, Ok _ _) |- _ =>
      apply modify_inv_ok in H as (-> & ->)
  end.

Lemma deref_lookup m l xs : lists m !! l = Some xs -> deref m l = xs.
Proof. intros H. unfold deref. by apply lookup_total_correct. Qed.

Lemma alloc_list_keeps xs m l ys :
  lists m !! l = Some ys -> lists (alloc_list xs m).2 !! l = Some ys.
Proof.
  intros H. unfold alloc_list, set_list. cbn.
  rewrite lookup_insert_ne; [done|].
  intros <-. apply (is_fresh (dom (lists m))). by eapply elem_of_dom_2.
Qed.

Lemma keeps_ok {A} (f : Mem DB -> Outcome DB A) m a m1 l xs :
  keeps_lists f -> f m = Ok a m1 -> lists m !! l = Some xs ->
  lists m1 !! l = Some xs.
Proof. intros Hk Hf Hl. specialize (Hk _ _ _ Hl). by rewrite Hf in Hk. Qed.

Lemma update_loop_inv_ok objs fields bs (starts : list nat) m log u m' :
  for_each starts (fun i =>
    chunk ← gets (fun m => slice (deref m objs) i (i + CHUNK_SIZE));
    call (EUpdate model chunk fields bs)
         (base_bulk_update C model chunk fields bs)) m = (log, Ok u m') ->
  exists chunks,
    log = (fun ch => EUpdate model ch fields bs) <$> chunks /\
    length chunks = length starts /\
    Forall (fun ch => length ch <= CHUNK_SIZE) chunks /\
    (forall items,
       (forall ch, keeps_lists (base_bulk_update C model ch fields bs)) ->
       lists m !! objs = Some items ->
       chunks = (fun i => slice items i (i + CHUNK_SIZE)) <$> starts /\
       lists m' !! objs = Some items).
Proof.
  revert m log. induction starts as [|i starts IH]; intros m log Hrun.
  - cbn in Hrun. inv_ok. exists []. repeat split; auto.
  - cbn [for_each] in Hrun. inv_ok.
    destruct (IH _ _ Hrun) as (chunks & -> & Hlen & Hall & Hstable).
    exists (slice (deref m objs) i (i + CHUNK_SIZE) :: chunks).
    split; [done|]. split; [by cbn; rewrite Hlen|].
    split; [constructor; [apply slice_length_le | done]|].
    intros items Hkeep Hobjs.
    lazymatch goal with
    | Hcall : base_bulk_update _ _ _ _ _ _ = Ok _ _ |- _ =>
        pose proof (keeps_ok _ _ _ _ _ _ (Hkeep _) Hcall Hobjs) as Hobjs1
    end.
    destruct (Hstable items Hkeep Hobjs1) as [-> ?].
    by rewrite (deref_lookup _ _ _ Hobjs).
Qed.

Lemma update_chunks_inv_ok objs fields bs m log u m' :
  update_chunks C model objs fields bs m = (log, Ok u m') ->
  exists chunks,
    log = (fun ch => EUpdate model ch fields bs) <$> chunks /\
    length chunks = range_len (length (deref m objs)) CHUNK_SIZE /\
    Forall (fun ch => length ch <= CHUNK_SIZE) chunks /\
    (forall items,
       (forall ch, keeps_lists (base_bulk_update C model ch fields bs)) ->
       lists m !! objs = Some items ->
       chunks = (fun i => slice items i (i + CHUNK_SIZE))
                  <$> range0 (length items) CHUNK_SIZE /\
       lists m' !! objs = Some items).
Proof.
  unfold update_chunks. intros Hrun. inv_ok.
  apply update_loop_inv_ok in Hrun as (chunks & -> & Hlen & Hall & Hstable).
  exists chunks. rewrite range0_length in Hlen.
  split; [done|]. split; [done|]. split; [done|].
  intros items Hkeep Hobjs. rewrite (deref_lookup _ _ _ Hobjs) in Hstable.
  by apply Hstable.
Qed.

(** ** What a computation never does *)

Lemma silent_ret {A} p (a : A) : silent p (ret (DB:=DB) a).
Proof. intros m. constructor. Qed.

Lemma silent_gets {A} p (g : Mem DB -> A) : silent p (gets g).
Proof. intros m. constructor. Qed.

Lemma silent_modify p g : silent p (modify (DB:=DB) g).
Proof. intros m. constructor. Qed.

Lemma silent_new_list p xs : silent p (new_list (DB:=DB) xs).
Proof. intros m. constructor. Qed.

Lemma silent_bind {A B} p (x : M DB A) (f : A -> M DB B) :
  silent p x -> (forall a, silent p (f a)) -> silent p (x ≫= f).
Proof.
  intros Hx Hf m. rewrite bind_run. specialize (Hx m).
  destruct (x m) as [l1 [a m1|e m1]]; cbn in *; [|done].
  apply Forall_app. split; [done | apply Hf].
Qed.

Lemma silent_raise {A} p e : p (ERaise e) = false -> silent p (@raise DB A e).
Proof. intros H m. cbn. by constructor. Qed.

Lemma silent_call {A} p ev (f : Mem DB -> Outcome DB A) :
  p ev = false -> (forall e, p (ERaise e) = false) -> silent p (call ev f).
Proof.
  intros Hev Hr m. unfold call. destruct (f m); cbn; repeat constructor; auto.
Qed.

Lemma silent_atomic {A} p (body : M DB A) :
  p ETxBegin = false -> p ETxCommit = false -> p ETxRollback = false ->
  silent p body -> silent p (atomic body).
Proof.
  intros Hb Hc Hr Hbody m. unfold atomic. specialize (Hbody m).
  destruct (body m) as [l [a m1|e m1]]; cbn in *;
    (constructor; [done|]); apply Forall_app; split; auto.
Qed.

Lemma silent_new_context p cls :
  (forall c, p (ENewContext cls c) = false) ->
  silent p (new_context (DB:=DB) cls).
Proof. intros H m. cbn. by constructor. Qed.

Lemma silent_for_each {A} p (xs : list A) (body : A -> M DB unit) :
  (forall a, silent p (body a)) -> silent p (for_each xs body).
Proof.
  intros Hbody. induction xs as [|a xs IH]; cbn [for_each].
  - apply silent_ret.
  - apply silent_bind; auto.
Qed.

Lemma silent_enter p c :
  (forall k, p (EEnter k) = false) -> silent p (enter (DB:=DB) c).
Proof. intros H m. cbn. by constructor. Qed.

(** Structural proof of [silent p x] for a concrete predicate [p]. *)
Ltac silence :=
  unfold run, check_types, update_chunks, create_chunks, setattr_all;
  solve [ repeat first
    [ apply silent_ret | apply silent_gets | apply silent_modify
    | apply silent_new_list
    | apply silent_enter; done
    | apply silent_bind; [|intros ?]
    | apply silent_for_each; intros ?
    | apply silent_atomic; [done | done | done |]
    | apply silent_call; [done | done]
    | apply silent_raise; done
    | apply silent_new_context; done
    | lazymatch goal with
      | |- silent _ (if ?b then _ else _) => destruct b
      | |- silent _ (match ?x with _ => _ end) => destruct x
      end ] ].

(** ** What a computation does at most once *)

Lemma filter_silent p log :
  Forall (fun e => p e = false) log -> List.filter p log = [].
Proof. induction 1 as [|e log He _ IH]; [done|]. cbn. by rewrite He. Qed.

Lemma silent_at_most {A} p n (x : M DB A) : silent p x -> at_most p n x.
Proof. intros H m. rewrite filter_silent by apply H. cbn. lia. Qed.

Lemma at_most_bind_l {A B} p n (x : M DB A) (f : A -> M DB B) :
  at_most p n x -> (forall a, silent p (f a)) -> at_most p n (x ≫= f).
Proof.
  intros Hx Hf m. rewrite bind_run. specialize (Hx m).
  destruct (x m) as [l1 [a m1|e m1]]; cbn in *; [|done].
  rewrite List.filter_app, length_app, (filter_silent p (f a m1).1) by apply Hf.
  cbn. lia.
Qed.

Lemma at_most_bind_r {A B} p n (x : M DB A) (f : A -> M DB B) :
  silent p x -> (forall a, at_most p n (f a)) -> at_most p n (x ≫= f).
Proof.
  intros Hx Hf m. rewrite bind_run. specialize (Hx m).
  destruct (x m) as [l1 [a m1|e m1]]; cbn in *.
  - rewrite List.filter_app, length_app, (filter_silent p l1) by done.
    apply Hf.
  - rewrite filter_silent by done. cbn. lia.
Qed.

Lemma at_most_atomic {A} p n (body : M DB A) :
  p ETxBegin = false -> p ETxCommit = false -> p ETxRollback = false ->
  at_most p n body -> at_most p n (atomic body).
Proof.
  intros Hb Hc Hr Hbody m. unfold atomic. specialize (Hbody m).
  destruct (body m) as [l [a m1|e m1]]; cbn in *; rewrite Hb;
    rewrite List.filter_app, length_app; cbn; rewrite ?Hc, ?Hr; cbn; lia.
Qed.

Lemma at_most_call {A} p ev (f : Mem DB -> Outcome DB A) :
  (forall e, p (ERaise e) = false) -> at_most p 1 (call ev f).
Proof.
  intros Hr m. unfold call.
  destruct (f m); cbn; rewrite ?Hr; destruct (p ev); cbn; lia.
Qed.





(** A [bulk_update] over a non-empty batch that returned: what it did. *)
Lemma bulk_update_returned objs items fields bs m log v m' :
  lists m !! objs = Some items ->
  items <> [] ->
  bulk_update C model objs fields bs false m = (log, Ok v m') ->
  exists found m1 originals ctx before after chunks,
    log = [EEnter (CBulkUpdate objs items fields bs false); ETxBegin;
           EFetchPks model (pk_of m <$> items);
           ENewContext model ctx;
           EHook model BEFORE_UPDATE objs before (Some originals) ctx]
          ++ ((fun ch => EUpdate model ch fields bs) <$> chunks)
          ++ [EHook model AFTER_UPDATE objs after (Some originals) ctx;
              ETxCommit] /\
    Forall (fun ch => length ch <= CHUNK_SIZE) chunks /\
    filter_pk_in C model (pk_of m <$> items) m = Ok found m1 /\
    originals = (alloc_list found m1).1 /\
    v = objs /\
    (lists_stable C ->
       before = items /\ after = items /\
       chunks = (fun i => slice items i (i + CHUNK_SIZE))
                  <$> range0 (length items) CHUNK_SIZE /\
       concat chunks = items).
Proof.
  intros Hobjs Hlen Hrun. unfold bulk_update in Hrun. inv_ok.
  rewrite (deref_lookup _ _ _ Hobjs) in *.
  rewrite bool_decide_eq_false_2 in Hrun by done.
  cbn [negb] in Hrun. inv_ok.
  rewrite (deref_lookup _ _ _ Hobjs) in *.
  lazymatch goal with
  | H : update_chunks _ _ _ _ _ _ = _ |- _ =>
      apply update_chunks_inv_ok in H as (chunks & -> & Hn & Hall & Hstable)
  end.
  lazymatch goal with
  | Hf : filter_pk_in _ _ _ _ = Ok ?found ?m1,
    Hb : engine_run _ _ BEFORE_UPDATE _ _ _ ?mb = Ok _ ?m2,
    Ha : engine_run _ _ AFTER_UPDATE _ _ _ ?m3 = Ok _ _ |- _ =>
      exists found, m1, (alloc_list found m1).1,
             (alloc_ctx model (alloc_list found m1).2).1,
             (deref mb objs), (deref m3 objs), chunks;
      split; [cbn [app]; by rewrite <- !app_assoc|];
      split; [done|]; split; [done|]; split; [done|]; split; [done|];
      intros [Hengine Hfilter _ _ Hupdate];
      assert (lists m1 !! objs = Some items) as Hm1 by eauto using keeps_ok;
      assert (lists mb !! objs = Some items) as Hmb
        by exact (alloc_list_keeps found _ _ _ Hm1);
      assert (lists m2 !! objs = Some items) as Hm2 by eauto using keeps_ok;
      destruct (Hstable items (fun ch => Hupdate _ ch _ _) Hm2) as [-> Hm3]
  end.
  rewrite (deref_lookup _ _ _ Hmb), (deref_lookup _ _ _ Hm3).
  split; [done|]. split; [done|]. split; [done|].
  apply chunks_concat. unfold CHUNK_SIZE. lia.
Qed.



Lemma update_loop_returns objs fields bs (starts : list nat) m :
  (forall ch, returns (base_bulk_update C model ch fields bs)) ->
  exists log m',
    for_each starts (fun i =>
      chunk ← gets (fun m => slice (deref m objs) i (i + CHUNK_SIZE));
      call (EUpdate model chunk fields bs)
           (base_bulk_update C model chunk fields bs)) m = (log, Ok tt m').
Proof.
  intros Hret. revert m. induction starts as [|i starts IH]; intros m.
  - by exists [], m.
  - destruct (Hret (slice (deref m objs) i (i + CHUNK_SIZE)) m)
      as ([] & m1 & Hcall).
    destruct (IH m1) as (log & m' & Hrest).
    eexists _, m'. cbn [for_each]. fwd.
Qed.

Lemma update_chunks_returns objs fields bs m :
  (forall ch, returns (base_bulk_update C model ch fields bs)) ->
  exists log m', update_chunks C model objs fields bs m = (log, Ok tt m').
Proof.
  intros Hret. unfold update_chunks.
  destruct (update_loop_returns objs fields bs
              (range0 (length (deref m objs)) CHUNK_SIZE) m Hret)
    as (log & m' & Hloop).
  eexists _, m'. fwd.
Qed.

(** A [bulk_update] of a batch that passes the type check returns when the
    collaborators do. *)
Lemma bulk_update_returns objs fields bs m :
  deref m objs <> [] ->
  Forall (fun r => isinstance m r model = true) (deref m objs) ->
  returns (filter_pk_in C model (pk_of m <$> deref m objs)) ->
  (forall ev originals ctx,
     returns (engine_run C model ev objs originals ctx)) ->
  (forall ch, returns (base_bulk_update C model ch fields bs)) ->
  exists log m',
    bulk_update C model objs fields bs false m = (log, Ok objs m').
Proof.
  intros Hne Hvalid%valid_existsb Hfetch Hengine Hupdate.
  destruct (Hfetch m) as (found & m1 & Hf).
  destruct (Hengine BEFORE_UPDATE (Some (alloc_list found m1).1)
              (alloc_ctx model (alloc_list found m1).2).1
              (alloc_ctx model (alloc_list found m1).2).2)
    as ([] & m2 & Hb).
  destruct (update_chunks_returns objs fields bs m2 Hupdate)
    as (ulog & m3 & Hu).
  destruct (Hengine AFTER_UPDATE (Some (alloc_list found m1).1)
              (alloc_ctx model (alloc_list found m1).2).1 m3)
    as ([] & m4 & Ha).
  eexists _, m4. unfold bulk_update. fwd.
  rewrite bool_decide_eq_false_2 by done. cbn [negb]. fwd.
Qed.

Lemma create_loop_returns objs result bs ic (starts : list nat) m :
  (forall ch, returns (base_bulk_create C model ch bs ic)) ->
  exists log m',
    for_each starts (fun i =>
      chunk ← gets (fun m => slice (deref m objs) i (i + CHUNK_SIZE));
      created ← call (EInsert model chunk bs ic)
                     (base_bulk_create C model chunk bs ic);
      modify (fun m => set_list result (deref m result ++ created) m)) m
    = (log, Ok tt m').
Proof.
  intros Hret. revert m. induction starts as [|i starts IH]; intros m.
  - by exists [], m.
  - destruct (Hret (slice (deref m objs) i (i + CHUNK_SIZE)) m)
      as (created & m1 & Hcall).
    destruct (IH (set_list result (deref m1 result ++ created) m1))
      as (log & m' & Hrest).
    eexists _, m'. cbn [for_each]. fwd.
Qed.

Lemma create_chunks_returns objs result bs ic m :
  (forall ch, returns (base_bulk_create C model ch bs ic)) ->
  exists log m', create_chunks C model objs result bs ic m = (log, Ok tt m').
Proof.
  intros Hret. unfold create_chunks.
  destruct (create_loop_returns objs result bs ic
              (range0 (length (deref m objs)) CHUNK_SIZE) m Hret)
    as (log & m' & Hloop).
  eexists _, m'. fwd.
Qed.

(** A [bulk_create] of a batch that passes the type check returns when the
    collaborators do. *)
Lemma bulk_create_returns objs bs ic m :
  Forall (fun r => isinstance m r model = true) (deref m objs) ->
  (forall ev o originals ctx,
     returns (engine_run C model ev o originals ctx)) ->
  (forall ch, returns (base_bulk_create C model ch bs ic)) ->
  exists log result m',
    bulk_create C model objs bs ic false m = (log, Ok result m').
Proof.
  intros Hvalid%valid_existsb Hengine Hcreate.
  destruct (Hengine BEFORE_CREATE objs None
              (alloc_ctx model (alloc_list [] m).2).1
              (alloc_ctx model (alloc_list [] m).2).2)
    as ([] & m2 & Hb).
  destruct (create_chunks_returns objs (alloc_list [] m).1 bs ic m2 Hcreate)
    as (clog & m3 & Hc).
  destruct (Hengine AFTER_CREATE (alloc_list [] m).1 None
              (alloc_ctx model (alloc_list [] m).2).1 m3)
    as ([] & m4 & Ha).
  eexists _, _, m4. unfold bulk_create. cbn [negb]. fwd.
Qed.

(** [save] of an instance of the model returns it, when the collaborators
    return. *)
Lemma save_returns obj m :
  isinstance m obj model = true ->
  has_pk (objects m obj) = true ->
  (forall pks, returns (filter_pk_in C model pks)) ->
  (forall ev objs originals ctx,
     returns (engine_run C model ev objs originals ctx)) ->
  (forall ch, returns (base_bulk_update C model ch
                         (fields_but_id (objects m obj)) None)) ->
  (forall ch, returns (base_bulk_create C model ch None false)) ->
  exists log m', save C model obj m = (log, Ok obj m').
Proof.
  intros Hobj Hhas Hfetch Hengine Hupdate Hcreate.
  set (batch := (alloc_list [obj] m).1).
  set (m0 := (alloc_list [obj] m).2).
  assert (deref m0 batch = [obj]) as Hbatch by apply deref_alloc_list.
  assert (Forall (fun r => isinstance m0 r model = true) (deref m0 batch))
    as Hvalid by (rewrite Hbatch; by repeat constructor).
  unfold save. destruct (truthy (pk_of m obj)) eqn:Hpk.
  - destruct (bulk_update_returns batch (fields_but_id (objects m obj)) None m0)
      as (log & m' & Hrun); [by rewrite Hbatch | done | apply Hfetch | auto..].
    eexists _, m'. fwd. rewrite Hpk. fwd.
  - destruct (bulk_create_returns batch None false m0 Hvalid)
      as (log & result & m' & Hrun); [auto..|].
    eexists _, m'. fwd. rewrite Hpk. fwd.
Qed.


Lemma range0_nil k : range0 0 (S k) = [].
Proof.
  unfold range0, range_len. rewrite Nat.div_small by lia. reflexivity.
Qed.

Lemma create_chunks_empty objs result bs ic m :
  deref m objs = [] ->
  create_chunks C model objs result bs ic m = ([], Ok tt m).
Proof.
  intros Hnil. unfold create_chunks, CHUNK_SIZE. rewrite bind_run.
  unfold gets at 1. rewrite Hnil. cbn [length]. by rewrite range0_nil.
Qed.

(** How the log of a computation begins, however it ends. *)
Lemma bind_begins {A B} (x : M DB A) (f : A -> M DB B) m l1 a m1 pre full :
  x m = (l1, Ok a m1) ->
  full = l1 ++ pre ->
  (exists rest, (f a m1).1 = pre ++ rest) ->
  exists rest, ((x ≫= f) m).1 = full ++ rest.
Proof.
  intros Hx -> [rest Hf]. exists rest.
  by rewrite bind_run, Hx, Hf, <- app_assoc.
Qed.

Lemma bind_begins_l {A B} (x : M DB A) (f : A -> M DB B) m pre :
  (exists rest, (x m).1 = pre ++ rest) ->
  exists rest, ((x ≫= f) m).1 = pre ++ rest.
Proof.
  intros [rest Hx]. rewrite bind_run.
  destruct (x m) as [l1 [a m1|e m1]]; cbn in *; subst l1.
  - exists (rest ++ (f a m1).1). by rewrite <- app_assoc.
  - by exists rest.
Qed.

Lemma atomic_begins {A} (body : M DB A) m pre :
  (exists rest, (body m).1 = pre ++ rest) ->
  exists rest, (atomic body m).1 = ETxBegin :: pre ++ rest.
Proof.
  intros [rest Hbody]. unfold atomic.
  destruct (body m) as [l [a m1|e m1]]; cbn in *; subst l;
    eexists; by rewrite <- app_assoc.
Qed.

Lemma run_begins ev objs originals ctx m :
  exists rest,
    (run C model ev objs originals ctx m).1
    = [EHook model ev objs (deref m objs) originals ctx] ++ rest.
Proof.
  unfold run. rewrite bind_run. cbn. unfold call.
  destruct (engine_run _ _ _ _ _ _ _); cbn; eauto.
Qed.

(** The first steps of a [bulk_create] of an empty list, hooks not bypassed,
    however it ends. *)
Lemma bulk_create_empty_begins objs bs ic m :
  lists m !! objs = Some [] ->
  exists rest,
    (bulk_create C model objs bs ic false m).1
    = [EEnter (CBulkCreate objs [] bs ic false); ETxBegin;
       ENewContext model (alloc_ctx model (alloc_list [] m).2).1;
       EHook model BEFORE_CREATE objs [] None
             (alloc_ctx model (alloc_list [] m).2).1]
      ++ rest.
Proof.
  intros Hobjs.
  pose proof (deref_lookup _ _ _ Hobjs) as Hnil.
  pose proof (deref_lookup _ _ _ (alloc_list_keeps [] _ _ _ Hobjs)) as Hnil'.
  assert (existsb (fun r => negb (isinstance m r model)) (deref m objs)
          = false) as Hvalid by by rewrite Hnil.
  unfold bulk_create. rewrite enter_run, Hnil. cbn [fst negb].
  edestruct (atomic_begins (A:=lref)) as [rest ->]; [|by eexists].
  eapply bind_begins; [by apply check_types_pass | reflexivity |].
  eapply bind_begins; [reflexivity | reflexivity |].
  apply bind_begins_l.
  eapply bind_begins; [reflexivity | reflexivity |].
  apply bind_begins_l.
  destruct (run_begins BEFORE_CREATE objs None
              (alloc_ctx model (alloc_list [] m).2).1
              (alloc_ctx model (alloc_list [] m).2).2) as [rest Hrun].
  exists rest. etransitivity; [exact Hrun|].
  change (deref (alloc_ctx model (alloc_list [] m).2).2 objs)
    with (deref (alloc_list [] m).2 objs).
  by rewrite Hnil'.
Qed.

(** C8.  [bulk_create] has no short cut for the empty batch: hooks not
    bypassed, a [bulk_create] of an empty list begins by building a context
    and invoking [BEFORE_CREATE] on the empty batch, however it ends.  With
    hooks that do not mutate lists and that return, it calls no batch
    insert, invokes [AFTER_CREATE] on the empty list of results with the
    same context, and returns that empty list. *)
Theorem bulk_create_of_empty_batch_runs_hooks objs bs ic m m1 m' :
  lists m !! objs = Some [] ->
  let result := (alloc_list [] m).1 in
  let ctx := (alloc_ctx model (alloc_list [] m).2).1 in
  (exists rest,
     (bulk_create C model objs bs ic false m).1
     = [EEnter (CBulkCreate objs [] bs ic false); ETxBegin;
        ENewContext model ctx; EHook model BEFORE_CREATE objs [] None ctx]
       ++ rest) /\
  ((forall ev o originals c,
      keeps_lists (engine_run C model ev o originals c)) ->
   engine_run C model BEFORE_CREATE objs None ctx
              (alloc_ctx model (alloc_list [] m).2).2 = Ok tt m1 ->
   engine_run C model AFTER_CREATE result None ctx m1 = Ok tt m' ->
   bulk_create C model objs bs ic false m
   = ([EEnter (CBulkCreate objs [] bs ic false); ETxBegin;
       ENewContext model ctx;
       EHook model BEFORE_CREATE objs [] None ctx;
       EHook model AFTER_CREATE result [] None ctx;
       ETxCommit],
      Ok result m') /\
   deref m' result = []).
Proof.
  intros Hobjs result ctx. split; [by apply bulk_create_empty_begins|].
  intros Hkeep Hbefore Hafter. subst result ctx.
  set (m0 := (alloc_list [] m).2) in *.
  set (mb := (alloc_ctx model m0).2) in *.
  assert (lists mb !! objs = Some []) as Hmb
    by exact (alloc_list_keeps [] _ _ _ Hobjs).
  assert (lists mb !! (alloc_list [] m).1 = Some []) as Hres.
  { subst mb m0. unfold alloc_list, set_list. cbn. apply lookup_insert_eq. }
  pose proof (keeps_ok _ _ _ _ _ _ (Hkeep _ _ _ _) Hbefore Hmb) as Hm1.
  pose proof (keeps_ok _ _ _ _ _ _ (Hkeep _ _ _ _) Hbefore Hres) as Hres1.
  pose proof (keeps_ok _ _ _ _ _ _ (Hkeep _ _ _ _) Hafter Hres1) as Hres'.
  split; [|by apply deref_lookup].
  assert (existsb (fun r => negb (isinstance m r model)) (deref m objs)
          = false) as Hvalid by by rewrite (deref_lookup _ _ _ Hobjs).
  pose proof (create_chunks_empty objs (alloc_list [] m).1 bs ic m1
                (deref_lookup _ _ _ Hm1)) as Hloop.
  assert (bulk_create C model objs bs ic false m
          = ([EEnter (CBulkCreate objs (deref m objs) bs ic false); ETxBegin;
              ENewContext model (alloc_ctx model m0).1;
              EHook model BEFORE_CREATE objs (deref mb objs) None
                    (alloc_ctx model m0).1;
              EHook model AFTER_CREATE (alloc_list [] m).1
                    (deref m1 (alloc_list [] m).1) None (alloc_ctx model m0).1;
              ETxCommit],
             Ok (alloc_list [] m).1 m')) as ->.
  { unfold bulk_create. etransitivity; [cbn [negb]; fwd | reflexivity]. }
  by rewrite (deref_lookup _ _ _ Hobjs), (deref_lookup _ _ _ Hmb),
    (deref_lookup _ _ _ Hres1).
Qed.

Lemma calls_of_app l1 l2 : calls_of (l1 ++ l2) = calls_of l1 ++ calls_of l2.
Proof.
  induction l1 as [|e l1 IH]; [done|]. destruct e; cbn; by rewrite ?IH.
Qed.

Lemma calls_of_silent log :
  Forall (fun e => is_enter e = false) log -> calls_of log = [].
Proof.
  induction 1 as [|e log He _ IH]; [done|]. destruct e; try done.
Qed.

(** The manager calls made by a bulk method: the call itself. *)
Lemma bulk_update_calls objs fields bs bypass m :
  calls_of (bulk_update C model objs fields bs bypass m).1
  = [CBulkUpdate objs (deref m objs) fields bs bypass].
Proof.
  unfold bulk_update. rewrite enter_run. cbn. f_equal.
  apply calls_of_silent.
  lazymatch goal with |- Forall _ (?x m).1 => enough (silent is_enter x) by done end.
  silence.
Qed.

Lemma bulk_create_calls objs bs ic bypass m :
  calls_of (bulk_create C model objs bs ic bypass m).1
  = [CBulkCreate objs (deref m objs) bs ic bypass].
Proof.
  unfold bulk_create. rewrite enter_run. cbn. f_equal.
  apply calls_of_silent.
  lazymatch goal with |- Forall _ (?x m).1 => enough (silent is_enter x) by done end.
  silence.
Qed.

Lemma calls_of_bind {A B} (x : M DB A) (f : A -> M DB B) m :
  calls_of ((x ≫= f) m).1
  = calls_of (x m).1 ++
    match (x m).2 with
    | Ok a m1 => calls_of (f a m1).1
    | Raise _ _ => []
    end.
Proof.
  rewrite bind_run. destruct (x m) as [l1 [a m1|e m1]]; cbn.
  - apply calls_of_app.
  - by rewrite app_nil_r.
Qed.

Lemma calls_of_atomic {A} (body : M DB A) m :
  calls_of (atomic body m).1 = calls_of (body m).1.
Proof.
  unfold atomic. destruct (body m) as [l [a m1|e m1]]; cbn;
    rewrite calls_of_app; cbn; by rewrite app_nil_r.
Qed.

(** The manager calls made by [save]: itself and, when [obj] has a [pk],
    the one it routes to. *)
Lemma save_calls obj m :
  calls_of (save C model obj m).1
  = CSave obj ::
    (if has_pk (objects m obj) then
       if truthy (pk_of m obj)
       then [CBulkUpdate (alloc_list [obj] m).1 [obj]
                         (fields_but_id (objects m obj)) None false]
       else [CBulkCreate (alloc_list [obj] m).1 [obj] None false false]
     else []).
Proof.
  unfold save. rewrite enter_run. cbn [fst calls_of]. f_equal.
  rewrite calls_of_atomic, calls_of_bind.
  destruct (has_pk (objects m obj)) eqn:Hhas.
  - rewrite read_pk_ok by done. cbn [fst snd calls_of app].
    rewrite calls_of_bind.
    destruct (truthy (pk_of m obj)).
    + rewrite calls_of_bind. cbn. rewrite calls_of_bind. cbn.
      rewrite calls_of_bind, bulk_update_calls, deref_set_list.
      destruct (_.2); destruct (_.2); done.
    + rewrite calls_of_bind. cbn.
      rewrite calls_of_bind, bulk_create_calls, deref_set_list.
      destruct (_.2); destruct (_.2); done.
  - by rewrite read_pk_fail by done.
Qed.

(** [save] of an object that has no [pk]: the read of [obj.pk] raises. *)
Lemma save_without_pk obj m :
  has_pk (objects m obj) = false ->
  save C model obj m
  = ([EEnter (CSave obj); ETxBegin;
      ERaise (AttributeError (type_name m obj) "pk"); ETxRollback],
     Raise (AttributeError (type_name m obj) "pk") m).
Proof.
  intros Hhas. unfold save. rewrite enter_run. unfold atomic.
  rewrite bind_run, read_pk_fail by done. cbn.
  by rewrite set_db_id.
Qed.

Lemma truthy_has_pk o : truthy (pk o) = true -> has_pk o = true.
Proof. unfold pk, has_pk. by destruct (meta_pk (obj_type o)). Qed.

Lemma save_returns_obj obj m v m' :
  (save C model obj m).2 = Ok v m' -> v = obj.
Proof.
  destruct (save C model obj m) as [log r] eqn:Hrun. cbn. intros ->.
  unfold save in Hrun. inv_ok. done.
Qed.

Lemma fields_but_id_non_pk o :
  pk_named_id (obj_type o) -> fields_but_id o = non_pk_fields o.
Proof.
  unfold pk_named_id, fields_but_id, non_pk_fields.
  induction (cls_fields (obj_type o)) as [|f fs IH]; intros Hid; [done|].
  cbn. rewrite IH by (intros g Hg; apply Hid; by right).
  specialize (Hid f (list_elem_of_here _ _)).
  destruct (primary_key f) eqn:Hpk; cbn.
  - destruct Hid as [Hid _]. by rewrite (Hid eq_refl).
  - destruct (String.eqb_spec (name f) "id") as [Hn|Hn]; cbn; [|done].
    destruct Hid as [_ Hid]. by specialize (Hid Hn).
Qed.

(** C4, amended.  [save(obj)] makes one bulk call, with the new singleton
    list [[obj]]: [bulk_create] when the primary key of [obj] is falsy,
    [bulk_update] when it is truthy, then with every field name of the class
    of [obj] other than ["id"] (for a class whose primary-key field is the
    one called [id]: all fields except the primary key).  [save] returns
    nothing but [obj], and it does return [obj] when [obj] is an instance of
    the model and the collaborators return.  An object that has no primary
    key at all, one that is no instance of a model, is not saved: the read
    of [obj.pk] raises [AttributeError] and no bulk method is called. *)
Theorem save_routes_to_one_bulk_call obj m :
  let batch := (alloc_list [obj] m).1 in
  let calls := calls_of (save C model obj m).1 in
  (has_pk (objects m obj) = true -> truthy (pk_of m obj) = false ->
   calls = [CSave obj; CBulkCreate batch [obj] None false false]) /\
  (truthy (pk_of m obj) = true ->
   calls = [CSave obj;
            CBulkUpdate batch [obj] (fields_but_id (objects m obj)) None false] /\
   (pk_named_id (obj_type (objects m obj)) ->
    fields_but_id (objects m obj) = non_pk_fields (objects m obj))) /\
  (forall v m', (save C model obj m).2 = Ok v m' -> v = obj) /\
  (isinstance m obj model = true ->
   has_pk (objects m obj) = true ->
   (forall pks, returns (filter_pk_in C model pks)) ->
   (forall ev objs originals ctx,
      returns (engine_run C model ev objs originals ctx)) ->
   (forall ch, returns (base_bulk_update C model ch
                          (fields_but_id (objects m obj)) None)) ->
   (forall ch, returns (base_bulk_create C model ch None false)) ->
   exists log m', save C model obj m = (log, Ok obj m')) /\
  (has_pk (objects m obj) = false ->
   save C model obj m
   = ([EEnter (CSave obj); ETxBegin;
       ERaise (AttributeError (type_name m obj) "pk"); ETxRollback],
      Raise (AttributeError (type_name m obj) "pk") m)).
Proof.
  cbn zeta. rewrite save_calls. split; [|split; [|split; [|split]]].
  - by intros -> ->.
  - intros Hpk. rewrite (truthy_has_pk _ Hpk), Hpk.
    split; [done | apply fields_but_id_non_pk].
  - apply save_returns_obj.
  - apply save_returns.
  - apply save_without_pk.
Qed.

(** C10.  [save] branches on the truthiness of the primary key: when [obj]
    has a primary key that is [None], [0] or the empty string, or any falsy
    value, the call goes to [bulk_create]; it goes to [bulk_update] exactly
    when the primary key is truthy. *)
Theorem save_branches_on_truthiness obj m :
  let batch := (alloc_list [obj] m).1 in
  let calls := calls_of (save C model obj m).1 in
  (forall v, v ∈ [VNone; VInt 0; VStr ""] ->
   has_pk (objects m obj) = true -> pk_of m obj = v ->
   calls = [CSave obj; CBulkCreate batch [obj] None false false]) /\
  (has_pk (objects m obj) = true -> truthy (pk_of m obj) = false ->
   calls = [CSave obj; CBulkCreate batch [obj] None false false]) /\
  (truthy (pk_of m obj) = true <->
   exists fields, calls = [CSave obj; CBulkUpdate batch [obj] fields None false]).
Proof.
  cbn zeta. rewrite save_calls. split; [|split; [|split]].
  - intros v Hv -> ->.
    assert (truthy v = false) as ->; [|done].
    repeat (apply elem_of_cons in Hv as [->|Hv]; [done|]).
    by apply not_elem_of_nil in Hv.
  - by intros -> ->.
  - intros Hpk. rewrite (truthy_has_pk _ Hpk), Hpk. eauto.
  - intros [fields H].
    destruct (has_pk (objects m obj)); [|done].
    by destruct (truthy (pk_of m obj)).
Qed.


(** ** Bypassing the hooks *)

Lemma atomic_ext {A} (x y : M DB A) m : x m = y m -> atomic x m = atomic y m.
Proof. unfold atomic. by intros ->. Qed.

(** What is left of the bulk writes of a batch that passes the type check,
    when the hooks are bypassed. *)
Lemma bulk_create_bypass objs bs ic m :
  Forall (fun r => isinstance m r model = true) (deref m objs) ->
  bulk_create C model objs bs ic true m
  = (enter (fun m => CBulkCreate objs (deref m objs) bs ic true);;
     atomic (result ← new_list [];
             create_chunks C model objs result bs ic;;
             ret result)) m.
Proof.
  intros Hvalid. unfold bulk_create. rewrite !enter_run.
  rewrite (atomic_ext _ (result ← new_list [];
                         create_chunks C model objs result bs ic;;
                         ret result)); [done|].
  rewrite bind_run, check_types_pass by by apply valid_existsb.
  cbn [negb fst snd app]. rewrite !(bind_run (new_list [])). cbn.
  generalize (create_chunks C model objs (fresh (dom (lists m))) bs ic).
  intros loop. repeat (rewrite !bind_run; cbn).
  destruct (loop _) as [l [a m1|e m1]]; repeat (rewrite !bind_run; cbn);
    reflexivity.
Qed.

Lemma bulk_update_bypass objs fields bs m :
  Forall (fun r => isinstance m r model = true) (deref m objs) ->
  deref m objs <> [] ->
  bulk_update C model objs fields bs true m
  = (enter (fun m => CBulkUpdate objs (deref m objs) fields bs true);;
     atomic (update_chunks C model objs fields bs;; ret objs)) m.
Proof.
  intros Hvalid Hne. unfold bulk_update. rewrite !enter_run.
  rewrite (atomic_ext _ (update_chunks C model objs fields bs;; ret objs));
    [done|].
  generalize (update_chunks C model objs fields bs).
  intros loop. rewrite bind_run. cbn.
  rewrite bool_decide_eq_false_2 by done.
  rewrite bind_run, check_types_pass by by apply valid_existsb.
  cbn [negb fst snd app]. repeat (rewrite !bind_run; cbn).
  destruct (loop m) as [l [a m1|e m1]]; repeat (rewrite !bind_run; cbn);
    reflexivity.
Qed.

(** A batch passes the type check or holds a witness of the mismatch. *)
Lemma valid_or_mismatch objs m :
  Forall (fun r => isinstance m r model = true) (deref m objs) \/
  exists r, r ∈ deref m objs /\ isinstance m r model = false.
Proof.
  induction (deref m objs) as [|r rs [IH|(r' & Hin & Hr')]].
  - left. constructor.
  - destruct (isinstance m r model) eqn:E.
    + left. by constructor.
    + right. exists r. split; [left | done].
  - right. exists r'. split; [by right | done].
Qed.

Lemma bulk_create_bypass_silent objs bs ic :
  silent is_hook_work (bulk_create C model objs bs ic true).
Proof.
  intros m. destruct (valid_or_mismatch objs m) as [Hvalid|(r & Hin & Hr)].
  - rewrite bulk_create_bypass, enter_run by done. cbn [fst].
    constructor; [done|].
    apply (silent_atomic is_hook_work); [done..|]. silence.
  - rewrite (bulk_create_mismatch _ _ _ _ _ _ Hin Hr). by repeat constructor.
Qed.

Lemma bulk_update_bypass_silent objs fields bs :
  silent is_hook_work (bulk_update C model objs fields bs true).
Proof.
  intros m. destruct (decide (deref m objs = [])) as [Hnil|Hne].
  { rewrite bulk_update_empty by done. by repeat constructor. }
  destruct (valid_or_mismatch objs m) as [Hvalid|(r & Hin & Hr)].
  - rewrite bulk_update_bypass, enter_run by done. cbn [fst].
    constructor; [done|].
    apply (silent_atomic is_hook_work); [done..|]. silence.
  - rewrite (bulk_update_mismatch _ _ _ _ _ _ Hin Hr). by repeat constructor.
Qed.

(** ** Exceptions and rollback *)

Lemma disciplined_ret {A} (a : A) : disciplined (ret (DB:=DB) a).
Proof. intros m. constructor. Qed.

Lemma disciplined_gets {A} (g : Mem DB -> A) : disciplined (gets g).
Proof. intros m. constructor. Qed.

Lemma disciplined_modify g : disciplined (modify (DB:=DB) g).
Proof. intros m. constructor. Qed.

Lemma disciplined_new_list xs : disciplined (new_list (DB:=DB) xs).
Proof. intros m. constructor. Qed.

Lemma disciplined_new_context cls : disciplined (new_context (DB:=DB) cls).
Proof. intros m. by repeat constructor. Qed.

Lemma disciplined_enter c : disciplined (enter (DB:=DB) c).
Proof. intros m. by repeat constructor. Qed.

Lemma disciplined_raise {A} e : disciplined (@raise DB A e).
Proof. intros m. exists [], []. by repeat constructor. Qed.

Lemma disciplined_call {A} ev (f : Mem DB -> Outcome DB A) :
  is_failure ev = false -> disciplined (call ev f).
Proof.
  intros Hev m. unfold call. destruct (f m) as [a m1|e m1].
  - by repeat constructor.
  - exists [ev], []. by repeat constructor.
Qed.

Lemma disciplined_bind {A B} (x : M DB A) (f : A -> M DB B) :
  disciplined x -> (forall a, disciplined (f a)) -> disciplined (x ≫= f).
Proof.
  intros Hx Hf m. rewrite bind_run. specialize (Hx m).
  destruct (x m) as [l1 [a m1|e m1]]; [|done].
  specialize (Hf a m1). destruct (f a m1) as [l2 [b m2|e m2]]; cbn.
  - by apply Forall_app.
  - destruct Hf as (pre & post & -> & Hpre & Hpost).
    exists (l1 ++ pre), post. rewrite <- app_assoc.
    split; [done|]. split; [by apply Forall_app | done].
Qed.

Lemma disciplined_atomic {A} (body : M DB A) :
  disciplined body -> disciplined (atomic body).
Proof.
  intros Hbody m. unfold atomic. specialize (Hbody m).
  destruct (body m) as [l [a m1|e m1]].
  - constructor; [done|]. apply Forall_app. split; [done|].
    by repeat constructor.
  - destruct Hbody as (pre & post & -> & Hpre & Hpost).
    exists (ETxBegin :: pre), (post ++ [ETxRollback]).
    split; [by rewrite <- app_assoc|].
    split; [by constructor|]. apply Forall_app. split; [done|].
    by repeat constructor.
Qed.

Lemma disciplined_for_each {A} (xs : list A) (body : A -> M DB unit) :
  (forall a, disciplined (body a)) -> disciplined (for_each xs body).
Proof.
  intros Hbody. induction xs as [|a xs IH]; cbn [for_each].
  - apply disciplined_ret.
  - apply disciplined_bind; auto.
Qed.

Ltac discipline_with tac :=
  unfold bulk_update, bulk_create, queryset_delete,
    run, check_types, read_pk, update_chunks, create_chunks, setattr_all;
  solve [ repeat first
    [ apply disciplined_ret | apply disciplined_gets | apply disciplined_modify
    | apply disciplined_new_list | apply disciplined_new_context
    | apply disciplined_enter | apply disciplined_raise
    | tac
    | apply disciplined_bind; [|intros ?]
    | apply disciplined_for_each; intros ?
    | apply disciplined_atomic
    | apply disciplined_call; done
    | lazymatch goal with
      | |- disciplined (if ?b then _ else _) => destruct b
      | |- disciplined (match ?x with _ => _ end) => destruct x
      end ] ].

(** [bulk_delete], however deep it goes. *)
Lemma bulk_delete_at_disciplined depth objs bs bypass :
  disciplined (bulk_delete_at C model depth objs bs bypass).
Proof.
  revert objs bs bypass. induction depth as [|depth IH]; intros objs bs bypass;
    rewrite bulk_delete_at_unfold; discipline_with ltac:(apply IH).
Qed.

Ltac discipline :=
  unfold bulk_delete;
  discipline_with ltac:(apply bulk_delete_at_disciplined).

(** A method of the manager: entered, then run in [transaction.atomic]. *)
Lemma method_all_or_nothing {A} c (body : M DB A) :
  disciplined body -> all_or_nothing (enter c;; atomic body).
Proof.
  intros Hbody m. rewrite enter_run. unfold atomic. specialize (Hbody m).
  destruct (body m) as [l [a m1|e m1]]; cbn [fst snd].
  - split.
    + constructor; [done|]. constructor; [done|].
      apply Forall_app. split; [done | by repeat constructor].
    + change (last ((EEnter (c m) :: ETxBegin :: l) ++ [ETxCommit])
              = Some ETxCommit).
      apply last_snoc.
  - destruct Hbody as (pre & post & -> & Hpre & Hpost).
    split; [done|]. split.
    + exists (EEnter (c m) :: ETxBegin :: pre), (post ++ [ETxRollback]).
      split; [cbn; by rewrite <- app_assoc|].
      split; [by repeat constructor|].
      apply Forall_app. split; [done | by repeat constructor].
    + change (last ((EEnter (c m) :: ETxBegin :: pre ++ ERaise e :: post)
                    ++ [ETxRollback]) = Some ETxRollback).
      apply last_snoc.
Qed.

Lemma bulk_delete_all_or_nothing objs bs bypass :
  all_or_nothing (bulk_delete C model objs bs bypass).
Proof.
  unfold bulk_delete. rewrite bulk_delete_at_unfold.
  apply method_all_or_nothing. discipline.
Qed.

(** * More of the manager *)

(** ** The chunks of a batch *)

Lemma slice_length {A} (xs : list A) i k :
  length (slice xs i (i + k)) = k `min` (length xs - i).
Proof.
  unfold slice. rewrite length_take, length_drop.
  replace (i + k - i) with k by lia. reflexivity.
Qed.

Lemma range0_lookup n k j i :
  range0 n k !! j = Some i -> i = j * k /\ j < range_len n k.
Proof.
  unfold range0. rewrite list_lookup_fmap.
  destruct (seq 0 (range_len n k) !! j) as [q|] eqn:Hq; [|done].
  apply lookup_seq in Hq as [-> Hlt]. cbn. intros [= <-]. auto.
Qed.

Lemma range_len_before n k j : 0 < k -> j < range_len n k -> j * k < n.
Proof.
  unfold range_len. intros Hk Hj.
  pose proof (Nat.Div0.mul_div_le (n + k - 1) k) as Hd. nia.
Qed.

Lemma range_len_full n k j : 0 < k -> S j < range_len n k -> j * k + k <= n.
Proof.
  unfold range_len. intros Hk Hj.
  pose proof (Nat.Div0.mul_div_le (n + k - 1) k) as Hd. nia.
Qed.

Lemma chunks_of_lookup items j ch :
  chunks_of items !! j = Some ch ->
  ch = slice items (j * CHUNK_SIZE) (j * CHUNK_SIZE + CHUNK_SIZE) /\
  j < range_len (length items) CHUNK_SIZE.
Proof.
  unfold chunks_of. rewrite list_lookup_fmap.
  destruct (range0 _ _ !! j) as [i|] eqn:Hi; [|done].
  apply range0_lookup in Hi as [-> Hlt]. cbn. intros [= <-]. auto.
Qed.

Lemma chunks_of_length items :
  length (chunks_of items) = (length items + 199) / 200.
Proof.
  unfold chunks_of. rewrite length_fmap, range0_length.
  unfold range_len, CHUNK_SIZE. f_equal. lia.
Qed.

(** No chunk is empty, none has more than [CHUNK_SIZE] elements. *)
Lemma chunks_of_bounds items :
  Forall (fun ch => 0 < length ch <= CHUNK_SIZE) (chunks_of items).
Proof.
  apply Forall_lookup. intros j ch [-> Hj]%chunks_of_lookup.
  rewrite slice_length.
  pose proof (range_len_before _ CHUNK_SIZE j ltac:(unfold CHUNK_SIZE; lia) Hj).
  unfold CHUNK_SIZE in *. lia.
Qed.

(** Every chunk but the last has [CHUNK_SIZE] elements. *)
Lemma chunks_of_full items j ch :
  chunks_of items !! j = Some ch -> S j < length (chunks_of items) ->
  length ch = CHUNK_SIZE.
Proof.
  intros [-> _]%chunks_of_lookup. unfold chunks_of.
  rewrite length_fmap, range0_length, slice_length. intros Hj.
  pose proof (range_len_full _ CHUNK_SIZE j ltac:(unfold CHUNK_SIZE; lia) Hj).
  lia.
Qed.

Lemma chunks_of_concat items : concat (chunks_of items) = items.
Proof. apply chunks_concat. unfold CHUNK_SIZE. lia. Qed.

(** ** The lists a computation leaves alone *)

Lemma kept_dom (D : gset lref) m m' :
  D ⊆ dom (lists m) ->
  (forall l, l ∈ D -> lists m' !! l = lists m !! l) ->
  D ⊆ dom (lists m').
Proof.
  intros HD H l Hl. apply elem_of_dom. rewrite H by done.
  apply elem_of_dom. auto.
Qed.

Lemma keeps_in_ret {A} D (a : A) : keeps_in D (ret (DB:=DB) a).
Proof. by intros m HD l Hl. Qed.

Lemma keeps_in_gets {A} D (g : Mem DB -> A) : keeps_in D (gets g).
Proof. by intros m HD l Hl. Qed.

Lemma keeps_in_raise {A} D e : keeps_in D (@raise DB A e).
Proof. by intros m HD l Hl. Qed.

Lemma keeps_in_enter D c : keeps_in D (enter (DB:=DB) c).
Proof. by intros m HD l Hl. Qed.

Lemma keeps_in_new_context D cls : keeps_in D (new_context (DB:=DB) cls).
Proof. by intros m HD l Hl. Qed.

Lemma alloc_list_fresh (D : gset lref) xs m :
  D ⊆ dom (lists m) -> (alloc_list xs m).1 ∉ D.
Proof.
  intros HD Hin. apply (is_fresh (dom (lists m))). by apply HD.
Qed.

Lemma keeps_in_new_list D xs : keeps_in D (new_list (DB:=DB) xs).
Proof.
  intros m HD l Hl. cbn. apply lookup_insert_ne. intros <-.
  by apply (alloc_list_fresh D xs m HD).
Qed.

(** Assigning to a list that is not in [D]. *)
Lemma keeps_in_set_list D result (g : Mem DB -> list oref) :
  result ∉ D -> keeps_in D (modify (fun m => set_list result (g m) m)).
Proof.
  intros Hres m HD l Hl. cbn. apply lookup_insert_ne. by intros <-.
Qed.

(** Assigning to an attribute of an object. *)
Lemma keeps_in_set_object D (r : Mem DB -> oref) (g : Mem DB -> PyObj) :
  keeps_in D (modify (fun m => set_object (r m) (g m) m)).
Proof. by intros m HD l Hl. Qed.

Lemma keeps_in_call {A} D ev (f : Mem DB -> Outcome DB A) :
  keeps_lists f -> keeps_in D (call ev f).
Proof.
  intros Hf m HD l Hl.
  assert (is_Some (lists m !! l)) as [xs Hxs] by (apply elem_of_dom; auto).
  specialize (Hf m l xs Hxs). rewrite Hxs. unfold call.
  by destruct (f m).
Qed.

Lemma keeps_in_bind {A B} D (x : M DB A) (f : A -> M DB B) :
  keeps_in D x -> (forall a, keeps_in D (f a)) -> keeps_in D (x ≫= f).
Proof.
  intros Hx Hf m HD l Hl. rewrite bind_run.
  specialize (Hx m HD). destruct (x m) as [l1 [a m1|e m1]]; cbn in *; [|auto].
  rewrite <- (Hx l Hl). apply (Hf a m1); [|done].
  by apply (kept_dom D m).
Qed.

(** What follows the creation of a list may assign to it. *)
Lemma keeps_in_new_list_bind {B} D xs (f : lref -> M DB B) :
  (forall l, l ∉ D -> keeps_in D (f l)) -> keeps_in D (new_list xs ≫= f).
Proof.
  intros Hf m HD l Hl. rewrite bind_run. cbn.
  pose proof (alloc_list_fresh D xs m HD) as Hfresh.
  pose proof (keeps_in_new_list D xs m HD) as Hnew. cbn in Hnew.
  rewrite <- (Hnew l Hl).
  apply (Hf _ Hfresh); [|done]. by apply (kept_dom D m).
Qed.

Lemma keeps_in_atomic {A} D (body : M DB A) :
  keeps_in D body -> keeps_in D (atomic body).
Proof.
  intros Hbody m HD l Hl. specialize (Hbody m HD l Hl). unfold atomic.
  by destruct (body m) as [log [a m1|e m1]].
Qed.

Lemma keeps_in_for_each {A} D (xs : list A) (body : A -> M DB unit) :
  (forall a, keeps_in D (body a)) -> keeps_in D (for_each xs body).
Proof.
  intros Hbody. induction xs as [|a xs IH]; cbn [for_each].
  - apply keeps_in_ret.
  - apply keeps_in_bind; auto.
Qed.

(** Structural proof of [keeps_in D x], for collaborators that leave the
    lists alone. *)
Ltac frame_with Hstable tac :=
  unfold bulk_update, bulk_create, queryset_delete,
    run, check_types, read_pk, update_chunks, create_chunks, setattr_all;
  solve [ repeat first
    [ apply keeps_in_ret | apply keeps_in_gets | apply keeps_in_raise
    | apply keeps_in_enter | apply keeps_in_new_context
    | apply keeps_in_set_list; assumption
    | apply keeps_in_set_object
    | apply keeps_in_call; apply Hstable
    | tac
    | apply keeps_in_new_list_bind; intros ? ?
    | apply keeps_in_new_list
    | apply keeps_in_bind; [|intros ?]
    | apply keeps_in_for_each; intros ?
    | apply keeps_in_atomic
    | lazymatch goal with
      | |- keeps_in _ (if ?b then _ else _) => destruct b
      | |- keeps_in _ (match ?x with _ => _ end) => destruct x
      end ] ].

Lemma bulk_delete_at_keeps D depth objs bs bypass :
  lists_stable C -> keeps_in D (bulk_delete_at C model depth objs bs bypass).
Proof.
  intros Hst. revert objs bs bypass.
  induction depth as [|depth IH]; intros objs bs bypass;
    rewrite bulk_delete_at_unfold; frame_with Hst ltac:(apply IH).
Qed.

Ltac frame Hstable :=
  unfold bulk_delete;
  frame_with Hstable ltac:(apply bulk_delete_at_keeps; exact Hstable).

Lemma bulk_create_keeps D objs bs ic bypass :
  lists_stable C -> keeps_in D (bulk_create C model objs bs ic bypass).
Proof. intros Hst. frame Hst. Qed.

Lemma bulk_update_keeps D objs fields bs bypass :
  lists_stable C -> keeps_in D (bulk_update C model objs fields bs bypass).
Proof. intros Hst. frame Hst. Qed.

Lemma bulk_delete_keeps D objs bs bypass :
  lists_stable C -> keeps_in D (bulk_delete C model objs bs bypass).
Proof. intros Hst. by apply bulk_delete_at_keeps. Qed.

Lemma update_keeps D kwargs :
  lists_stable C -> keeps_in D (update C model kwargs).
Proof. intros Hst. unfold update. frame Hst. Qed.

Lemma delete_keeps D :
  lists_stable C -> keeps_in D (delete C model).
Proof. intros Hst. unfold delete. frame Hst. Qed.

Lemma save_keeps D obj :
  lists_stable C -> keeps_in D (save C model obj).
Proof. intros Hst. unfold save. frame Hst. Qed.

Lemma keeps_in_lookup {A} (x : M DB A) m l xs :
  keeps_in {[l]} x -> lists m !! l = Some xs ->
  lists (mem_of (x m).2) !! l = Some xs.
Proof.
  intros Hx Hl. rewrite <- Hl. apply Hx; [|set_solver].
  apply singleton_subseteq_l, elem_of_dom. eauto.
Qed.

(** X11.  No method of the manager assigns to a list that it did not create: not
    to the batch it is given, and to no other.  When the collaborators leave
    the lists as they are, every list that existed before a call holds what
    it held, however the call ends. *)
Theorem manager_leaves_the_lists_it_finds (l : lref) (xs : list oref) m :
  lists_stable C ->
  lists m !! l = Some xs ->
  (forall objs bs ic bypass,
     lists (mem_of (bulk_create C model objs bs ic bypass m).2) !! l = Some xs) /\
  (forall objs fields bs bypass,
     lists (mem_of (bulk_update C model objs fields bs bypass m).2) !! l = Some xs) /\
  (forall objs bs bypass,
     lists (mem_of (bulk_delete C model objs bs bypass m).2) !! l = Some xs) /\
  (forall kwargs, lists (mem_of (update C model kwargs m).2) !! l = Some xs) /\
  lists (mem_of (delete C model m).2) !! l = Some xs /\
  (forall obj, lists (mem_of (save C model obj m).2) !! l = Some xs).
Proof.
  intros Hst Hl.
  repeat split; intros; apply keeps_in_lookup;
    auto using bulk_create_keeps, bulk_update_keeps, bulk_delete_keeps,
      update_keeps, delete_keeps, save_keeps.
Qed.

(** ** bulk_create over any batch *)

Lemma create_loop_inv_ok objs result bs ic (starts : list nat) m log u m' :
  for_each starts (fun i =>
    chunk ← gets (fun m => slice (deref m objs) i (i + CHUNK_SIZE));
    created ← call (EInsert model chunk bs ic)
                   (base_bulk_create C model chunk bs ic);
    modify (fun m => set_list result (deref m result ++ created) m)) m
  = (log, Ok u m') ->
  exists chunks outs,
    log = (fun ch => EInsert model ch bs ic) <$> chunks /\
    Forall (fun ch => length ch <= CHUNK_SIZE) chunks /\
    Forall2 (fun ch out => exists ma mb,
               base_bulk_create C model ch bs ic ma = Ok out mb) chunks outs /\
    (forall items acc,
       result <> objs ->
       (forall ch, keeps_lists (base_bulk_create C model ch bs ic)) ->
       lists m !! objs = Some items ->
       lists m !! result = Some acc ->
       chunks = (fun i => slice items i (i + CHUNK_SIZE)) <$> starts /\
       lists m' !! objs = Some items /\
       lists m' !! result = Some (acc ++ concat outs)).
Proof.
  revert m log. induction starts as [|i starts IH]; intros m log Hrun.
  - cbn in Hrun. inv_ok. exists [], []. repeat split; auto.
    intros. by rewrite app_nil_r.
  - cbn [for_each] in Hrun. inv_ok.
    destruct (IH _ _ Hrun) as (chunks & outs & -> & Hall & Hret & Hstable).
    lazymatch goal with
    | Hcall : base_bulk_create _ _ _ _ _ ?ma = Ok ?out ?mb |- _ =>
        exists (slice (deref m objs) i (i + CHUNK_SIZE) :: chunks), (out :: outs);
        split; [done|];
        split; [constructor; [apply slice_length_le | done]|];
        split; [constructor; [by exists ma, mb | done]|];
        intros items acc Hne Hkeep Hobjs Hres;
        pose proof (keeps_ok _ _ _ _ _ _ (Hkeep _) Hcall Hobjs) as Hobjs1;
        pose proof (keeps_ok _ _ _ _ _ _ (Hkeep _) Hcall Hres) as Hres1;
        destruct (Hstable items (acc ++ out) Hne Hkeep) as (-> & ? & Hfinal)
    end.
    + cbn. by rewrite lookup_insert_ne.
    + cbn. rewrite (deref_lookup _ _ _ Hres1). apply lookup_insert_eq.
    + rewrite (deref_lookup _ _ _ Hobjs). cbn [concat].
      by rewrite app_assoc.
Qed.

Lemma create_chunks_inv_ok objs result bs ic m log u m' :
  create_chunks C model objs result bs ic m = (log, Ok u m') ->
  exists chunks outs,
    log = (fun ch => EInsert model ch bs ic) <$> chunks /\
    Forall (fun ch => length ch <= CHUNK_SIZE) chunks /\
    Forall2 (fun ch out => exists ma mb,
               base_bulk_create C model ch bs ic ma = Ok out mb) chunks outs /\
    (forall items acc,
       result <> objs ->
       (forall ch, keeps_lists (base_bulk_create C model ch bs ic)) ->
       lists m !! objs = Some items ->
       lists m !! result = Some acc ->
       chunks = chunks_of items /\
       lists m' !! objs = Some items /\
       lists m' !! result = Some (acc ++ concat outs)).
Proof.
  unfold create_chunks. intros Hrun. inv_ok.
  apply create_loop_inv_ok in Hrun as (chunks & outs & -> & Hall & Hret & Hst).
  exists chunks, outs. repeat (split; [done|]).
  intros items acc Hne Hkeep Hobjs Hres.
  rewrite (deref_lookup _ _ _ Hobjs) in Hst. by apply Hst.
Qed.

Lemma create_chunks_bounded objs result bs ic :
  silent (writes_more_than CHUNK_SIZE)
         (create_chunks C model objs result bs ic).
Proof.
  unfold create_chunks. apply silent_bind; [apply silent_gets|]. intros n.
  apply silent_for_each. intros i m. rewrite bind_run. cbn.
  assert (writes_more_than CHUNK_SIZE
            (EInsert model (slice (deref m objs) i (i + CHUNK_SIZE)) bs ic)
          = false) as Hch.
  { cbn. apply bool_decide_eq_false_2.
    pose proof (slice_length_le (deref m objs) i CHUNK_SIZE). lia. }
  rewrite bind_run. unfold call.
  destruct (base_bulk_create _ _ _ _ _ _); by repeat constructor.
Qed.

Lemma bulk_create_before_at_most_once objs bs ic bypass :
  at_most (is_hook_for BEFORE_CREATE) 1 (bulk_create C model objs bs ic bypass).
Proof.
  unfold bulk_create.
  apply at_most_bind_r; [silence|]. intros ?.
  apply at_most_atomic; [done..|].
  apply at_most_bind_r; [silence|]. intros ?.
  apply at_most_bind_r; [silence|]. intros result.
  apply at_most_bind_l; [|intros; silence].
  destruct bypass; cbn [negb]; [apply silent_at_most; silence|].
  apply at_most_bind_r; [silence|]. intros ctx.
  apply at_most_bind_l; [|intros; silence].
  unfold run. apply at_most_bind_r; [silence|]. intros ?.
  by apply at_most_call.
Qed.

Lemma bulk_create_after_at_most_once objs bs ic bypass :
  at_most (is_hook_for AFTER_CREATE) 1 (bulk_create C model objs bs ic bypass).
Proof.
  unfold bulk_create.
  apply at_most_bind_r; [silence|]. intros ?.
  apply at_most_atomic; [done..|].
  apply at_most_bind_r; [silence|]. intros ?.
  apply at_most_bind_r; [silence|]. intros result.
  apply at_most_bind_r; [destruct bypass; cbn [negb]; silence|].
  intros hooked.
  apply at_most_bind_r; [silence|]. intros ?.
  apply at_most_bind_l; [|intros; silence].
  destruct hooked as [ctx|]; [|apply silent_at_most; silence].
  unfold run. apply at_most_bind_r; [silence|]. intros ?.
  by apply at_most_call.
Qed.

Lemma bulk_create_chunks_bounded objs bs ic bypass :
  silent (writes_more_than CHUNK_SIZE) (bulk_create C model objs bs ic bypass).
Proof.
  unfold bulk_create.
  apply silent_bind; [silence|]. intros ?.
  apply silent_atomic; [done..|].
  apply silent_bind; [silence|]. intros ?.
  apply silent_bind; [silence|]. intros result.
  apply silent_bind; [destruct bypass; cbn [negb]; silence|]. intros hooked.
  apply silent_bind; [apply create_chunks_bounded|]. intros ?.
  silence.
Qed.

(** A [bulk_create] that returned: what it did. *)
Lemma bulk_create_returned objs items bs ic m log v m' :
  lists m !! objs = Some items ->
  bulk_create C model objs bs ic false m = (log, Ok v m') ->
  let result := (alloc_list [] m).1 in
  let ctx := (alloc_ctx model (alloc_list [] m).2).1 in
  exists before chunks after,
    log = [EEnter (CBulkCreate objs items bs ic false); ETxBegin;
           ENewContext model ctx;
           EHook model BEFORE_CREATE objs before None ctx]
          ++ ((fun ch => EInsert model ch bs ic) <$> chunks)
          ++ [EHook model AFTER_CREATE result after None ctx; ETxCommit] /\
    v = result /\
    Forall (fun ch => length ch <= CHUNK_SIZE) chunks /\
    (lists_stable C ->
       before = items /\ chunks = chunks_of items /\
       exists outs,
         Forall2 (fun ch out => exists ma mb,
                    base_bulk_create C model ch bs ic ma = Ok out mb)
                 chunks outs /\
         after = concat outs /\ deref m' result = concat outs).
Proof.
  intros Hobjs Hrun result ctx. subst result ctx.
  unfold bulk_create in Hrun. cbn [negb] in Hrun. inv_ok.
  rewrite (deref_lookup _ _ _ Hobjs) in *.
  lazymatch goal with
  | H : create_chunks _ _ _ _ _ _ _ = _ |- _ =>
      apply create_chunks_inv_ok in H
        as (chunks & outs & -> & Hall & Hret & Hstable)
  end.
  lazymatch goal with
  | Hb : engine_run _ _ BEFORE_CREATE _ _ _ ?mb = Ok _ ?m2,
    Ha : engine_run _ _ AFTER_CREATE _ _ _ ?m3 = Ok _ _ |- _ =>
      exists (deref mb objs), chunks, (deref m3 (alloc_list [] m).1);
      split; [cbn [app]; by rewrite <- !app_assoc|];
      split; [done|]; split; [done|];
      intros [Hengine _ _ Hcreate _];
      assert (lists mb !! objs = Some items) as Hmb
        by exact (alloc_list_keeps [] _ _ _ Hobjs);
      assert (lists mb !! (alloc_list [] m).1 = Some []) as Hres
        by (unfold alloc_list, set_list; cbn; apply lookup_insert_eq);
      assert (lists m2 !! objs = Some items) as Hm2 by eauto using keeps_ok;
      assert (lists m2 !! (alloc_list [] m).1 = Some []) as Hres2
        by eauto using keeps_ok;
      destruct (Hstable items [] ) as (-> & Hm3 & Hres3);
        [ intros E; apply (alloc_list_fresh {[objs]} [] m);
          [ apply singleton_subseteq_l, elem_of_dom; eauto
          | rewrite E; set_solver ]
        | intros ch; apply Hcreate | done | done | ];
      pose proof (keeps_ok _ _ _ _ _ _ (Hengine _ _ _ _ _) Ha Hres3) as Hres4
  end.
  rewrite (deref_lookup _ _ _ Hmb), (deref_lookup _ _ _ Hres3),
    (deref_lookup _ _ _ Hres4).
  split; [done|]. split; [done|]. by exists outs.
Qed.

(** X1.  [bulk_create] of any batch, hooks not bypassed.  However the call ends,
    the hooks of [BEFORE_CREATE] are invoked at most once and so are those
    of [AFTER_CREATE], and no batch insert is issued for more than 200
    objects.  When the batch passes the type check and the collaborators
    return, the call returns a list [result] that it has created (it is not
    the batch), and its log is: a new context, [BEFORE_CREATE] on the batch
    [objs], one batch insert per chunk, [AFTER_CREATE] on [result] with the
    same context.  Provided no collaborator mutates a list, the hooks of
    [BEFORE_CREATE] see the whole batch, the chunks are those of the batch,
    and [result] holds, in order, what the batch inserts have returned: it
    is what the hooks of [AFTER_CREATE] see and what the caller finds. *)
Theorem bulk_create_hooks_once_and_collects_the_results objs items bs ic m :
  lists m !! objs = Some items ->
  let r := bulk_create C model objs bs ic false m in
  let result := (alloc_list [] m).1 in
  let ctx := (alloc_ctx model (alloc_list [] m).2).1 in
  (length (List.filter (is_hook_for BEFORE_CREATE) r.1) <= 1 /\
   length (List.filter (is_hook_for AFTER_CREATE) r.1) <= 1 /\
   Forall (fun e => writes_more_than CHUNK_SIZE e = false) r.1) /\
  (Forall (fun o => isinstance m o model = true) items ->
   (forall ev o originals c,
      returns (engine_run C model ev o originals c)) ->
   (forall chunk, returns (base_bulk_create C model chunk bs ic)) ->
   exists before chunks after m',
     r = ([EEnter (CBulkCreate objs items bs ic false); ETxBegin;
           ENewContext model ctx;
           EHook model BEFORE_CREATE objs before None ctx]
          ++ ((fun ch => EInsert model ch bs ic) <$> chunks)
          ++ [EHook model AFTER_CREATE result after None ctx; ETxCommit],
          Ok result m') /\
     result <> objs /\
     Forall (fun ch => length ch <= CHUNK_SIZE) chunks /\
     (lists_stable C ->
        before = items /\ chunks = chunks_of items /\
        exists outs,
          Forall2 (fun ch out => exists ma mb,
                     base_bulk_create C model ch bs ic ma = Ok out mb)
                  chunks outs /\
          after = concat outs /\ deref m' result = concat outs)).
Proof.
  intros Hobjs r result ctx. split.
  { split; [apply bulk_create_before_at_most_once|].
    split; [apply bulk_create_after_at_most_once|].
    apply bulk_create_chunks_bounded. }
  intros Hvalid Hengine Hcreate.
  destruct (bulk_create_returns objs bs ic m) as (log & v & m' & Hrun);
    [by rewrite (deref_lookup _ _ _ Hobjs) | done..|].
  destruct (bulk_create_returned _ _ _ _ _ _ _ _ Hobjs Hrun)
    as (before & chunks & after & -> & -> & Hall & Hstable).
  exists before, chunks, after, m'.
  split; [exact Hrun|]. split; [|by split].
  intros E. apply (alloc_list_fresh {[objs]} [] m).
  - apply singleton_subseteq_l, elem_of_dom. eauto.
  - fold result. rewrite E. set_solver.
Qed.

(** ** The writes of bulk_update *)

Lemma filter_is_write_updates (chunks : list (list oref)) fields bs :
  List.filter is_write ((fun ch => EUpdate model ch fields bs) <$> chunks)
  = (fun ch => EUpdate model ch fields bs) <$> chunks.
Proof. induction chunks as [|ch chunks IH]; [done|]. cbn. by rewrite IH. Qed.

Lemma bulk_update_bypass_returned objs items fields bs m :
  lists m !! objs = Some items ->
  items <> [] ->
  Forall (fun o => isinstance m o model = true) items ->
  (forall chunk, returns (base_bulk_update C model chunk fields bs)) ->
  (forall chunk, keeps_lists (base_bulk_update C model chunk fields bs)) ->
  exists m',
    bulk_update C model objs fields bs true m
    = (EEnter (CBulkUpdate objs items fields bs true) :: ETxBegin ::
       ((fun ch => EUpdate model ch fields bs) <$> chunks_of items)
       ++ [ETxCommit],
       Ok objs m').
Proof.
  intros Hobjs Hne Hvalid Hret Hkeep.
  pose proof (deref_lookup _ _ _ Hobjs) as Hitems.
  destruct (update_chunks_returns objs fields bs m Hret) as (ulog & m' & Hu).
  destruct (update_chunks_inv_ok _ _ _ _ _ _ _ Hu)
    as (chunks & -> & _ & _ & Hstable).
  destruct (Hstable items Hkeep Hobjs) as [-> _].
  exists m'. rewrite bulk_update_bypass by by rewrite Hitems.
  rewrite enter_run, Hitems.
  assert (atomic (update_chunks C model objs fields bs;; ret objs) m
          = (ETxBegin :: (((fun ch => EUpdate model ch fields bs)
                             <$> chunks_of items) ++ []) ++ [ETxCommit],
             Ok objs m')) as ->; [fwd|].
  by rewrite app_nil_r.
Qed.

(** X2.  [bulk_update] of a non-empty batch that passes the type check, hooks
    bypassed or not, with collaborators that return and mutate no list.  The
    call returns [objs], and its writes are one batch update per chunk of
    the batch, in order.  The chunks put together are the batch: every
    object is written once.  There are [ceil(n / 200)] of them for a batch
    of [n], none is empty, and all but the last hold exactly 200 objects. *)
Theorem bulk_update_writes_the_batch_in_chunks
    objs items fields bs (bypass : bool) m :
  lists m !! objs = Some items ->
  items <> [] ->
  Forall (fun o => isinstance m o model = true) items ->
  returns (filter_pk_in C model (pk_of m <$> items)) ->
  (forall ev originals ctx,
     returns (engine_run C model ev objs originals ctx)) ->
  (forall chunk, returns (base_bulk_update C model chunk fields bs)) ->
  lists_stable C ->
  (exists log m',
     bulk_update C model objs fields bs bypass m = (log, Ok objs m') /\
     List.filter is_write log
     = (fun ch => EUpdate model ch fields bs) <$> chunks_of items) /\
  concat (chunks_of items) = items /\
  length (chunks_of items) = (length items + 199) / 200 /\
  Forall (fun ch => 0 < length ch <= 200) (chunks_of items) /\
  (forall j ch,
     chunks_of items !! j = Some ch -> S j < length (chunks_of items) ->
     length ch = 200).
Proof.
  intros Hobjs Hne Hvalid Hfetch Hengine Hupdate Hst.
  split; [|split; [apply chunks_of_concat|split; [apply chunks_of_length|
    split; [apply chunks_of_bounds | apply chunks_of_full]]]].
  pose proof (deref_lookup _ _ _ Hobjs) as Hitems.
  destruct bypass.
  - destruct (bulk_update_bypass_returned objs items fields bs m)
      as (m' & Hrun); [done.. | intros ch; apply Hst |].
    eexists _, m'. split; [exact Hrun|].
    cbn. rewrite List.filter_app, filter_is_write_updates. cbn.
    by rewrite app_nil_r.
  - destruct (bulk_update_returns objs fields bs m) as (log & m' & Hrun);
      [by rewrite Hitems | by rewrite Hitems | by rewrite Hitems | done..|].
    destruct (bulk_update_returned _ _ _ _ _ _ _ _ Hobjs Hne Hrun)
      as (found & m1 & originals & ctx & before & after & chunks
          & -> & _ & _ & _ & _ & Hstable).
    destruct (Hstable Hst) as (_ & _ & -> & _).
    eexists _, m'. split; [exact Hrun|].
    cbn. rewrite List.filter_app, filter_is_write_updates. cbn.
    by rewrite app_nil_r.
Qed.

(** ** update and delete *)

Lemma setattr_loop (items : list oref) k v m :
  exists m',
    for_each items (fun r =>
      modify (fun m => set_object r (setattr (objects m r) k v) m)) m
    = ([], Ok tt m') /\
    lists m' = lists m /\ db m' = db m /\
    (forall r, obj_type (objects m' r) = obj_type (objects m r)) /\
    (forall r, r ∉ items -> objects m' r = objects m r) /\
    (k <> "pk" -> forall r k', k' <> k ->
       obj_attrs (objects m' r) !! k' = obj_attrs (objects m r) !! k') /\
    (k <> "pk" -> forall r, r ∈ items ->
       obj_attrs (objects m' r) !! k = Some v).
Proof.
  revert m. induction items as [|r0 rs IH]; intros m.
  - exists m. repeat split; auto. intros _ r Hr. by apply not_elem_of_nil in Hr.
  - set (m1 := set_object r0 (setattr (objects m r0) k v) m).
    destruct (IH m1) as (m' & Hrun & Hlists & Hdb & Htype & Hout & Hoth & Hin).
    assert (forall r, r <> r0 -> objects m1 r = objects m r) as Hne.
    { intros r Hr. subst m1. cbn. by rewrite (proj2 (Nat.eqb_neq r r0)). }
    assert (objects m1 r0 = setattr (objects m r0) k v) as Heq.
    { subst m1. cbn. by rewrite Nat.eqb_refl. }
    exists m'. split; [cbn [for_each]; etransitivity; [fwd | reflexivity]|].
    split; [by rewrite Hlists|]. split; [by rewrite Hdb|].
    split; [|split; [|split]].
    + intros r. rewrite Htype. destruct (decide (r = r0)) as [->|Hr].
      * by rewrite Heq.
      * by rewrite Hne.
    + intros r [Hr0 Hrs]%not_elem_of_cons. rewrite Hout by done. by apply Hne.
    + intros Hk r k' Hk'. rewrite Hoth by done.
      destruct (decide (r = r0)) as [->|Hr]; [|by rewrite Hne].
      rewrite Heq. unfold setattr.
      rewrite (proj2 (String.eqb_neq k "pk")) by done. cbn.
      by apply lookup_insert_ne.
    + intros Hk r Hr. destruct (decide (r ∈ rs)) as [Hrs|Hrs]; [by apply Hin|].
      apply elem_of_cons in Hr as [->|Hr]; [|done].
      rewrite Hout, Heq by done. unfold setattr.
      rewrite (proj2 (String.eqb_neq k "pk")) by done. cbn.
      apply lookup_insert_eq.
Qed.

(** The assignments of [update]: every keyword, to every object of the
    list. *)
Lemma assign_loop objs (kwargs : list (string * Value)) m :
  exists m',
    for_each kwargs (fun kv => setattr_all objs kv.1 kv.2) m = ([], Ok tt m') /\
    lists m' = lists m /\ db m' = db m /\
    (forall r, obj_type (objects m' r) = obj_type (objects m r)) /\
    (forall r, r ∉ deref m objs -> objects m' r = objects m r) /\
    ("pk" ∉ kwargs.*1 -> forall r k, k ∉ kwargs.*1 ->
       obj_attrs (objects m' r) !! k = obj_attrs (objects m r) !! k) /\
    ("pk" ∉ kwargs.*1 -> NoDup kwargs.*1 ->
     forall r k v, r ∈ deref m objs -> (k, v) ∈ kwargs ->
       obj_attrs (objects m' r) !! k = Some v).
Proof.
  revert m. induction kwargs as [|[k0 v0] kwargs IH]; intros m.
  - exists m. repeat split; auto.
    intros _ _ r k v _ Hin. by apply not_elem_of_nil in Hin.
  - destruct (setattr_loop (deref m objs) k0 v0 m)
      as (m1 & Hrun1 & Hlists1 & Hdb1 & Htype1 & Hout1 & Hoth1 & Hin1).
    destruct (IH m1) as (m' & Hrun & Hlists & Hdb & Htype & Hout & Hoth & Hin).
    assert (deref m1 objs = deref m objs) as Hderef
      by (unfold deref; by rewrite Hlists1).
    rewrite Hderef in Hout, Hin.
    assert (setattr_all objs k0 v0 m = ([], Ok tt m1)) as Hstep.
    { unfold setattr_all. etransitivity; [fwd | reflexivity]. }
    exists m'. split.
    { cbn [for_each fst snd]. etransitivity; [fwd | reflexivity]. }
    split; [by rewrite Hlists|]. split; [by rewrite Hdb|].
    split; [intros r; by rewrite Htype|].
    split; [intros r Hr; by rewrite Hout, Hout1|].
    cbn [fmap list_fmap fst].
    split.
    + intros [Hpk0 Hpk]%not_elem_of_cons r k [Hk0 Hk]%not_elem_of_cons.
      rewrite Hoth by done. apply Hoth1; done.
    + intros [Hpk0 Hpk]%not_elem_of_cons [Hk0 Hnd]%NoDup_cons r k v Hr
        [[= -> ->]|Hkv]%elem_of_cons.
      * rewrite Hoth by done. apply Hin1; done.
      * by apply (Hin Hpk Hnd r k v).
Qed.

(** [update] when the query set is not empty: the fetch, the assignments,
    then [bulk_update] on the list of what was fetched. *)
Lemma update_run kwargs m found m1 :
  all C model m = Ok found m1 ->
  found <> [] ->
  let objs := (alloc_list found m1).1 in
  exists m2,
    let inner := bulk_update C model objs (kwargs.*1) None false m2 in
    update C model kwargs m
    = ([EEnter (CUpdate kwargs); ETxBegin; EFetchAll model] ++ inner.1
       ++ [match inner.2 with
           | Ok _ _ => ETxCommit
           | Raise _ _ => ETxRollback
           end],
       match inner.2 with
       | Ok _ m' => Ok (length (deref m' objs)) m'
       | Raise e m' => Raise e (set_db (db m) m')
       end) /\
    deref m2 objs = found /\
    lists m2 = lists (alloc_list found m1).2 /\
    db m2 = db m1 /\
    (forall r, obj_type (objects m2 r) = obj_type (objects m1 r)) /\
    (forall r, r ∉ found -> objects m2 r = objects m1 r) /\
    ("pk" ∉ kwargs.*1 -> forall r k, k ∉ kwargs.*1 ->
       obj_attrs (objects m2 r) !! k = obj_attrs (objects m1 r) !! k) /\
    ("pk" ∉ kwargs.*1 -> NoDup kwargs.*1 ->
     forall r k v, r ∈ found -> (k, v) ∈ kwargs ->
       obj_attrs (objects m2 r) !! k = Some v).
Proof.
  intros Hall Hne objs.
  set (m0 := (alloc_list found m1).2).
  assert (deref m0 objs = found) as Hfound by apply deref_alloc_list.
  destruct (assign_loop objs kwargs m0)
    as (m2 & Hloop & Hlists & Hdb & Htype & Hout & Hoth & Hin).
  rewrite Hfound in *.
  exists m2. cbn zeta.
  split; [|split; [unfold deref; by rewrite Hlists|
           repeat (split; [done|]); done]].
  unfold update.
  destruct (bulk_update C model objs (kwargs.*1) None false m2)
    as [blog [v m'|e m']] eqn:Hinner; cbn [fst snd].
  - etransitivity;
      [ fwd; change (fresh (dom (lists m1))) with objs;
        change (set_list objs found m1) with m0;
        rewrite Hfound, bool_decide_eq_false_2 by done; fwd
      | cbn; by rewrite ?app_nil_r ].
  - etransitivity;
      [ fwdx; change (fresh (dom (lists m1))) with objs;
        change (set_list objs found m1) with m0;
        rewrite Hfound, bool_decide_eq_false_2 by done; fwdx
      | cbn; by rewrite ?app_nil_r ].
Qed.

Lemma delete_run m found m1 :
  all C model m = Ok found m1 ->
  found <> [] ->
  let objs := (alloc_list found m1).1 in
  let inner := bulk_delete C model objs None false (alloc_list found m1).2 in
  delete C model m
  = ([EEnter CDelete; ETxBegin; EFetchAll model] ++ inner.1
     ++ [match inner.2 with
         | Ok _ _ => ETxCommit
         | Raise _ _ => ETxRollback
         end],
     match inner.2 with
     | Ok _ m' => Ok (length (deref m' objs)) m'
     | Raise e m' => Raise e (set_db (db m) m')
     end).
Proof.
  intros Hall Hne objs inner. subst inner.
  set (m0 := (alloc_list found m1).2).
  assert (deref m0 objs = found) as Hfound by apply deref_alloc_list.
  unfold delete.
  destruct (bulk_delete C model objs None false m0)
    as [blog [v m'|e m']] eqn:Hinner; cbn [fst snd].
  - etransitivity;
      [ fwd; change (fresh (dom (lists m1))) with objs;
        change (set_list objs found m1) with m0;
        rewrite Hfound, bool_decide_eq_false_2 by done; fwd
      | cbn; by rewrite ?app_nil_r ].
  - etransitivity;
      [ fwdx; change (fresh (dom (lists m1))) with objs;
        change (set_list objs found m1) with m0;
        rewrite Hfound, bool_decide_eq_false_2 by done; fwdx
      | cbn; by rewrite ?app_nil_r ].
Qed.

(** X4.  On a query set that holds nothing, [update] and [delete] return 0 once
    they have fetched it: nothing is assigned, no hook is invoked, nothing
    is written. *)
Theorem update_and_delete_of_nothing kwargs m m1 :
  all C model m = Ok [] m1 ->
  update C model kwargs m
  = ([EEnter (CUpdate kwargs); ETxBegin; EFetchAll model; ETxCommit],
     Ok 0 (alloc_list [] m1).2) /\
  delete C model m
  = ([EEnter CDelete; ETxBegin; EFetchAll model; ETxCommit],
     Ok 0 (alloc_list [] m1).2) /\
  objects (alloc_list [] m1).2 = objects m1 /\
  db (alloc_list [] m1).2 = db m1.
Proof.
  intros Hall. split; [|split; [|done]].
  - unfold update. etransitivity; [fwd|].
    + rewrite deref_set_list. cbn. reflexivity.
    + reflexivity.
  - unfold delete. etransitivity; [fwd|].
    + rewrite deref_set_list. cbn. reflexivity.
    + reflexivity.
Qed.

(** X5.  [update] with its keyword arguments, when the query set holds
    something: [update] assigns in memory before anything else.  It is
    [bulk_update], hooks not bypassed, on the list of what was fetched and
    for the keywords as fields, in a memory [m2] where every keyword is
    assigned to every object fetched and nothing else has changed; [update]
    commits and returns the length of the list when [bulk_update] returns,
    and raises what [bulk_update] raises. *)
Theorem update_assigns_then_bulk_updates kwargs m found m1 :
  all C model m = Ok found m1 ->
  found <> [] ->
  let objs := (alloc_list found m1).1 in
  exists m2,
    let inner := bulk_update C model objs (kwargs.*1) None false m2 in
    update C model kwargs m
    = ([EEnter (CUpdate kwargs); ETxBegin; EFetchAll model] ++ inner.1
       ++ [match inner.2 with
           | Ok _ _ => ETxCommit
           | Raise _ _ => ETxRollback
           end],
       match inner.2 with
       | Ok _ m' => Ok (length (deref m' objs)) m'
       | Raise e m' => Raise e (set_db (db m) m')
       end) /\
    deref m2 objs = found /\
    lists m2 = lists (alloc_list found m1).2 /\
    db m2 = db m1 /\
    (forall r, obj_type (objects m2 r) = obj_type (objects m1 r)) /\
    (forall r, r ∉ found -> objects m2 r = objects m1 r) /\
    ("pk" ∉ kwargs.*1 -> forall r k, k ∉ kwargs.*1 ->
       obj_attrs (objects m2 r) !! k = obj_attrs (objects m1 r) !! k) /\
    ("pk" ∉ kwargs.*1 -> NoDup kwargs.*1 ->
     forall r k v, r ∈ found -> (k, v) ∈ kwargs ->
       obj_attrs (objects m2 r) !! k = Some v).
Proof. apply update_run. Qed.

(** X6.  [update] returns the number of objects of the query set, when these are
    instances of the model and the collaborators return and mutate no
    list. *)
Theorem update_returns_the_number_of_objects kwargs m found m1 :
  all C model m = Ok found m1 ->
  Forall (fun r => isinstance m1 r model = true) found ->
  (forall pks, returns (filter_pk_in C model pks)) ->
  (forall ev objs originals ctx,
     returns (engine_run C model ev objs originals ctx)) ->
  (forall chunk, returns (base_bulk_update C model chunk (kwargs.*1) None)) ->
  lists_stable C ->
  exists log m', update C model kwargs m = (log, Ok (length found) m').
Proof.
  intros Hall Hvalid Hfetch Hengine Hupdate Hst.
  destruct (decide (found = [])) as [->|Hne].
  { eexists _, _. unfold update. fwd.
    rewrite deref_set_list. cbn. reflexivity. }
  destruct (update_run kwargs m found m1 Hall Hne)
    as (m2 & Hrun & Hfound & Hlists & _ & Htype & _).
  cbn zeta in Hrun.
  destruct (bulk_update_returns (alloc_list found m1).1 (kwargs.*1) None m2)
    as (blog & m' & Hinner); [by rewrite Hfound | | auto..].
  { rewrite Hfound. eapply Forall_impl; [exact Hvalid|].
    intros r Hr. unfold isinstance in *. by rewrite Htype. }
  rewrite Hinner in Hrun. cbn [fst snd] in Hrun.
  assert (lists m' !! (alloc_list found m1).1 = Some found) as Hkept.
  { change m' with (mem_of (blog, Ok (A:=lref) (alloc_list found m1).1 m').2).
    rewrite <- Hinner. apply keeps_in_lookup; [by apply bulk_update_keeps|].
    rewrite Hlists. unfold alloc_list, set_list. cbn. apply lookup_insert_eq. }
  rewrite (deref_lookup _ _ _ Hkept) in Hrun. eauto.
Qed.

(** X7.  [delete()] on a query set that holds something: it is the fetch, then
    one call of [bulk_delete], hooks not bypassed and no batch size, on the
    list of what was fetched.  [delete] commits when that call returns, and
    then returns the number of objects of the list; it rolls back and raises
    what the call raises otherwise.  When the collaborators mutate no list
    and the call returns, the number returned is the number of objects
    fetched. *)
Theorem delete_fetches_then_bulk_deletes m found m1 :
  all C model m = Ok found m1 ->
  found <> [] ->
  let objs := (alloc_list found m1).1 in
  let m0 := (alloc_list found m1).2 in
  let inner := bulk_delete C model objs None false m0 in
  delete C model m
  = ([EEnter CDelete; ETxBegin; EFetchAll model] ++ inner.1
     ++ [match inner.2 with
         | Ok _ _ => ETxCommit
         | Raise _ _ => ETxRollback
         end],
     match inner.2 with
     | Ok _ m' => Ok (length (deref m' objs)) m'
     | Raise e m' => Raise e (set_db (db m) m')
     end) /\
  deref m0 objs = found /\
  (exists rest,
     inner.1 = EEnter (CBulkDelete objs found None false) :: ETxBegin :: rest) /\
  (lists_stable C -> forall v m', inner.2 = Ok v m' ->
     (delete C model m).2 = Ok (length found) m').
Proof.
  intros Hall Hne objs m0 inner.
  pose proof (delete_run m found m1 Hall Hne) as Hrun. cbn zeta in Hrun.
  fold objs m0 inner in Hrun.
  assert (deref m0 objs = found) as Hfound by apply deref_alloc_list.
  split; [exact Hrun|]. split; [exact Hfound|]. split.
  - subst inner. unfold bulk_delete. rewrite bulk_delete_at_unfold, enter_run.
    rewrite Hfound. unfold atomic. cbn [fst].
    match goal with |- context [let '(l, r) := ?x in _] => destruct x as [l []] end;
      eauto.
  - intros Hst v m' Hinner. rewrite Hrun. cbn [snd]. rewrite Hinner.
    assert (lists m' !! objs = Some found) as Hkept.
    { change m' with (mem_of (Ok (A:=lref) v m')). rewrite <- Hinner.
      apply keeps_in_lookup; [by apply bulk_delete_keeps|].
      subst objs m0. unfold alloc_list, set_list. cbn. apply lookup_insert_eq. }
    by rewrite (deref_lookup _ _ _ Hkept).
Qed.

(** ** save *)

(** X8.  [save] of an object that is not an instance of the model reaches
    neither the hooks nor storage.  When the object has a primary key (it is
    an instance of another model), [save] raises the [TypeError] of the bulk
    method it goes to, [bulk_update] when the primary key is truthy and
    [bulk_create] when it is not, and only the new singleton list is left
    in memory.  When it has none, the read of [obj.pk] raises
    [AttributeError] before any bulk method is entered. *)
Theorem save_of_another_type_raises obj m :
  isinstance m obj model = false ->
  let batch := (alloc_list [obj] m).1 in
  let meth := if truthy (pk_of m obj) then "bulk_update" else "bulk_create" in
  let e := TypeError meth (cls_name model) {[ type_name m obj ]} in
  (has_pk (objects m obj) = true ->
   save C model obj m
   = ([EEnter (CSave obj); ETxBegin;
       EEnter (if truthy (pk_of m obj)
               then CBulkUpdate batch [obj] (fields_but_id (objects m obj))
                                None false
               else CBulkCreate batch [obj] None false false);
       ETxBegin; ERaise e; ETxRollback; ETxRollback],
      Raise e (alloc_list [obj] m).2)) /\
  (has_pk (objects m obj) = false ->
   save C model obj m
   = ([EEnter (CSave obj); ETxBegin;
       ERaise (AttributeError (type_name m obj) "pk"); ETxRollback],
      Raise (AttributeError (type_name m obj) "pk") m)).
Proof.
  intros Hobj batch meth e. subst meth e.
  split; [|apply save_without_pk]. intros Hhas.
  set (m0 := (alloc_list [obj] m).2).
  assert (deref m0 batch = [obj]) as Hbatch by apply deref_alloc_list.
  assert (obj ∈ deref m0 batch) as Hin by (rewrite Hbatch; by left).
  assert (list_to_set (type_name m0 <$> deref m0 batch)
          = ({[ type_name m obj ]} : gset string)) as Hgot.
  { rewrite Hbatch. cbn. apply (right_id_L ∅ (∪)). }
  unfold save. destruct (truthy (pk_of m obj)) eqn:Hpk.
  - pose proof (bulk_update_mismatch batch (fields_but_id (objects m obj))
                  None false m0 obj Hin Hobj) as Hinner.
    rewrite Hgot, Hbatch in Hinner.
    etransitivity; [fwdx; rewrite Hpk; fwdx | reflexivity].
  - pose proof (bulk_create_mismatch batch None false false m0 obj Hin Hobj)
      as Hinner.
    rewrite Hgot, Hbatch in Hinner.
    etransitivity; [fwdx; rewrite Hpk; fwdx | reflexivity].
Qed.

Lemma fields_but_id_elem o n :
  n ∈ fields_but_id o <->
  n <> "id" /\ exists f, f ∈ cls_fields (obj_type o) /\ name f = n.
Proof.
  unfold fields_but_id. rewrite list_elem_of_In, List.filter_In.
  rewrite <- list_elem_of_In, list_elem_of_fmap, negb_true_iff.
  split.
  - intros [(f & -> & Hf) Hn]. split; [by apply String.eqb_neq | eauto].
  - intros [Hn (f & Hf & <-)]. split; [eauto | by apply String.eqb_neq].
Qed.

Lemma meta_pk_field c f :
  meta_pk c = Some f -> f ∈ cls_fields c /\ primary_key f = true.
Proof.
  unfold meta_pk. intros [Hin Hpk]%List.find_some.
  split; [by apply list_elem_of_In | done].
Qed.

(** X9.  [save] leaves out of the fields it passes to [bulk_update] the one
    called [id], whatever the primary key is: for a model whose primary key
    has another name, the primary-key field is among the fields to
    update. *)
Theorem save_passes_a_primary_key_not_named_id obj m f :
  truthy (pk_of m obj) = true ->
  meta_pk (obj_type (objects m obj)) = Some f ->
  name f <> "id" ->
  exists fields,
    calls_of (save C model obj m).1
    = [CSave obj; CBulkUpdate (alloc_list [obj] m).1 [obj] fields None false] /\
    primary_key f = true /\
    name f ∈ fields /\
    "id" ∉ fields.
Proof.
  intros Hpk [Hf Hprim]%meta_pk_field Hname.
  exists (fields_but_id (objects m obj)).
  rewrite save_calls, (truthy_has_pk _ Hpk), Hpk.
  split; [done|]. split; [done|]. split.
  - apply fields_but_id_elem. eauto.
  - by intros [? _]%fields_but_id_elem.
Qed.

(** ** Hooks that refuse *)

(** X3.  The hooks of a [BEFORE_] event that raise stop the bulk method there:
    no write is issued (for [bulk_update], the originals have been fetched),
    the hooks of the [AFTER_] event are not invoked, the transaction is
    rolled back and the exception of the hooks reaches the caller. *)
Theorem before_hooks_that_raise_prevent_the_write
    objs items fields bs ic m e m1 :
  lists m !! objs = Some items ->
  Forall (fun o => isinstance m o model = true) items ->
  (let ctx := (alloc_ctx model (alloc_list [] m).2).1 in
   engine_run C model BEFORE_CREATE objs None ctx
              (alloc_ctx model (alloc_list [] m).2).2 = Raise e m1 ->
   bulk_create C model objs bs ic false m
   = ([EEnter (CBulkCreate objs items bs ic false); ETxBegin;
       ENewContext model ctx;
       EHook model BEFORE_CREATE objs items None ctx;
       ERaise e; ETxRollback],
      Raise e (set_db (db m) m1))) /\
  (items <> [] ->
   forall found mf,
   filter_pk_in C model (pk_of m <$> items) m = Ok found mf ->
   let originals := (alloc_list found mf).1 in
   let ctx := (alloc_ctx model (alloc_list found mf).2).1 in
   let mb := (alloc_ctx model (alloc_list found mf).2).2 in
   engine_run C model BEFORE_UPDATE objs (Some originals) ctx mb
   = Raise e m1 ->
   bulk_update C model objs fields bs false m
   = ([EEnter (CBulkUpdate objs items fields bs false); ETxBegin;
       EFetchPks model (pk_of m <$> items);
       ENewContext model ctx;
       EHook model BEFORE_UPDATE objs (deref mb objs) (Some originals) ctx;
       ERaise e; ETxRollback],
      Raise e (set_db (db m) m1))) /\
  (items <> [] ->
   let ctx := (alloc_ctx model m).1 in
   engine_run C model BEFORE_DELETE objs None ctx (alloc_ctx model m).2
   = Raise e m1 ->
   bulk_delete C model objs bs false m
   = ([EEnter (CBulkDelete objs items bs false); ETxBegin;
       ENewContext model ctx;
       EHook model BEFORE_DELETE objs items None ctx;
       ERaise e; ETxRollback],
      Raise e (set_db (db m) m1))).
Proof.
  intros Hobjs Hvalid.
  pose proof (deref_lookup _ _ _ Hobjs) as Hitems.
  rewrite <- Hitems in Hvalid. apply valid_existsb in Hvalid.
  split; [|split].
  - intros ctx Hbefore. subst ctx.
    pose proof (deref_lookup _ _ _ (alloc_list_keeps [] _ _ _ Hobjs)) as Hmb.
    unfold bulk_create. cbn [negb].
    etransitivity; [fwdx | cbn; by rewrite Hitems, <- ?Hmb].
  - intros Hne found mf Hfetch originals ctx mb Hbefore.
    subst originals ctx mb. rewrite <- Hitems in Hfetch, Hne.
    unfold bulk_update. cbn [negb].
    etransitivity;
      [ fwdx; rewrite bool_decide_eq_false_2 by done; fwdx
      | cbn; by rewrite Hitems ].
  - intros Hne ctx Hbefore. subst ctx. rewrite <- Hitems in Hne.
    unfold bulk_delete. rewrite bulk_delete_at_unfold. cbn [negb].
    etransitivity;
      [ fwdx; rewrite bool_decide_eq_false_2 by done; fwdx
      | rewrite <- Hitems; reflexivity ].
Qed.

(** ** The hooks of a method *)

Ltac quiet_with tac :=
  unfold bulk_update, bulk_create, queryset_delete,
    run, check_types, read_pk, update_chunks, create_chunks, setattr_all;
  solve [ repeat first
    [ apply silent_ret | apply silent_gets | apply silent_modify
    | apply silent_new_list
    | apply silent_enter; done
    | tac
    | apply silent_bind; [|intros ?]
    | apply silent_for_each; intros ?
    | apply silent_atomic; [done | done | done |]
    | apply silent_call; [vm_compute; reflexivity | done]
    | apply silent_raise; done
    | apply silent_new_context; done
    | lazymatch goal with
      | |- silent _ (if ?b then _ else _) => destruct b
      | |- silent _ (match ?x with _ => _ end) => destruct x
      end ] ].

(** [bulk_delete], however deep it goes, invokes the hooks of the two delete
    events only. *)
Lemma bulk_delete_at_quiet depth objs bs bypass :
  silent (is_hook_outside [BEFORE_DELETE; AFTER_DELETE])
         (bulk_delete_at C model depth objs bs bypass).
Proof.
  revert objs bs bypass. induction depth as [|depth IH]; intros objs bs bypass;
    rewrite bulk_delete_at_unfold; quiet_with ltac:(apply IH).
Qed.

Ltac quiet :=
  unfold bulk_delete; quiet_with ltac:(apply bulk_delete_at_quiet).

(** X12.  No method invokes the hooks of an event that is not its own, however
    it ends: [bulk_create] invokes those of [BEFORE_CREATE] and
    [AFTER_CREATE] only, [bulk_update] and [update] those of
    [BEFORE_UPDATE] and [AFTER_UPDATE], [bulk_delete] and [delete] those of
    [BEFORE_DELETE] and [AFTER_DELETE], and [save] none of the two delete
    events. *)
Theorem methods_invoke_the_hooks_of_their_own_events_only :
  (forall objs bs ic bypass,
     silent (is_hook_outside [BEFORE_CREATE; AFTER_CREATE])
            (bulk_create C model objs bs ic bypass)) /\
  (forall objs fields bs bypass,
     silent (is_hook_outside [BEFORE_UPDATE; AFTER_UPDATE])
            (bulk_update C model objs fields bs bypass)) /\
  (forall objs bs bypass,
     silent (is_hook_outside [BEFORE_DELETE; AFTER_DELETE])
            (bulk_delete C model objs bs bypass)) /\
  (forall kwargs,
     silent (is_hook_outside [BEFORE_UPDATE; AFTER_UPDATE])
            (update C model kwargs)) /\
  silent (is_hook_outside [BEFORE_DELETE; AFTER_DELETE]) (delete C model) /\
  (forall obj,
     silent (is_hook_outside [BEFORE_CREATE; AFTER_CREATE;
                              BEFORE_UPDATE; AFTER_UPDATE])
            (save C model obj)).
Proof.
  split; [intros; quiet|]. split; [intros; quiet|].
  split; [intros; quiet|].
  split; [intros; unfold update; quiet|].
  split; [unfold delete; quiet|].
  intros. unfold save. quiet.
Qed.

(** ** Priorities *)

(** X13.  The values of the members of [Priority] are those declared:
    [HIGHEST] = 0, [HIGH] = 25, [NORMAL] = 50, [LOW] = 75 and
    [LOWEST] = 100.  The members are ordered by their values as they are
    declared, from [HIGHEST] to [LOWEST], and no two members have the same
    value. *)
Theorem priority_values_order_the_members :
  Priority.value Priority.HIGHEST = 0%Z /\
  Priority.value Priority.HIGH = 25%Z /\
  Priority.value Priority.NORMAL = 50%Z /\
  Priority.value Priority.LOW = 75%Z /\
  Priority.value Priority.LOWEST = 100%Z /\
  (Priority.value Priority.HIGHEST < Priority.value Priority.HIGH
   < Priority.value Priority.NORMAL)%Z /\
  (Priority.value Priority.NORMAL < Priority.value Priority.LOW
   < Priority.value Priority.LOWEST)%Z /\
  (forall a, Priority.value Priority.HIGHEST <= Priority.value a
             <= Priority.value Priority.LOWEST)%Z /\
  (forall a b, Priority.value a = Priority.value b -> a = b).
Proof.
  do 5 (split; [reflexivity|]).
  split; [cbn; lia|]. split; [cbn; lia|]. split.
  - intros []; cbn; lia.
  - intros [] []; cbn; intros H; try reflexivity; discriminate H.
Qed.

(** ** save, from end to end *)

(** X10.  [save] of an instance of the model (it has a primary key), with
    collaborators that return and mutate no list: [save] returns [obj]; the hooks invoked are those of
    [BEFORE_UPDATE] then [AFTER_UPDATE] when the primary key is truthy, of
    [BEFORE_CREATE] then [AFTER_CREATE] when it is not; and storage is
    called for [obj] alone: the fetch of the original by the primary key of
    [obj] and one batch update of [[obj]], or one batch insert of
    [[obj]]. *)
Theorem save_writes_the_object_alone obj m :
  isinstance m obj model = true ->
  has_pk (objects m obj) = true ->
  (forall pks, returns (filter_pk_in C model pks)) ->
  (forall ev objs originals ctx,
     returns (engine_run C model ev objs originals ctx)) ->
  (forall ch, returns (base_bulk_update C model ch
                         (fields_but_id (objects m obj)) None)) ->
  (forall ch, returns (base_bulk_create C model ch None false)) ->
  lists_stable C ->
  exists log m',
    save C model obj m = (log, Ok obj m') /\
    hooks_of log
    = (if truthy (pk_of m obj) then [BEFORE_UPDATE; AFTER_UPDATE]
       else [BEFORE_CREATE; AFTER_CREATE]) /\
    List.filter is_storage log
    = (if truthy (pk_of m obj)
       then [EFetchPks model [pk_of m obj];
             EUpdate model [obj] (fields_but_id (objects m obj)) None]
       else [EInsert model [obj] None false]).
Proof.
  intros Hobj Hhas Hfetch Hengine Hupdate Hcreate Hst.
  set (batch := (alloc_list [obj] m).1).
  set (m0 := (alloc_list [obj] m).2).
  assert (lists m0 !! batch = Some [obj]) as Hbatch
    by (subst batch m0; unfold alloc_list, set_list; cbn; apply lookup_insert_eq).
  pose proof (deref_lookup _ _ _ Hbatch) as Hderef.
  assert (Forall (fun r => isinstance m0 r model = true) (deref m0 batch))
    as Hvalid by (rewrite Hderef; by repeat constructor).
  unfold save. destruct (truthy (pk_of m obj)) eqn:Hpk.
  - destruct (bulk_update_returns batch (fields_but_id (objects m obj)) None m0)
      as (blog & m' & Hrun); [by rewrite Hderef | done | apply Hfetch | auto..].
    destruct (bulk_update_returned _ _ _ _ _ _ _ _ Hbatch ltac:(done) Hrun)
      as (found & m1 & originals & ctx & before & after & chunks
          & Hlog & _ & _ & _ & _ & Hstable).
    destruct (Hstable Hst) as (-> & -> & -> & _).
    eexists _, m'. split; [fwd; rewrite Hpk; fwd|].
    rewrite Hlog. split; reflexivity.
  - destruct (bulk_create_returns batch None false m0 Hvalid)
      as (blog & result & m' & Hrun); [auto..|].
    destruct (bulk_create_returned _ _ _ _ _ _ _ _ Hbatch Hrun)
      as (before & chunks & after & Hlog & _ & _ & Hstable).
    destruct (Hstable Hst) as (-> & -> & _).
    eexists _, m'. split; [fwd; rewrite Hpk; fwd|].
    rewrite Hlog. split; reflexivity.
Qed.

(** ** The raw writes *)

(** The write loops and the raw writes. *)
Lemma update_loop_raw objs items fields bs (starts : list nat) m :
  (forall ch, keeps_lists (base_bulk_update C model ch fields bs)) ->
  lists m !! objs = Some items ->
  (for_each starts (fun i =>
     chunk ← gets (fun m => slice (deref m objs) i (i + CHUNK_SIZE));
     call (EUpdate model chunk fields bs)
          (base_bulk_update C model chunk fields bs)) m).2
  = raw_writes (fun ch => base_bulk_update C model ch fields bs)
               (fun _ m => m)
               ((fun i => slice items i (i + CHUNK_SIZE)) <$> starts) m.
Proof.
  intros Hkeep. revert m. induction starts as [|i starts IH]; intros m Hobjs.
  - reflexivity.
  - cbn [for_each fmap list_fmap raw_writes].
    rewrite bind_run, bind_run. cbn [gets fst snd app].
    rewrite (deref_lookup _ _ _ Hobjs). unfold call at 1.
    destruct (base_bulk_update C model _ fields bs m) as [[] m1|e m1] eqn:Hcall;
      cbn [fst snd]; [|done].
    apply IH. exact (keeps_ok _ _ _ _ _ _ (Hkeep _) Hcall Hobjs).
Qed.

Lemma update_chunks_raw objs items fields bs m :
  (forall ch, keeps_lists (base_bulk_update C model ch fields bs)) ->
  lists m !! objs = Some items ->
  (update_chunks C model objs fields bs m).2
  = raw_writes (fun ch => base_bulk_update C model ch fields bs)
               (fun _ m => m) (chunks_of items) m.
Proof.
  intros Hkeep Hobjs. unfold update_chunks. rewrite bind_run.
  cbn [gets fst snd]. rewrite (deref_lookup _ _ _ Hobjs).
  by apply update_loop_raw.
Qed.

Lemma create_loop_raw objs result items bs ic (starts : list nat) m :
  result <> objs ->
  (forall ch, keeps_lists (base_bulk_create C model ch bs ic)) ->
  lists m !! objs = Some items ->
  (for_each starts (fun i =>
     chunk ← gets (fun m => slice (deref m objs) i (i + CHUNK_SIZE));
     created ← call (EInsert model chunk bs ic)
                    (base_bulk_create C model chunk bs ic);
     modify (fun m => set_list result (deref m result ++ created) m)) m).2
  = raw_writes (fun ch => base_bulk_create C model ch bs ic)
               (extend result)
               ((fun i => slice items i (i + CHUNK_SIZE)) <$> starts) m.
Proof.
  intros Hne Hkeep. revert m.
  induction starts as [|i starts IH]; intros m Hobjs.
  - reflexivity.
  - cbn [for_each fmap list_fmap raw_writes].
    rewrite bind_run, bind_run. cbn [gets fst snd app].
    rewrite (deref_lookup _ _ _ Hobjs). rewrite bind_run. unfold call at 1.
    destruct (base_bulk_create C model _ bs ic m) as [created m1|e m1]
      eqn:Hcall; cbn [fst snd modify]; [|done].
    apply IH. unfold extend. cbn. rewrite lookup_insert_ne by done.
    exact (keeps_ok _ _ _ _ _ _ (Hkeep _) Hcall Hobjs).
Qed.

Lemma create_chunks_raw objs result items bs ic m :
  result <> objs ->
  (forall ch, keeps_lists (base_bulk_create C model ch bs ic)) ->
  lists m !! objs = Some items ->
  (create_chunks C model objs result bs ic m).2
  = raw_writes (fun ch => base_bulk_create C model ch bs ic)
               (extend result) (chunks_of items) m.
Proof.
  intros Hne Hkeep Hobjs. unfold create_chunks. rewrite bind_run.
  cbn [gets fst snd]. rewrite (deref_lookup _ _ _ Hobjs).
  by apply create_loop_raw.
Qed.

(** With the hooks bypassed, a bulk write ends as its raw writes do. *)
Lemma bulk_update_bypass_raw objs items fields bs m :
  lists m !! objs = Some items ->
  items <> [] ->
  Forall (fun o => isinstance m o model = true) items ->
  (forall ch, keeps_lists (base_bulk_update C model ch fields bs)) ->
  (bulk_update C model objs fields bs true m).2
  = in_transaction m objs
      (raw_writes (fun ch => base_bulk_update C model ch fields bs)
                  (fun _ m => m) (chunks_of items) m).
Proof.
  intros Hobjs Hne Hvalid Hkeep.
  pose proof (deref_lookup _ _ _ Hobjs) as Hitems.
  rewrite <- Hitems in Hvalid, Hne. apply valid_existsb in Hvalid.
  rewrite <- (update_chunks_raw objs items fields bs m Hkeep Hobjs).
  destruct (update_chunks C model objs fields bs m) as [ulog [[] mu|e mu]]
    eqn:Hloop; cbn [snd in_transaction].
  - assert (exists log, bulk_update C model objs fields bs true m
                        = (log, Ok objs mu)) as [log ->]; [|done].
    eexists. unfold bulk_update. cbn [negb].
    fwd. rewrite bool_decide_eq_false_2 by done. fwd.
  - assert (exists log, bulk_update C model objs fields bs true m
                        = (log, Raise e (set_db (db m) mu))) as [log ->];
      [|done].
    eexists. unfold bulk_update. cbn [negb].
    fwdx. rewrite bool_decide_eq_false_2 by done. fwdx.
Qed.

Lemma bulk_create_bypass_raw objs items bs ic m :
  lists m !! objs = Some items ->
  Forall (fun o => isinstance m o model = true) items ->
  (forall ch, keeps_lists (base_bulk_create C model ch bs ic)) ->
  (bulk_create C model objs bs ic true m).2
  = in_transaction m (alloc_list [] m).1
      (raw_writes (fun ch => base_bulk_create C model ch bs ic)
                  (extend (alloc_list [] m).1) (chunks_of items)
                  (alloc_list [] m).2).
Proof.
  intros Hobjs Hvalid Hkeep.
  pose proof (deref_lookup _ _ _ Hobjs) as Hitems.
  rewrite <- Hitems in Hvalid. apply valid_existsb in Hvalid.
  assert ((alloc_list [] m).1 <> objs) as Hfresh.
  { intros E. apply (alloc_list_fresh {[objs]} [] m).
    - apply singleton_subseteq_l, elem_of_dom. eauto.
    - rewrite E. set_solver. }
  rewrite <- (create_chunks_raw objs _ items bs ic _ Hfresh Hkeep
                (alloc_list_keeps [] _ _ _ Hobjs)).
  destruct (create_chunks C model objs (alloc_list [] m).1 bs ic
              (alloc_list [] m).2) as [clog [[] mc|e mc]]
    eqn:Hloop; cbn [snd in_transaction].
  - assert (exists log, bulk_create C model objs bs ic true m
                        = (log, Ok (alloc_list [] m).1 mc)) as [log ->];
      [|done].
    eexists. unfold bulk_create. cbn [negb]. fwd.
  - assert (exists log, bulk_create C model objs bs ic true m
                        = (log, Raise e (set_db (db m) mc))) as [log ->];
      [|done].
    eexists. unfold bulk_create. cbn [negb]. fwdx.
Qed.

(** X14.  With [bypass_hooks=True], [bulk_create] and [bulk_update] do no
    work for the hooks, however they end: no hook is invoked and no
    original is fetched.  On a batch of instances of the
    model, and with write primitives that mutate no list, they end as the
    raw writes do, the underlying primitive on each chunk of the batch in
    turn, within one transaction: with the outcome of the last write when
    all return, with the exception of the first that raises otherwise, the
    persisted state then being the one before the call. *)
Theorem bypass_performs_only_the_raw_writes objs items fields bs ic m :
  lists m !! objs = Some items ->
  Forall (fun o => isinstance m o model = true) items ->
  lists_stable C ->
  silent is_hook_work (bulk_create C model objs bs ic true) /\
  silent is_hook_work (bulk_update C model objs fields bs true) /\
  (bulk_create C model objs bs ic true m).2
  = in_transaction m (alloc_list [] m).1
      (raw_writes (fun ch => base_bulk_create C model ch bs ic)
                  (extend (alloc_list [] m).1) (chunks_of items)
                  (alloc_list [] m).2) /\
  (items <> [] ->
   (bulk_update C model objs fields bs true m).2
   = in_transaction m objs
       (raw_writes (fun ch => base_bulk_update C model ch fields bs)
                   (fun _ m => m) (chunks_of items) m)).
Proof.
  intros Hobjs Hvalid Hst.
  split; [apply bulk_create_bypass_silent|].
  split; [apply bulk_update_bypass_silent|].
  split.
  - apply bulk_create_bypass_raw; [done..|]. intros ch. apply Hst.
  - intros Hne. apply bulk_update_bypass_raw; [done..|]. intros ch. apply Hst.
Qed.

(** ** A call that returns has done all of its work *)

Lemma steps_of_app l1 l2 : steps_of (l1 ++ l2) = steps_of l1 ++ steps_of l2.
Proof. induction l1 as [|[] l1 IH]; cbn; by rewrite ?IH. Qed.

Lemma steps_of_updates (chunks : list (list oref)) fields bs :
  steps_of ((fun ch => EUpdate model ch fields bs) <$> chunks)
  = (fun ch => SUpdate ch fields) <$> chunks.
Proof. induction chunks as [|ch chunks IH]; cbn; by rewrite ?IH. Qed.

Lemma steps_of_inserts (chunks : list (list oref)) bs ic :
  steps_of ((fun ch => EInsert model ch bs ic) <$> chunks) = SInsert <$> chunks.
Proof. induction chunks as [|ch chunks IH]; cbn; by rewrite ?IH. Qed.

Lemma bulk_update_steps objs items fields bs bypass m log v m' :
  lists_stable C ->
  lists m !! objs = Some items ->
  items <> [] ->
  bulk_update C model objs fields bs bypass m = (log, Ok v m') ->
  v = objs /\
  steps_of log
  = (if bypass then []
     else [SFetchPks (pk_of m <$> items); SHook BEFORE_UPDATE])
    ++ ((fun ch => SUpdate ch fields) <$> chunks_of items)
    ++ (if bypass then [] else [SHook AFTER_UPDATE]).
Proof.
  intros Hst Hobjs Hne Hrun.
  pose proof (deref_lookup _ _ _ Hobjs) as Hitems.
  destruct bypass.
  - destruct (valid_or_mismatch objs m) as [Hvalid|(r & Hin & Hr)].
    2: { by rewrite (bulk_update_mismatch _ _ _ _ _ _ Hin Hr) in Hrun. }
    rewrite bulk_update_bypass in Hrun by (done || by rewrite Hitems).
    clear Hitems. inv_ok.
    lazymatch goal with
    | H : update_chunks _ _ _ _ _ _ = _ |- _ =>
        apply update_chunks_inv_ok in H as (chunks & -> & _ & _ & Hstable)
    end.
    destruct (Hstable items) as [-> _]; [intros ch; apply Hst | done |].
    split; [done|]. cbn [steps_of app].
    rewrite !steps_of_app, steps_of_updates. cbn.
    fold (chunks_of items). by rewrite !app_nil_r.
  - destruct (bulk_update_returned _ _ _ _ _ _ _ _ Hobjs Hne Hrun)
      as (found & m1 & originals & ctx & before & after & chunks
          & -> & _ & _ & _ & -> & Hstable).
    destruct (Hstable Hst) as (_ & _ & -> & _).
    split; [done|]. cbn [steps_of app].
    by rewrite !steps_of_app, steps_of_updates.
Qed.

Lemma bulk_create_steps objs items bs ic bypass m log v m' :
  lists_stable C ->
  lists m !! objs = Some items ->
  bulk_create C model objs bs ic bypass m = (log, Ok v m') ->
  steps_of log
  = (if bypass then [] else [SHook BEFORE_CREATE])
    ++ (SInsert <$> chunks_of items)
    ++ (if bypass then [] else [SHook AFTER_CREATE]).
Proof.
  intros Hst Hobjs Hrun.
  pose proof (deref_lookup _ _ _ Hobjs) as Hitems.
  destruct bypass.
  - destruct (valid_or_mismatch objs m) as [Hvalid|(r & Hin & Hr)].
    2: { by rewrite (bulk_create_mismatch _ _ _ _ _ _ Hin Hr) in Hrun. }
    rewrite bulk_create_bypass in Hrun by done.
    clear Hitems. inv_ok.
    lazymatch goal with
    | H : create_chunks _ _ _ _ _ _ _ = _ |- _ =>
        apply create_chunks_inv_ok in H as (chunks & outs & -> & _ & _ & Hstable)
    end.
    destruct (Hstable items []) as (-> & _).
    + intros E. apply (alloc_list_fresh {[objs]} [] m).
      * apply singleton_subseteq_l, elem_of_dom. eauto.
      * rewrite E. set_solver.
    + intros ch. apply Hst.
    + by apply alloc_list_keeps.
    + unfold alloc_list, set_list. cbn. apply lookup_insert_eq.
    + cbn [steps_of app]. rewrite !steps_of_app, steps_of_inserts. cbn.
      by rewrite !app_nil_r.
  - destruct (bulk_create_returned _ _ _ _ _ _ _ _ Hobjs Hrun)
      as (before & chunks & after & -> & _ & _ & Hstable).
    destruct (Hstable Hst) as (_ & -> & _).
    cbn [steps_of app]. by rewrite !steps_of_app, steps_of_inserts.
Qed.

(** The delete of [bulk_delete], when it returned: it has fetched the rows
    of the primary keys. *)
Lemma delete_step_steps depth pks m l u m1 :
  match depth with
  | 0 => raise RecursionError
  | S depth' =>
      queryset_delete C model (bulk_delete_at C model depth') pks;; ret tt
  end m = (l, Ok u m1) ->
  exists inner, steps_of l = SFetchPks pks :: inner.
Proof.
  destruct depth as [|depth]; [discriminate|].
  unfold queryset_delete. intros Hrun. inv_ok.
  eexists. cbn [steps_of app]. reflexivity.
Qed.

Lemma bulk_delete_at_steps depth objs items bs bypass m log v m' :
  lists_stable C ->
  lists m !! objs = Some items ->
  items <> [] ->
  bulk_delete_at C model depth objs bs bypass m = (log, Ok v m') ->
  v = objs /\
  exists m1 inner,
    (if bypass then m1 = (alloc_ctx model m).2
     else engine_run C model BEFORE_DELETE objs None (alloc_ctx model m).1
                     (alloc_ctx model m).2 = Ok tt m1) /\
    steps_of log
    = (if bypass then [] else [SHook BEFORE_DELETE])
      ++ SFetchPks (List.filter is_not_None (pk_of m1 <$> items)) :: inner
      ++ (if bypass then [] else [SHook AFTER_DELETE]).
Proof.
  intros Hst Hobjs Hne Hrun.
  rewrite bulk_delete_at_unfold in Hrun. inv_ok.
  rewrite (deref_lookup _ _ _ Hobjs) in *.
  rewrite bool_decide_eq_false_2 in Hrun by done.
  destruct bypass; cbn [negb] in Hrun; inv_ok.
  - lazymatch goal with
    | H : _ _ = (_, Ok _ _) |- _ =>
        apply delete_step_steps in H as [inner Hinner]
    end.
    split; [done|]. exists (alloc_ctx model m).2, inner. split; [done|].
    cbn [steps_of app]. rewrite !steps_of_app, Hinner. cbn [steps_of app].
    unfold non_null_pks. change (deref (alloc_ctx model m).2 objs)
      with (deref m objs). rewrite (deref_lookup _ _ _ Hobjs).
    by rewrite !app_nil_r.
  - lazymatch goal with
    | H : _ _ = (_, Ok _ _),
      Hb : engine_run _ _ BEFORE_DELETE _ _ _ _ = Ok ?u ?m1 |- _ =>
        destruct u;
        apply delete_step_steps in H as [inner Hinner];
        assert (lists m1 !! objs = Some items) as Hm1
          by exact (keeps_ok _ _ _ _ _ _ (stable_engine_run C Hst _ _ _ _ _)
                      Hb Hobjs);
        split; [done|]; exists m1, inner; split; [done|]
    end.
    cbn [steps_of app]. rewrite !steps_of_app, Hinner. cbn [steps_of app].
    unfold non_null_pks. rewrite (deref_lookup _ _ _ Hm1).
    rewrite ?steps_of_app. cbn [steps_of app]. by rewrite ?app_nil_r.
Qed.

Lemma update_of_nothing kwargs m m1 :
  all C model m = Ok [] m1 ->
  update C model kwargs m
  = ([EEnter (CUpdate kwargs); ETxBegin; EFetchAll model; ETxCommit],
     Ok 0 (alloc_list [] m1).2).
Proof.
  intros Hall. unfold update. etransitivity; [fwd|].
  - rewrite deref_set_list. cbn. reflexivity.
  - reflexivity.
Qed.

Lemma delete_of_nothing m m1 :
  all C model m = Ok [] m1 ->
  delete C model m
  = ([EEnter CDelete; ETxBegin; EFetchAll model; ETxCommit],
     Ok 0 (alloc_list [] m1).2).
Proof.
  intros Hall. unfold delete. etransitivity; [fwd|].
  - rewrite deref_set_list. cbn. reflexivity.
  - reflexivity.
Qed.

Lemma update_steps kwargs m log v m' :
  lists_stable C ->
  update C model kwargs m = (log, Ok v m') ->
  exists found m1 pks,
    all C model m = Ok found m1 /\
    v = length found /\
    length pks = length found /\
    steps_of log
    = SFetchAll ::
      (if bool_decide (found = []) then []
       else SFetchPks pks :: SHook BEFORE_UPDATE ::
            ((fun ch => SUpdate ch (kwargs.*1)) <$> chunks_of found)
            ++ [SHook AFTER_UPDATE]).
Proof.
  intros Hst Hrun.
  destruct (all C model m) as [found m1|e m1] eqn:Hall.
  2: { exfalso. unfold update in Hrun. inv_ok. congruence. }
  exists found, m1.
  destruct (decide (found = [])) as [->|Hne].
  { rewrite (update_of_nothing _ _ _ Hall) in Hrun.
    injection Hrun as <- <- <-. by exists []. }
  destruct (update_run kwargs m _ _ Hall Hne)
    as (m2 & Heq & Hfound & Hlists & _).
  cbn zeta in Heq. rewrite Heq in Hrun. clear Heq.
  set (objs := (alloc_list found m1).1) in *.
  assert (lists m2 !! objs = Some found) as Hobjs.
  { rewrite Hlists. unfold objs, alloc_list, set_list. cbn.
    apply lookup_insert_eq. }
  pose proof (bulk_update_keeps {[objs]} objs (kwargs.*1) None false Hst)
    as Hkeeps.
  apply (fun H => keeps_in_lookup _ _ _ _ H Hobjs) in Hkeeps.
  destruct (bulk_update C model objs (kwargs.*1) None false m2)
    as [blog [bv bm|be bm]] eqn:Hinner; cbn [fst snd mem_of] in *;
    [|discriminate].
  destruct (bulk_update_steps _ _ _ _ _ _ _ _ _ Hst Hobjs Hne Hinner)
    as [-> Hsteps].
  injection Hrun as <- <- <-.
  exists (pk_of m2 <$> found).
  split; [done|]. split; [by rewrite (deref_lookup _ _ _ Hkeeps)|].
  split; [by rewrite length_fmap|].
  rewrite bool_decide_eq_false_2 by done.
  cbn [steps_of app]. rewrite !steps_of_app, Hsteps. cbn [steps_of app].
  by rewrite ?app_nil_r.
Qed.

Lemma delete_steps m log v m' :
  lists_stable C ->
  delete C model m = (log, Ok v m') ->
  exists found m1 pks inner,
    all C model m = Ok found m1 /\
    v = length found /\
    steps_of log
    = SFetchAll ::
      (if bool_decide (found = []) then []
       else SHook BEFORE_DELETE :: SFetchPks pks :: inner
            ++ [SHook AFTER_DELETE]).
Proof.
  intros Hst Hrun.
  destruct (all C model m) as [found m1|e m1] eqn:Hall.
  2: { exfalso. unfold delete in Hrun. inv_ok. congruence. }
  exists found, m1.
  destruct (decide (found = [])) as [->|Hne].
  { rewrite (delete_of_nothing _ _ Hall) in Hrun.
    injection Hrun as <- <- <-. by exists [], []. }
  pose proof (delete_run m _ _ Hall Hne) as Heq.
  cbn zeta in Heq. rewrite Heq in Hrun. clear Heq.
  set (objs := (alloc_list found m1).1) in *.
  set (m2 := (alloc_list found m1).2) in *.
  assert (lists m2 !! objs = Some found) as Hobjs.
  { unfold objs, m2, alloc_list, set_list. cbn. apply lookup_insert_eq. }
  pose proof (bulk_delete_keeps {[objs]} objs None false Hst) as Hkeeps.
  apply (fun H => keeps_in_lookup _ _ _ _ H Hobjs) in Hkeeps.
  destruct (bulk_delete C model objs None false m2)
    as [blog [bv bm|be bm]] eqn:Hinner; cbn [fst snd mem_of] in *;
    [|discriminate].
  destruct (bulk_delete_at_steps _ _ _ _ _ _ _ _ _ Hst Hobjs Hne Hinner)
    as (-> & mb & inner & _ & Hsteps).
  injection Hrun as <- <- <-.
  exists (List.filter is_not_None (pk_of mb <$> found)), inner.
  split; [done|]. split; [by rewrite (deref_lookup _ _ _ Hkeeps)|].
  rewrite bool_decide_eq_false_2 by done.
  cbn [steps_of app]. rewrite !steps_of_app, Hsteps. cbn [steps_of app].
  by rewrite ?app_nil_r, <- ?app_assoc.
Qed.

Lemma save_steps obj m log v m' :
  lists_stable C ->
  save C model obj m = (log, Ok v m') ->
  v = obj /\
  has_pk (objects m obj) = true /\
  steps_of log
  = (if truthy (pk_of m obj)
     then [SFetchPks [pk_of m obj]; SHook BEFORE_UPDATE;
           SUpdate [obj] (fields_but_id (objects m obj));
           SHook AFTER_UPDATE]
     else [SHook BEFORE_CREATE; SInsert [obj]; SHook AFTER_CREATE]).
Proof.
  intros Hst Hrun. unfold save in Hrun. inv_ok.
  set (batch := (alloc_list [obj] m).1) in *.
  set (m0 := (alloc_list [obj] m).2) in *.
  assert (lists m0 !! batch = Some [obj]) as Hbatch
    by (subst batch m0; unfold alloc_list, set_list; cbn; apply lookup_insert_eq).
  split; [done|]. split; [done|].
  destruct (truthy (pk_of m obj)); inv_ok.
  - lazymatch goal with
    | H : bulk_update _ _ _ _ _ _ _ = _ |- _ =>
        destruct (bulk_update_steps _ _ _ _ _ _ _ _ _ Hst Hbatch
                    ltac:(done) H) as [_ Hsteps]
    end.
    cbn [steps_of app]. rewrite !steps_of_app, Hsteps. reflexivity.
  - lazymatch goal with
    | H : bulk_create _ _ _ _ _ _ _ = _ |- _ =>
        pose proof (bulk_create_steps _ _ _ _ _ _ _ _ _ Hst Hbatch H)
          as Hsteps
    end.
    cbn [steps_of app]. rewrite !steps_of_app, Hsteps. reflexivity.
Qed.

(** C2.  Each of the six methods of the manager is all or nothing.  A call that
    returns has raised nothing, rolled back nothing and committed, and a
    call that raises leaves the persisted state as it found it, and raises
    the exception that was raised inside, by the manager, a hook or
    storage.  And a call that returns has done all of its work, in order,
    when the collaborators mutate no list: [bulk_create] the hooks of
    [BEFORE_CREATE], one insert for each chunk of the batch, the hooks of
    [AFTER_CREATE]; [bulk_update] on a batch that is not empty the fetch
    of the originals, the hooks of [BEFORE_UPDATE], one update for each
    chunk of the batch, the hooks of [AFTER_UPDATE], returning [objs];
    [bulk_delete] on a batch that is not empty the hooks of
    [BEFORE_DELETE], the delete for the primary keys that are not [None]
    once these hooks have run, the hooks of [AFTER_DELETE], returning
    [objs]; with [bypass_hooks] the writes alone.  [update] and [delete]
    fetch the query set, and do the work of [bulk_update] and
    [bulk_delete] on what they fetched, returning its length; [save] does
    the work of [bulk_update] or of [bulk_create] on [[obj]], returning
    [obj].  The chunks of a batch hold all of its objects, in order. *)
Theorem manager_methods_are_all_or_nothing :
  ((forall objs bs ic bypass,
      all_or_nothing (bulk_create C model objs bs ic bypass)) /\
   (forall objs fields bs bypass,
      all_or_nothing (bulk_update C model objs fields bs bypass)) /\
   (forall objs bs bypass, all_or_nothing (bulk_delete C model objs bs bypass)) /\
   (forall kwargs, all_or_nothing (update C model kwargs)) /\
   all_or_nothing (delete C model) /\
   (forall obj, all_or_nothing (save C model obj))) /\
  (forall items, concat (chunks_of items) = items) /\
  (lists_stable C ->
   (forall objs items bs ic bypass m log v m',
      lists m !! objs = Some items ->
      bulk_create C model objs bs ic bypass m = (log, Ok v m') ->
      steps_of log
      = (if bypass then [] else [SHook BEFORE_CREATE])
        ++ (SInsert <$> chunks_of items)
        ++ (if bypass then [] else [SHook AFTER_CREATE])) /\
   (forall objs items fields bs bypass m log v m',
      lists m !! objs = Some items ->
      items <> [] ->
      bulk_update C model objs fields bs bypass m = (log, Ok v m') ->
      v = objs /\
      steps_of log
      = (if bypass then []
         else [SFetchPks (pk_of m <$> items); SHook BEFORE_UPDATE])
        ++ ((fun ch => SUpdate ch fields) <$> chunks_of items)
        ++ (if bypass then [] else [SHook AFTER_UPDATE])) /\
   (forall objs items bs bypass m log v m',
      lists m !! objs = Some items ->
      items <> [] ->
      bulk_delete C model objs bs bypass m = (log, Ok v m') ->
      v = objs /\
      exists m1 inner,
        (if bypass then m1 = (alloc_ctx model m).2
         else engine_run C model BEFORE_DELETE objs None (alloc_ctx model m).1
                         (alloc_ctx model m).2 = Ok tt m1) /\
        steps_of log
        = (if bypass then [] else [SHook BEFORE_DELETE])
          ++ SFetchPks (List.filter is_not_None (pk_of m1 <$> items)) :: inner
          ++ (if bypass then [] else [SHook AFTER_DELETE])) /\
   (forall kwargs m log v m',
      update C model kwargs m = (log, Ok v m') ->
      exists found m1 pks,
        all C model m = Ok found m1 /\
        v = length found /\
        length pks = length found /\
        steps_of log
        = SFetchAll ::
          (if bool_decide (found = []) then []
           else SFetchPks pks :: SHook BEFORE_UPDATE ::
                ((fun ch => SUpdate ch (kwargs.*1)) <$> chunks_of found)
                ++ [SHook AFTER_UPDATE])) /\
   (forall m log v m',
      delete C model m = (log, Ok v m') ->
      exists found m1 pks inner,
        all C model m = Ok found m1 /\
        v = length found /\
        steps_of log
        = SFetchAll ::
          (if bool_decide (found = []) then []
           else SHook BEFORE_DELETE :: SFetchPks pks :: inner
                ++ [SHook AFTER_DELETE])) /\
   (forall obj m log v m',
      save C model obj m = (log, Ok v m') ->
      v = obj /\
      has_pk (objects m obj) = true /\
      steps_of log
      = (if truthy (pk_of m obj)
         then [SFetchPks [pk_of m obj]; SHook BEFORE_UPDATE;
               SUpdate [obj] (fields_but_id (objects m obj));
               SHook AFTER_UPDATE]
         else [SHook BEFORE_CREATE; SInsert [obj]; SHook AFTER_CREATE]))).
Proof.
  split.
  - split; [intros; unfold bulk_create; apply method_all_or_nothing; discipline|].
    split; [intros; unfold bulk_update; apply method_all_or_nothing; discipline|].
    split; [intros; apply bulk_delete_all_or_nothing|].
    split; [intros; unfold update; apply method_all_or_nothing; discipline|].
    split; [unfold delete; apply method_all_or_nothing; discipline|].
    intros; unfold save; apply method_all_or_nothing; discipline.
  - split; [apply chunks_of_concat|]. intros Hst.
    split; [intros *; by apply bulk_create_steps|].
    split; [intros *; by apply bulk_update_steps|].
    split; [intros *; by apply bulk_delete_at_steps|].
    split; [intros *; by apply update_steps|].
    split; [intros *; by apply delete_steps|].
    intros *; by apply save_steps.
Qed.


End Properties.

(** * The concrete instance *)

Import Demo.

Lemma mark_batch_lists objs m : lists (mark_batch objs m) = lists m.
Proof.
  unfold mark_batch. induction (deref m objs) as [|r rs IH]; [done|].
  cbn. exact IH.
Qed.

Lemma marking_engine_keeps_lists cls ev objs originals ctx :
  keeps_lists (marking_engine cls ev objs originals ctx).
Proof.
  intros m l xs H. destruct ev; cbn; by rewrite ?mark_batch_lists.
Qed.

Lemma table_lists_stable : lists_stable (table marking_engine).
Proof.
  split; try (intros; intros m l xs H; exact H).
  - apply marking_engine_keeps_lists.
  - intros cls chunk fields bs m l xs H. cbn. unfold table_bulk_update.
    repeat case_match; exact H.
Qed.

(** C4: at an account whose primary key is assigned, and is 0, [save] does
    not do what the specification says: it calls [bulk_create]. *)
Lemma save_of_zero_pk_not_as_specified :
  ~ save_as_specified (table marking_engine) Account 0
      (heap zero_accounts [] []).
Proof.
  intros (_ & Hupdate & _).
  destruct Hupdate as [batch Hcalls]; [vm_compute; discriminate|].
  vm_compute in Hcalls. discriminate.
Qed.

(** What [save] does there, and what it does for a coupon, whose primary
    key is the field [code]: the primary key is among the fields passed to
    [bulk_update], which the batch update of the table, like Django's,
    refuses. *)
Example save_of_zero_pk_creates :
  pk_of (heap zero_accounts [] []) 0 = VInt 0 /\
  calls_of (save (table marking_engine) Account 0 (heap zero_accounts [] [])).1
  = [CSave 0; CBulkCreate 1 [0] None false false].
Proof. split; vm_compute; reflexivity. Qed.

Example save_of_coupon_updates_its_primary_key :
  let r := save (table marking_engine) Coupon 0 (heap coupons [] []) in
  calls_of r.1 = [CSave 0; CBulkUpdate 1 [0] ["code"; "discount"] None false] /\
  non_pk_fields (coupon (VStr "SPRING")) = ["discount"] /\
  raised r.2
  = Some (PyExc "ValueError"
                "bulk_update() cannot be used with primary key fields.").
Proof. repeat split; vm_compute; reflexivity. Qed.

Lemma Account_pk_named_id : pk_named_id Account.
Proof.
  intros f Hf. cbn in Hf.
  repeat (apply elem_of_cons in Hf as [->|Hf]; [by split|]).
  by apply not_elem_of_nil in Hf.
Qed.

Lemma table_returns :
  let C := table marking_engine in
  (forall pks, returns (filter_pk_in C Account pks)) /\
  (forall ev objs originals ctx,
     returns (engine_run C Account ev objs originals ctx)) /\
  (forall chunk, returns (base_bulk_update C Account chunk ["balance"] None)).
Proof.
  repeat split.
  - intros pks m. by eexists _, _.
  - intros ev objs originals ctx m. destruct ev; by eexists _, _.
  - intros chunk m. by exists tt, m.
Qed.

Lemma save_routes_to_one_bulk_call_witness :
  let C := table marking_engine in
  let new := heap zero_accounts [] [] in
  let old := heap saved_accounts [] [VInt 1] in
  let memo := heap notes [] [] in
  ((has_pk (objects new 0) = true /\ truthy (pk_of new 0) = false) /\
   calls_of (save C Account 0 new).1
   = [CSave 0; CBulkCreate (alloc_list [0] new).1 [0] None false false]) /\
  (truthy (pk_of old 0) = true /\
   pk_named_id (obj_type (objects old 0)) /\
   calls_of (save C Account 0 old).1
   = [CSave 0;
      CBulkUpdate (alloc_list [0] old).1 [0]
                  (non_pk_fields (objects old 0)) None false]) /\
  ((isinstance old 0 Account = true /\ has_pk (objects old 0) = true) /\
   exists log m', save C Account 0 old = (log, Ok 0 m')) /\
  (has_pk (objects memo 0) = false /\
   save C Account 0 memo
   = ([EEnter (CSave 0); ETxBegin; ERaise (AttributeError "Note" "pk");
       ETxRollback],
      Raise (AttributeError "Note" "pk") memo)).
Proof.
  intros C new old memo.
  assert (has_pk (objects new 0) = true) as Hhas by (vm_compute; reflexivity).
  assert (truthy (pk_of new 0) = false) as Hnew by (vm_compute; reflexivity).
  assert (truthy (pk_of old 0) = true) as Hold by (vm_compute; reflexivity).
  assert (isinstance old 0 Account = true) as Hobj by (vm_compute; reflexivity).
  assert (has_pk (objects old 0) = true) as Hhas' by (vm_compute; reflexivity).
  assert (has_pk (objects memo 0) = false) as Hnone by (vm_compute; reflexivity).
  split; [split; [by split|]|split; [split; [exact Hold|split]|split]].
  - exact (proj1 (save_routes_to_one_bulk_call C Account 0 new) Hhas Hnew).
  - exact Account_pk_named_id.
  - destruct (proj1 (proj2 (save_routes_to_one_bulk_call C Account 0 old)) Hold)
      as [Hcalls Hfields].
    rewrite <- (Hfields Account_pk_named_id). exact Hcalls.
  - split; [by split|].
    destruct table_returns as (Hfetch & Hengine & _).
    apply (proj1 (proj2 (proj2 (proj2
             (save_routes_to_one_bulk_call C Account 0 old)))));
      [exact Hobj | exact Hhas' | exact Hfetch | exact Hengine | |].
    + intros ch m. exists tt, m. vm_compute. reflexivity.
    + intros ch m. eexists _, _. reflexivity.
  - split; [exact Hnone|].
    exact (proj2 (proj2 (proj2 (proj2
             (save_routes_to_one_bulk_call C Account 0 memo)))) Hnone).
Defined.

Lemma save_branches_on_truthiness_witness :
  let C := table marking_engine in
  let new := heap zero_accounts [] [] in
  let old := heap saved_accounts [] [VInt 1] in
  ((pk_of new 0 = VInt 0 /\ has_pk (objects new 0) = true) /\
   calls_of (save C Account 0 new).1
   = [CSave 0; CBulkCreate (alloc_list [0] new).1 [0] None false false]) /\
  (truthy (pk_of old 0) = true /\
   exists fields,
     calls_of (save C Account 0 old).1
     = [CSave 0; CBulkUpdate (alloc_list [0] old).1 [0] fields None false]).
Proof.
  intros C new old.
  assert (pk_of new 0 = VInt 0) as Hnew by (vm_compute; reflexivity).
  assert (has_pk (objects new 0) = true) as Hhas by (vm_compute; reflexivity).
  assert (truthy (pk_of old 0) = true) as Hold by (vm_compute; reflexivity).
  split; (split; [by repeat split|]).
  - apply (proj1 (save_branches_on_truthiness C Account 0 new) (VInt 0));
      [apply (bool_decide_unpack _); vm_compute; exact I | exact Hhas
      | exact Hnew].
  - exact (proj1 (proj2 (proj2 (save_branches_on_truthiness C Account 0 old)))
                 Hold).
Defined.

Lemma empty_batch_short_circuits_witness :
  let C := table marking_engine in
  let m := heap saved_accounts [] [VInt 1] in
  deref m 0 = [] /\
  bulk_update C Account 0 ["balance"] None false m
  = ([EEnter (CBulkUpdate 0 [] ["balance"] None false); ETxBegin; ETxCommit],
     Ok (alloc_list [] m).1 (alloc_list [] m).2) /\
  bulk_delete C Account 0 None false m
  = ([EEnter (CBulkDelete 0 [] None false); ETxBegin; ETxCommit],
     Ok (alloc_list [] m).1 (alloc_list [] m).2).
Proof.
  intros C m.
  assert (deref m 0 = []) as Hnil by (vm_compute; reflexivity).
  pose proof (empty_batch_short_circuits C Account 0 ["balance"] None false m
                Hnil) as H.
  cbn zeta in H. destruct H as (Hupdate & Hdelete & _).
  split; [exact Hnil|]. split; [exact Hupdate | exact Hdelete].
Defined.

(** C3: the batch that holds an invoice is not rejected before any
    transactional work: the transaction of the decorator has begun when the
    [TypeError] is raised, and is rolled back. *)
Lemma type_mismatch_not_as_specified :
  ~ rejected_as_specified
      (bulk_update (table marking_engine) Account 0 ["balance"] None false)
      (heap mixed [0; 1; 2] [VInt 1]).
Proof.
  intros (_ & Hlog & _).
  assert (2 ∈ deref (heap mixed [0; 1; 2] [VInt 1]) 0) as Hin
    by (apply (bool_decide_unpack _); vm_compute; exact I).
  assert (isinstance (heap mixed [0; 1; 2] [VInt 1]) 2 Account = false) as Hr
    by (vm_compute; reflexivity).
  rewrite (bulk_update_mismatch _ _ _ _ _ _ _ _ Hin Hr) in Hlog.
  cbn [fst] in Hlog.
  inversion Hlog as [|? ? _ Hrest]. inversion Hrest as [|? ? [Htx _] _].
  discriminate Htx.
Qed.

Lemma type_mismatch_fails_before_any_work_witness :
  let C := table marking_engine in
  let m := heap mixed [0; 1; 2] [VInt 1] in
  let e := TypeError "bulk_update" "Account"
                     (list_to_set (type_name m <$> deref m 0)) in
  (2 ∈ deref m 0 /\ isinstance m 2 Account = false) /\
  bulk_update C Account 0 ["balance"] None false m
  = ([EEnter (CBulkUpdate 0 (deref m 0) ["balance"] None false); ETxBegin;
      ERaise e; ETxRollback],
     Raise e m).
Proof.
  intros C m e.
  assert (2 ∈ deref m 0) as Hin
    by (apply (bool_decide_unpack _); vm_compute; exact I).
  assert (isinstance m 2 Account = false) as Hr by (vm_compute; reflexivity).
  split; [by split|].
  pose proof (type_mismatch_fails_before_any_work C Account 0 ["balance"] None
                false false m 2 Hin Hr) as H.
  cbn zeta in H. destruct H as (_ & Hupdate & _). exact Hupdate.
Defined.

Example mismatch_message :
  list_to_set (type_name (heap mixed [0; 1; 2] [VInt 1]) <$> [0; 1; 2])
  = ({[ "Account"; "Invoice" ]} : gset string).
Proof. vm_compute. reflexivity. Qed.

(** An account of another application is no instance of [Account], though
    its class has the same name: the batch is rejected. *)
Example namesake_is_rejected :
  let m := heap namesakes [0; 1; 2] [VInt 1] in
  let r := bulk_update (table marking_engine) Account 0 ["balance"] None true m in
  type_name m 2 = cls_name Account /\
  isinstance m 2 Account = false /\
  raised r.2 = Some (TypeError "bulk_update" "Account" {[ "Account" ]}) /\
  List.filter is_storage r.1 = [].
Proof. intros m r. repeat split; vm_compute; reflexivity. Qed.

Lemma type_check_is_not_bypassed_witness :
  let C := table marking_engine in
  let m := heap mixed [0; 1; 2] [VInt 1] in
  let e := TypeError "bulk_create" "Account"
                     (list_to_set (type_name m <$> deref m 0)) in
  (2 ∈ deref m 0 /\ isinstance m 2 Account = false) /\
  (bulk_create C Account 0 None false true m).2 = Raise e m /\
  Forall (fun ev => is_write ev = false)
         (bulk_create C Account 0 None false true m).1 /\
  db (mem_of (bulk_create C Account 0 None false true m).2) = [VInt 1].
Proof.
  intros C m e.
  assert (2 ∈ deref m 0) as Hin
    by (apply (bool_decide_unpack _); vm_compute; exact I).
  assert (isinstance m 2 Account = false) as Hr by (vm_compute; reflexivity).
  split; [by split|].
  pose proof (type_check_is_not_bypassed C Account 0 ["balance"] None false m 2
                Hin Hr) as H.
  cbn zeta beta in H. destruct H as ((Hraise & Hlog & Hdb) & _).
  split; [exact Hraise|]. split; [exact Hlog | exact Hdb].
Defined.

Lemma bypass_performs_only_the_raw_writes_witness :
  let C := table marking_engine in
  let m := heap saved_accounts [0; 1; 2] [] in
  (lists m !! 0 = Some [0; 1; 2] /\
   Forall (fun o => isinstance m o Account = true) [0; 1; 2] /\
   [0; 1; 2] <> []) /\
  (bulk_create C Account 0 None false true m).1
  = [EEnter (CBulkCreate 0 [0; 1; 2] None false true); ETxBegin;
     EInsert Account [0; 1; 2] None false; ETxCommit] /\
  db (mem_of (bulk_create C Account 0 None false true m).2)
  = [VInt 1; VInt 2; VInt 3] /\
  (bulk_update C Account 0 ["balance"] None true m).2 = Ok 0 m.
Proof.
  intros C m.
  assert (lists m !! 0 = Some [0; 1; 2]) as Hobjs by (vm_compute; reflexivity).
  assert (Forall (fun o => isinstance m o Account = true) [0; 1; 2]) as Hvalid
    by (apply (bool_decide_unpack _); vm_compute; exact I).
  assert ([0; 1; 2] <> []) as Hne by discriminate.
  split; [by repeat split|].
  destruct (bypass_performs_only_the_raw_writes
              C Account 0 [0; 1; 2] ["balance"] None false m
              Hobjs Hvalid table_lists_stable)
    as (_ & _ & Hcreate & Hupdate).
  split; [vm_compute; reflexivity|].
  split; [rewrite Hcreate; vm_compute; reflexivity|].
  rewrite (Hupdate Hne). reflexivity.
Defined.

(** ** [bulk_delete], on the table *)

(** C7.  [bulk_delete] of two saved accounts whose rows are stored: the delete
    of the query set of the manager finds the two rows and comes back to
    [bulk_delete], which runs the hooks of [BEFORE_DELETE] and comes to the
    same delete, and so on until the stack is full.  [RecursionError]
    reaches the caller, the rows are still stored, the hooks of
    [BEFORE_DELETE] have been invoked once for every call on the stack and
    those of [AFTER_DELETE] never.  When no row is stored for the primary
    keys, the call returns [objs], having invoked the hooks of the two
    events once and fetched the primary keys that are not [None]. *)
Theorem bulk_delete_of_stored_rows_never_deletes :
  let C := table marking_engine in
  let m := heap saved_accounts [0; 1] [VInt 1; VInt 2; VInt 9] in
  let r := bulk_delete C Account 0 None false m in
  let gone := heap partly_saved [0; 1; 2] [VInt 9] in
  let r' := bulk_delete C Account 0 None false gone in
  (raised r.2 = Some RecursionError /\
   db (mem_of r.2) = [VInt 1; VInt 2; VInt 9] /\
   hooks_of r.1 = replicate 201 BEFORE_DELETE /\
   length (calls_of r.1) = 201 /\
   last r.1 = Some ETxRollback) /\
  (returned r'.2 = Some 0 /\
   steps_of r'.1
   = [SHook BEFORE_DELETE; SFetchPks [VInt 1; VInt 3]; SHook AFTER_DELETE] /\
   db (mem_of r'.2) = [VInt 9]).
Proof. vm_compute. repeat split; reflexivity. Qed.

(** C6.  [bulk_delete] with [bypass_hooks=True], of two saved accounts whose
    rows are stored: the delete of the query set of the manager comes back
    to [bulk_delete] without [bypass_hooks], so that the hooks of
    [BEFORE_DELETE] are invoked, in every call but the first, until the
    stack is full; nothing is deleted. *)
Theorem bypassed_bulk_delete_invokes_the_hooks :
  let C := table marking_engine in
  let m := heap saved_accounts [0; 1] [VInt 1; VInt 2; VInt 9] in
  let r := bulk_delete C Account 0 None true m in
  raised r.2 = Some RecursionError /\
  db (mem_of r.2) = [VInt 1; VInt 2; VInt 9] /\
  hooks_of r.1 = replicate 200 BEFORE_DELETE /\
  take 2 (calls_of r.1)
  = [CBulkDelete 0 [0; 1] None true;
     CBulkDelete (alloc_list [0; 1] (alloc_ctx Account m).2).1 [0; 1] None
                 false].
Proof. vm_compute. repeat split; reflexivity. Qed.

Lemma bulk_create_of_empty_batch_witness :
  let C := table marking_engine in
  let m := heap new_accounts [] [] in
  let m1 := mark_batch 0 (alloc_ctx Account (alloc_list [] m).2).2 in
  lists m !! 0 = Some [] /\
  bulk_create C Account 0 None false false m
  = ([EEnter (CBulkCreate 0 [] None false false); ETxBegin;
      ENewContext Account (alloc_ctx Account (alloc_list [] m).2).1;
      EHook Account BEFORE_CREATE 0 [] None
            (alloc_ctx Account (alloc_list [] m).2).1;
      EHook Account AFTER_CREATE (alloc_list [] m).1 [] None
            (alloc_ctx Account (alloc_list [] m).2).1;
      ETxCommit],
     Ok (alloc_list [] m).1 m1) /\
  deref m1 (alloc_list [] m).1 = [].
Proof.
  intros C m m1.
  assert (lists m !! 0 = Some []) as Hobjs by (vm_compute; reflexivity).
  split; [exact Hobjs|].
  exact (proj2 (bulk_create_of_empty_batch_runs_hooks
                  C Account 0 None false m m1 m1 Hobjs)
               (marking_engine_keeps_lists Account) eq_refl eq_refl).
Defined.


(** ** All or nothing, on the table *)

Lemma manager_methods_are_all_or_nothing_witness :
  let C := table marking_engine in
  let m := heap saved_accounts (seq 0 201) [] in
  (lists_stable C /\ lists m !! 0 = Some (seq 0 201) /\ seq 0 201 <> []) /\
  all_or_nothing (bulk_update C Account 0 ["balance"] None false) /\
  exists log m',
    bulk_update C Account 0 ["balance"] None false m = (log, Ok 0 m') /\
    steps_of log
    = [SFetchPks (pk_of m <$> seq 0 201); SHook BEFORE_UPDATE;
       SUpdate (seq 0 200) ["balance"]; SUpdate [200] ["balance"];
       SHook AFTER_UPDATE].
Proof.
  intros C m.
  assert (lists m !! 0 = Some (seq 0 201)) as Hobjs by (vm_compute; reflexivity).
  assert (seq 0 201 <> []) as Hne by discriminate.
  split; [split; [exact table_lists_stable | by split]|].
  destruct (manager_methods_are_all_or_nothing C Account)
    as (Hall & _ & Hdone).
  split; [apply Hall|].
  destruct (Hdone table_lists_stable) as (_ & Hupdate & _).
  assert (returned (bulk_update C Account 0 ["balance"] None false m).2 = Some 0)
    as Hret by (vm_compute; reflexivity).
  destruct (bulk_update C Account 0 ["balance"] None false m)
    as [log [v m'|e m']] eqn:Hrun; [|discriminate Hret].
  destruct (Hupdate 0 (seq 0 201) ["balance"] None false m log v m'
              Hobjs Hne Hrun) as [-> Hsteps].
  exists log, m'. split; [reflexivity|].
  rewrite Hsteps. vm_compute. reflexivity.
Defined.

(** A hook of [BEFORE_CREATE] rejects a batch of 500: nothing is inserted,
    the table is as it was. *)
Example rejected_bulk_create_persists_nothing :
  let C := table rejecting_engine in
  let m := heap new_accounts (seq 0 500) [VInt 7] in
  let r := bulk_create C Account 0 None false false m in
  raised r.2 = Some (PyExc "ValidationError" "rejected") /\
  db (mem_of r.2) = [VInt 7] /\
  List.filter is_storage r.1 = [].
Proof. intros C m r. repeat split; vm_compute; reflexivity. Qed.

(** The second chunk of a batch of 450 fails in storage: the 200 rows of
    the first chunk do not survive. *)
Example failed_chunk_rolls_back_the_first :
  let m := heap saved_accounts (seq 0 450) [] in
  let r := bulk_create small_table Account 0 None false false m in
  raised r.2 = Some (PyExc "IntegrityError" "table is full") /\
  length (List.filter is_write r.1) = 2 /\
  db (mem_of r.2) = [].
Proof. intros m r. repeat split; vm_compute; reflexivity. Qed.

(** ** More of the manager, on the table *)

Lemma table_inserts chunk bs ic :
  returns (base_bulk_create (table marking_engine) Account chunk bs ic).
Proof. intros m. by eexists _, _. Qed.

Lemma table_insert_result chunk bs ic ma out mb :
  base_bulk_create (table marking_engine) Account chunk bs ic ma = Ok out mb ->
  out = chunk.
Proof. by intros [= <- _]. Qed.

Lemma table_updates_but_id chunk :
  returns (base_bulk_update (table marking_engine) Account chunk
             ["owner"; "balance"] None).
Proof. intros m. exists tt, m. vm_compute. reflexivity. Qed.

Lemma manager_leaves_the_lists_it_finds_witness :
  let C := table marking_engine in
  let m := heap saved_accounts [0; 1] [VInt 1; VInt 2] in
  lists m !! 0 = Some [0; 1] /\
  lists (mem_of (bulk_create C Account 0 None false false m).2) !! 0
  = Some [0; 1] /\
  lists (mem_of (update C Account [("balance", VInt 0)] m).2) !! 0
  = Some [0; 1] /\
  lists (mem_of (delete C Account m).2) !! 0 = Some [0; 1].
Proof.
  intros C m.
  assert (lists m !! 0 = Some [0; 1]) as Hl by (vm_compute; reflexivity).
  destruct (manager_leaves_the_lists_it_finds C Account 0 [0; 1] m
              table_lists_stable Hl)
    as (Hcreate & _ & _ & Hupdate & Hdelete & _).
  split; [exact Hl|]. split; [apply Hcreate|].
  split; [apply Hupdate | exact Hdelete].
Defined.

Lemma bulk_create_hooks_once_and_collects_witness :
  let C := table marking_engine in
  let m := heap new_accounts [0; 1; 2] [] in
  let r := bulk_create C Account 0 None false false m in
  (lists m !! 0 = Some [0; 1; 2] /\
   Forall (fun o => isinstance m o Account = true) [0; 1; 2]) /\
  returned r.2 = Some (alloc_list [] m).1 /\
  (alloc_list [] m).1 <> 0 /\
  hooks_of r.1 = [BEFORE_CREATE; AFTER_CREATE] /\
  List.filter is_write r.1 = [EInsert Account [0; 1; 2] None false] /\
  deref (mem_of r.2) (alloc_list [] m).1 = [0; 1; 2].
Proof.
  intros C m r.
  assert (lists m !! 0 = Some [0; 1; 2]) as Hobjs by (vm_compute; reflexivity).
  assert (Forall (fun o => isinstance m o Account = true) [0; 1; 2]) as Hvalid
    by (apply (bool_decide_unpack _); vm_compute; exact I).
  split; [by split|].
  destruct table_returns as (_ & Hengine & _).
  destruct (bulk_create_hooks_once_and_collects_the_results
              C Account 0 [0; 1; 2] None false m Hobjs)
    as [_ Hreturns].
  destruct (Hreturns Hvalid Hengine (fun ch => table_inserts ch None false))
    as (before & chunks & after & m' & Hrun & Hfresh & _ & Hstable).
  destruct (Hstable table_lists_stable)
    as (-> & Hchunks & outs & Hret & -> & Hresult).
  assert (chunks = [[0; 1; 2]]) as -> by (rewrite Hchunks; vm_compute; reflexivity).
  inversion Hret as [|ch out chs outs' (ma & mb & Hout) Hrest]; subst.
  inversion Hrest; subst. apply table_insert_result in Hout as ->.
  unfold r. rewrite Hrun. cbn [fst snd returned mem_of].
  split; [reflexivity|]. split; [exact Hfresh|].
  split; [reflexivity|]. split; [reflexivity | exact Hresult].
Defined.

Lemma bulk_update_writes_the_batch_in_chunks_witness :
  let C := table marking_engine in
  let m := heap saved_accounts (seq 0 201) [] in
  (lists m !! 0 = Some (seq 0 201) /\
   Forall (fun o => isinstance m o Account = true) (seq 0 201)) /\
  (exists log m',
     bulk_update C Account 0 ["balance"] None true m = (log, Ok 0 m') /\
     List.filter is_write log
     = [EUpdate Account (seq 0 200) ["balance"] None;
        EUpdate Account [200] ["balance"] None]) /\
  length (chunks_of (seq 0 201)) = 2.
Proof.
  intros C m.
  assert (lists m !! 0 = Some (seq 0 201)) as Hobjs by (vm_compute; reflexivity).
  assert (seq 0 201 <> []) as Hne by discriminate.
  assert (Forall (fun o => isinstance m o Account = true) (seq 0 201)) as Hvalid
    by (apply (bool_decide_unpack _); vm_compute; exact I).
  split; [by split|].
  destruct table_returns as (Hfetch & Hengine & Hupdate).
  destruct (bulk_update_writes_the_batch_in_chunks
              C Account 0 (seq 0 201) ["balance"] None true m
              Hobjs Hne Hvalid (Hfetch _) (fun ev => Hengine ev 0) Hupdate
              table_lists_stable)
    as ((log & m' & Hrun & Hwrites) & _ & Hlen & _).
  split; [|rewrite Hlen; vm_compute; reflexivity].
  exists log, m'. split; [exact Hrun|].
  rewrite Hwrites. vm_compute. reflexivity.
Defined.

Lemma update_and_delete_of_nothing_witness :
  let C := table marking_engine in
  let m := heap saved_accounts [] [] in
  all C Account m = Ok [] m /\
  update C Account [("balance", VInt 0)] m
  = ([EEnter (CUpdate [("balance", VInt 0)]); ETxBegin; EFetchAll Account;
      ETxCommit],
     Ok 0 (alloc_list [] m).2) /\
  delete C Account m
  = ([EEnter CDelete; ETxBegin; EFetchAll Account; ETxCommit],
     Ok 0 (alloc_list [] m).2).
Proof.
  intros C m.
  assert (all C Account m = Ok [] m) as Hall by (vm_compute; reflexivity).
  destruct (update_and_delete_of_nothing C Account [("balance", VInt 0)] m m
              Hall)
    as (Hupdate & Hdelete & _).
  split; [exact Hall|]. split; [exact Hupdate | exact Hdelete].
Defined.

Lemma update_assigns_then_bulk_updates_witness :
  let C := table marking_engine in
  let m := heap saved_accounts [] [VInt 1; VInt 2] in
  let kwargs := [("balance", VInt 0)] in
  (all C Account m = Ok [0; 1] m /\ [0; 1] <> []) /\
  exists m2,
    (update C Account kwargs m).1
    = [EEnter (CUpdate kwargs); ETxBegin; EFetchAll Account]
      ++ (bulk_update C Account (alloc_list [0; 1] m).1 ["balance"] None false
            m2).1
      ++ [match (bulk_update C Account (alloc_list [0; 1] m).1 ["balance"]
                   None false m2).2 with
          | Ok _ _ => ETxCommit
          | Raise _ _ => ETxRollback
          end] /\
    obj_attrs (objects m2 0) !! "balance" = Some (VInt 0) /\
    obj_attrs (objects m2 1) !! "balance" = Some (VInt 0) /\
    objects m2 5 = objects m 5.
Proof.
  intros C m kwargs.
  assert (all C Account m = Ok [0; 1] m) as Hall by (vm_compute; reflexivity).
  assert ([0; 1] <> []) as Hne by discriminate.
  split; [by split|].
  destruct (update_assigns_then_bulk_updates C Account kwargs m [0; 1] m
              Hall Hne)
    as (m2 & Hrun & _ & _ & _ & _ & Hout & _ & Hin).
  assert ("pk" ∉ kwargs.*1) as Hpk
    by (apply (bool_decide_unpack _); vm_compute; exact I).
  assert (NoDup kwargs.*1) as Hnd
    by (apply (bool_decide_unpack _); vm_compute; exact I).
  exists m2. split; [exact (f_equal fst Hrun)|].
  split; [|split].
  - apply (Hin Hpk Hnd 0 "balance" (VInt 0));
      apply (bool_decide_unpack _); vm_compute; exact I.
  - apply (Hin Hpk Hnd 1 "balance" (VInt 0));
      apply (bool_decide_unpack _); vm_compute; exact I.
  - apply Hout. apply (bool_decide_unpack _). vm_compute. exact I.
Defined.

Lemma update_returns_the_number_of_objects_witness :
  let C := table marking_engine in
  let m := heap saved_accounts [] [VInt 1; VInt 2] in
  (all C Account m = Ok [0; 1] m /\
   Forall (fun r => isinstance m r Account = true) [0; 1]) /\
  exists log m', update C Account [("balance", VInt 0)] m = (log, Ok 2 m').
Proof.
  intros C m.
  assert (all C Account m = Ok [0; 1] m) as Hall by (vm_compute; reflexivity).
  assert (Forall (fun r => isinstance m r Account = true) [0; 1]) as Hvalid
    by (apply (bool_decide_unpack _); vm_compute; exact I).
  split; [by split|].
  destruct table_returns as (Hfetch & Hengine & Hupdate).
  exact (update_returns_the_number_of_objects
           C Account [("balance", VInt 0)] m [0; 1] m
           Hall Hvalid Hfetch Hengine Hupdate table_lists_stable).
Defined.

Lemma delete_fetches_then_bulk_deletes_witness :
  let C := table marking_engine in
  let gone := heap partly_saved [] [VInt 1; VInt 9] in
  (all C Account gone = Ok [0] gone /\ [0] <> []) /\
  (exists rest,
     (delete C Account gone).1
     = [EEnter CDelete; ETxBegin; EFetchAll Account;
        EEnter (CBulkDelete (alloc_list [0] gone).1 [0] None false); ETxBegin]
       ++ rest) /\
  raised (delete C Account gone).2 = Some RecursionError /\
  db (mem_of (delete C Account gone).2) = [VInt 1; VInt 9].
Proof.
  intros C gone.
  assert (all C Account gone = Ok [0] gone) as Hall by (vm_compute; reflexivity).
  assert ([0] <> []) as Hne by discriminate.
  split; [by split|].
  destruct (delete_fetches_then_bulk_deletes C Account gone [0] gone Hall Hne)
    as (Hrun & _ & (rest & Hrest) & _).
  split; [|split; vm_compute; reflexivity].
  rewrite Hrun. cbn [fst]. rewrite Hrest. eexists. reflexivity.
Defined.

Lemma save_of_another_type_raises_witness :
  let C := table marking_engine in
  let m := heap mixed [] [] in
  let r := save C Account 2 m in
  let memo := heap notes [] [] in
  (isinstance m 2 Account = false /\ has_pk (objects m 2) = true) /\
  (raised r.2 = Some (TypeError "bulk_update" "Account" {[ "Invoice" ]}) /\
   List.filter is_hook r.1 = [] /\
   List.filter is_storage r.1 = []) /\
  (isinstance memo 0 Account = false /\ has_pk (objects memo 0) = false) /\
  raised (save C Account 0 memo).2 = Some (AttributeError "Note" "pk").
Proof.
  intros C m r memo.
  assert (isinstance m 2 Account = false) as Hobj by (vm_compute; reflexivity).
  assert (has_pk (objects m 2) = true) as Hhas by (vm_compute; reflexivity).
  assert (isinstance memo 0 Account = false) as Hobj'
    by (vm_compute; reflexivity).
  assert (has_pk (objects memo 0) = false) as Hnone by (vm_compute; reflexivity).
  split; [by split|]. split; [|split; [by split|]].
  - unfold r.
    rewrite (proj1 (save_of_another_type_raises C Account 2 m Hobj) Hhas).
    repeat split; vm_compute; reflexivity.
  - rewrite (proj2 (save_of_another_type_raises C Account 0 memo Hobj') Hnone).
    reflexivity.
Defined.

Lemma save_passes_a_primary_key_not_named_id_witness :
  let C := table marking_engine in
  let m := heap coupons [] [] in
  (truthy (pk_of m 0) = true /\
   meta_pk (obj_type (objects m 0)) = Some (field "code" true)) /\
  exists fields,
    calls_of (save C Coupon 0 m).1
    = [CSave 0; CBulkUpdate (alloc_list [0] m).1 [0] fields None false] /\
    "code" ∈ fields.
Proof.
  intros C m.
  assert (truthy (pk_of m 0) = true) as Hpk by (vm_compute; reflexivity).
  assert (meta_pk (obj_type (objects m 0)) = Some (field "code" true)) as Hf
    by (vm_compute; reflexivity).
  assert (name (field "code" true) <> "id") as Hname by (vm_compute; discriminate).
  split; [by split|].
  destruct (save_passes_a_primary_key_not_named_id
              C Coupon 0 m (field "code" true) Hpk Hf Hname)
    as (fields & Hcalls & _ & Hin & _).
  exists fields. split; [exact Hcalls | exact Hin].
Defined.

Lemma before_hooks_that_raise_prevent_the_write_witness :
  let C := table vetoing_engine in
  let m := heap saved_accounts [0; 1] [VInt 1; VInt 2] in
  let e := PyExc "ValidationError" "refused" in
  (lists m !! 0 = Some [0; 1] /\
   Forall (fun o => isinstance m o Account = true) [0; 1]) /\
  (raised (bulk_create C Account 0 None false false m).2 = Some e /\
   List.filter is_write (bulk_create C Account 0 None false false m).1 = [] /\
   db (mem_of (bulk_create C Account 0 None false false m).2)
   = [VInt 1; VInt 2]) /\
  (raised (bulk_update C Account 0 ["balance"] None false m).2 = Some e /\
   List.filter is_write (bulk_update C Account 0 ["balance"] None false m).1
   = []) /\
  (raised (bulk_delete C Account 0 None false m).2 = Some e /\
   List.filter is_write (bulk_delete C Account 0 None false m).1 = [] /\
   db (mem_of (bulk_delete C Account 0 None false m).2) = [VInt 1; VInt 2]).
Proof.
  intros C m e.
  assert (lists m !! 0 = Some [0; 1]) as Hobjs by (vm_compute; reflexivity).
  assert ([0; 1] <> []) as Hne by discriminate.
  assert (Forall (fun o => isinstance m o Account = true) [0; 1]) as Hvalid
    by (apply (bool_decide_unpack _); vm_compute; exact I).
  assert (filter_pk_in C Account (pk_of m <$> [0; 1]) m = Ok [0; 1] m)
    as Hfound by (vm_compute; reflexivity).
  split; [by split|]. split; [|split].
  - rewrite (proj1 (before_hooks_that_raise_prevent_the_write
                      C Account 0 [0; 1] ["balance"] None false m e
                      (alloc_ctx Account (alloc_list [] m).2).2 Hobjs Hvalid)
                   eq_refl).
    repeat split; vm_compute; reflexivity.
  - rewrite (proj1 (proj2 (before_hooks_that_raise_prevent_the_write
                      C Account 0 [0; 1] ["balance"] None false m e
                      (alloc_ctx Account (alloc_list [0; 1] m).2).2
                      Hobjs Hvalid))
                   Hne [0; 1] m Hfound eq_refl).
    repeat split; vm_compute; reflexivity.
  - rewrite (proj2 (proj2 (before_hooks_that_raise_prevent_the_write
                      C Account 0 [0; 1] ["balance"] None false m e
                      (alloc_ctx Account m).2 Hobjs Hvalid))
                   Hne eq_refl).
    repeat split; vm_compute; reflexivity.
Defined.

Lemma save_writes_the_object_alone_witness :
  let C := table marking_engine in
  let m := heap saved_accounts [] [VInt 1] in
  (isinstance m 0 Account = true /\ has_pk (objects m 0) = true) /\
  exists log m',
    save C Account 0 m = (log, Ok 0 m') /\
    hooks_of log = [BEFORE_UPDATE; AFTER_UPDATE] /\
    List.filter is_storage log
    = [EFetchPks Account [VInt 1];
       EUpdate Account [0] ["owner"; "balance"] None].
Proof.
  intros C m.
  assert (isinstance m 0 Account = true) as Hobj by (vm_compute; reflexivity).
  assert (has_pk (objects m 0) = true) as Hhas by (vm_compute; reflexivity).
  assert (truthy (pk_of m 0) = true) as Hpk by (vm_compute; reflexivity).
  split; [by split|].
  destruct table_returns as (Hfetch & Hengine & _).
  destruct (save_writes_the_object_alone C Account 0 m Hobj Hhas Hfetch Hengine
              table_updates_but_id (fun ch => table_inserts ch None false)
              table_lists_stable)
    as (log & m' & Hrun & Hhooks & Hstorage).
  rewrite Hpk in Hhooks, Hstorage.
  exists log, m'. split; [exact Hrun|]. split; [exact Hhooks|].
  rewrite Hstorage. vm_compute. reflexivity.
Defined.
